(** * Outreach scheduling and drip-sequence delivery: a shallow embedding

    The development follows the JavaScript services of the repository:
    - [database/schema.sql] and the setup script ([setupDatabase]): the
      tables and their CHECK constraints;
    - [services/messageGeneration.js]: [generateMessage],
      [createCampaignMessage];
    - [services/sequenceCampaign.js]: [llcSequence],
      [generateSequenceMessages], [processSingleSequenceCampaign];
    - [services/leadFiltering.js]: [buildWhereClause], [getFilteredLeads],
      [getLeadsForCampaign];
    - [services/smsService.js], [services/emailService.js]: [sendSMS],
      [sendEmail], [sendWithRetry];
    - [workers/messageWorker.js]: the counters, [processMessages],
      [processCampaign], [healthCheck].

    The relational store is a record of row lists; every SQL statement of the
    services is a function on that record.  An SQL comparison with NULL is
    not true, so a nullable column is an [option] and a comparison on [None]
    fails.  Asynchronous code is modelled in the order of its awaits, one
    call at a time. *)

From Stdlib Require Import ZArith List String Bool Lia Arith.
From Stdlib Require Import Sorting.Sorted Sorting.Permutation.
Import ListNotations.

Local Open Scope string_scope.
Local Open Scope list_scope.
Local Open Scope Z_scope.

(* ===================================================================== *)
(** ** Errors and the result type                                        *)
(* ===================================================================== *)

(** The [Error] values thrown by the services (their messages in comments). *)
Inductive error : Type :=
| LeadNotFound                 (* 'Lead not found' *)
| MissingRegistrationDate      (* 'Lead must have a registration date for sequence campaigns' *)
| CampaignNotFound             (* 'Campaign not found' *)
| CampaignNotFoundOrInactive   (* 'Campaign not found or inactive' *)
| TemplateNotFound             (* 'Template not found or inactive' *)
| NoContact                    (* 'No ${template.type} contact available for lead' *)
| MessageNotFound              (* 'Message not found' *)
| NotSmsType                   (* 'Message is not SMS type' *)
| NotEmailType                 (* 'Message is not email type' *)
| NoRecipientPhone             (* 'No recipient phone number' *)
| NoRecipientEmail             (* 'No recipient email address' *)
| SubjectRequired              (* 'Email subject is required' *)
| ProviderNotConfigured        (* 'SendGrid API key not configured. ...' *)
| CheckViolation               (* the store rejects a row: CHECK constraint violated *)
| ProviderError (code : option Z) (msg : string).

Inductive result (A : Type) : Type :=
| Ok (a : A)
| Err (e : error).
Arguments Ok {A} a.
Arguments Err {A} e.

Definition bind {A B : Type} (r : result A) (k : A -> result B) : result B :=
  match r with
  | Ok a => k a
  | Err e => Err e
  end.

Declare Scope result_scope.
Delimit Scope result_scope with result.
Notation "x <- c ;; k" := (bind c (fun x => k))
  (at level 100, c at next level, right associativity) : result_scope.
Local Open Scope result_scope.

Definition is_ok {A : Type} (r : result A) : bool :=
  match r with Ok _ => true | Err _ => false end.

(* ===================================================================== *)
(** ** Clock                                                             *)
(* ===================================================================== *)

(** Instants are milliseconds since the epoch, as [Date.getTime()] gives
    them; DATE columns are day numbers.  The process and the database run in
    one zone with days of fixed length (UTC). *)
Module Clock.

Definition MS_PER_HOUR : Z := 1000 * 60 * 60.
Definition MS_PER_DAY : Z := 1000 * 60 * 60 * 24.

(** [new Date(lead.registration_date)]: midnight of a DATE. *)
Definition date_to_ms (d : Z) : Z := d * MS_PER_DAY.

(** SQL [CURRENT_DATE] and [DATE(ts)]. *)
Definition DATE (ts : Z) : Z := ts / MS_PER_DAY.

(** SQL [DATE_TRUNC('hour', ts)] and [DATE_TRUNC('day', ts)]. *)
Definition DATE_TRUNC_hour (ts : Z) : Z := (ts / MS_PER_HOUR) * MS_PER_HOUR.
Definition DATE_TRUNC_day (ts : Z) : Z := (ts / MS_PER_DAY) * MS_PER_DAY.

(** [Date.prototype.getHours]. *)
Definition getHours (ts : Z) : Z := (ts / MS_PER_HOUR) mod 24.

(** [Date.prototype.getDate]: the day of the month, by the civil-calendar
    conversion of a day number. *)
Definition getDate (ts : Z) : Z :=
  let z := DATE ts + 719468 in
  let era := z / 146097 in
  let doe := z - era * 146097 in
  let yoe := (doe - doe / 1460 + doe / 36524 - doe / 146096) / 365 in
  let doy := doe - (365 * yoe + yoe / 4 - yoe / 100) in
  let mp := (5 * doy + 2) / 153 in
  doy - (153 * mp + 2) / 5 + 1.

End Clock.

(* ===================================================================== *)
(** ** Schema                                                            *)
(* ===================================================================== *)

(** UUID keys are opaque; they are compared for equality only. *)
Definition uuid := Z.

(** [messages.message_type], [message_templates.type]:
    CHECK (... IN ('sms', 'email')). *)
Inductive channel : Type := SMS | EMAIL.

(** Every value the services write to or read from [messages.status]. *)
Inductive status : Type :=
| pending | sending | sent | delivered | failed | bounced | opted_out.

Definition status_eqb (a b : status) : bool :=
  match a, b with
  | pending, pending | sending, sending | sent, sent
  | delivered, delivered | failed, failed | bounced, bounced
  | opted_out, opted_out => true
  | _, _ => false
  end.

(** CONSTRAINT messages_status_check CHECK (status IN
    ('pending', 'sent', 'delivered', 'failed', 'bounced', 'opted_out')). *)
Definition messages_status_check (s : status) : bool :=
  match s with
  | pending | sent | delivered | failed | bounced | opted_out => true
  | sending => false
  end.

(** CONSTRAINT opt_outs_type_check CHECK (opt_out_type IN ('sms','email','all')). *)
Inductive opt_out_type : Type := OptSms | OptEmail | OptAll.

Record lead : Type := mkLead {
  lead_id : uuid;
  company_name : string;
  lead_state : string;
  business_type : option string;
  industry : option string;
  registration_date : option Z;          (* DATE, nullable *)
  lead_status : string;
  phone : option string;
  email : option string;
  employee_count_estimate : option Z;
  revenue_estimate : option Z;
  import_date : Z
}.

Record message : Type := mkMessage {
  msg_id : uuid;
  msg_lead_id : uuid;
  message_type : channel;
  template_name : string;
  recipient_phone : option string;
  recipient_email : option string;
  subject : option string;
  msg_status : status;
  sent_at : option Z;
  failed_at : option Z;
  failure_reason : option string;
  provider_message_id : option string;
  campaign_id : option uuid;
  created_at : Z;
  updated_at : Z
}.

Record message_template : Type := mkTemplate {
  tpl_id : uuid;
  tpl_name : string;
  tpl_type : channel;
  tpl_subject : option string;
  is_active_tpl : bool
}.

Record opt_out : Type := mkOptOut {
  oo_phone : option string;
  oo_email : option string;
  oo_lead_id : option uuid;
  oo_type : opt_out_type
}.

Record campaign : Type := mkCampaign {
  camp_id : uuid;
  camp_name : string;
  camp_message_type : string;
  template_id : option uuid;
  target_states : option (list string);
  target_business_types : option (list string);
  target_industries : option (list string);
  min_registration_date : option Z;
  max_registration_date : option Z;
  daily_limit : Z;
  hourly_limit : Z;
  is_active : bool;
  total_targeted : Z
}.

(** The record store.  [next_uuid] stands for [uuid_generate_v4()]: the key
    the next inserted message receives. *)
Record store : Type := mkStore {
  leads : list lead;
  campaigns : list campaign;
  message_templates : list message_template;
  opt_outs : list opt_out;
  messages : list message;
  next_uuid : uuid
}.

Definition with_messages (st : store) (ms : list message) : store :=
  mkStore (leads st) (campaigns st) (message_templates st) (opt_outs st)
          ms (next_uuid st).

(** [a = b] in SQL on nullable operands: true only when both are present. *)
Definition sql_eq_str (a b : option string) : bool :=
  match a, b with
  | Some x, Some y => String.eqb x y
  | _, _ => false
  end.

Definition sql_eq_id (a : option uuid) (b : uuid) : bool :=
  match a with
  | Some x => Z.eqb x b
  | None => false
  end.

(** A JavaScript string is falsy when it is null or empty. *)
Definition truthy (s : option string) : bool :=
  match s with
  | Some x => negb (String.eqb x "")
  | None => false
  end.

(* ===================================================================== *)
(** ** services/messageGeneration.js                                     *)
(* ===================================================================== *)

Module MessageGeneration.

(** The fields of [messageData] that reach the INSERT.  The rendering of
    [content] by [replaceVariables] is not part of the model. *)
Record messageData : Type := mkMessageData {
  md_leadId : uuid;
  md_messageType : channel;
  md_templateName : string;
  md_contact : string;
  md_subject : option string
}.

(** [getRecipient(lead, messageType).contact]. *)
Definition getRecipient (l : lead) (t : channel) : option string :=
  match t with
  | SMS => phone l
  | EMAIL => email l
  end.

Definition find_lead (st : store) (leadId : uuid) : option lead :=
  find (fun l => Z.eqb (lead_id l) leadId) (leads st).

Definition find_campaign (st : store) (campaignId : uuid) : option campaign :=
  find (fun c => Z.eqb (camp_id c) campaignId) (campaigns st).

(** SELECT * FROM message_templates WHERE name = $1 AND is_active = true. *)
Definition find_active_template (st : store) (name : string)
  : option message_template :=
  find (fun t => String.eqb (tpl_name t) name && is_active_tpl t)
       (message_templates st).

Definition generateMessage (st : store) (leadId : uuid) (templateName : string)
  : result messageData :=
  match find_lead st leadId with
  | None => Err LeadNotFound
  | Some l =>
    match find_active_template st templateName with
    | None => Err TemplateNotFound
    | Some t =>
      match getRecipient l (tpl_type t) with
      | Some contact =>
        if String.eqb contact "" then Err NoContact
        else Ok (mkMessageData leadId (tpl_type t) templateName contact
                               (tpl_subject t))
      | None => Err NoContact
      end
    end
  end.

(** [getCampaignTemplateName(campaign)]. *)
Definition getCampaignTemplateName (st : store) (c : campaign) : string :=
  let fallback :=
    if String.eqb (camp_message_type c) "sms"
    then "llc_welcome_sms" else "llc_welcome_email" in
  match template_id c with
  | Some tid =>
    match find (fun t => Z.eqb (tpl_id t) tid) (message_templates st) with
    | Some t => tpl_name t
    | None => fallback
    end
  | None => fallback
  end.

(** The row of INSERT INTO messages (...) VALUES (..., 'pending'). *)
Definition new_message (id : uuid) (now : Z) (campaignId : uuid)
           (md : messageData) : message :=
  mkMessage id (md_leadId md) (md_messageType md) (md_templateName md)
    (match md_messageType md with SMS => Some (md_contact md) | EMAIL => None end)
    (match md_messageType md with EMAIL => Some (md_contact md) | SMS => None end)
    (md_subject md) pending None None None None (Some campaignId) now now.

(** The store accepts the row when the CHECK constraint on its status holds
    (its type is one of [channel], its lead has just been read); the
    messages table has no UNIQUE constraint but its primary key. *)
Definition insert_message (st : store) (m : message) : result store :=
  if messages_status_check (msg_status m)
  then Ok (mkStore (leads st) (campaigns st) (message_templates st)
                   (opt_outs st) (messages st ++ [m]) (next_uuid st + 1))
  else Err CheckViolation.

(** [createCampaignMessage(leadId, campaignId, templateName = null)]:
    the new store and ([messageId], [messageData]). *)
Definition createCampaignMessage (st : store) (now : Z) (leadId campaignId : uuid)
           (templateName : option string)
  : result (store * (uuid * messageData)) :=
  match find_campaign st campaignId with
  | None => Err CampaignNotFound
  | Some c =>
    let finalTemplateName :=
      if truthy templateName
      then match templateName with Some t => t | None => "" end
      else getCampaignTemplateName st c in
    md <- generateMessage st leadId finalTemplateName ;;
    st' <- insert_message st (new_message (next_uuid st) now campaignId md) ;;
    Ok (st', (next_uuid st, md))
  end.

End MessageGeneration.

(* ===================================================================== *)
(** ** services/sequenceCampaign.js: sequence generation                 *)
(* ===================================================================== *)

Module SequenceCampaign.

Import MessageGeneration.

Record step : Type := mkStep {
  day : Z;
  name : string;
  smsTemplate : string;
  emailTemplate : string
}.

Definition llcSequence : list step :=
  [ mkStep 1 "EIN / Tax ID" "llc_day1_ein_sms" "llc_day1_ein_email";
    mkStep 3 "Business Banking" "llc_day3_banking_sms" "llc_day3_banking_email";
    mkStep 7 "Accounting / Bookkeeping"
           "llc_day7_accounting_sms" "llc_day7_accounting_email";
    mkStep 10 "Registered Agent / Compliance"
           "llc_day10_compliance_sms" "llc_day10_compliance_email";
    mkStep 15 "Business Insurance"
           "llc_day15_insurance_sms" "llc_day15_insurance_email" ].

(** [messageType === 'sms' ? step.smsTemplate : step.emailTemplate]. *)
Definition stepTemplate (messageType : string) (s : step) : string :=
  if String.eqb messageType "sms" then smsTemplate s else emailTemplate s.

(** [scheduledDate]: the registration date moved on by [step.day] days. *)
Definition scheduledDate (registrationDate : Z) (s : step) : Z :=
  Clock.date_to_ms (registrationDate + day s).

(** WHERE lead_id = $1 AND campaign_id = $2 AND template_name = $3. *)
Definition key_matches (leadId campaignId : uuid) (templateName : string)
           (m : message) : bool :=
  Z.eqb (msg_lead_id m) leadId
  && sql_eq_id (campaign_id m) campaignId
  && String.eqb (template_name m) templateName.

Definition existing (st : store) (leadId campaignId : uuid)
           (templateName : string) : list message :=
  filter (key_matches leadId campaignId templateName) (messages st).

Record generated : Type := mkGenerated {
  g_step : string;
  g_day : Z;
  g_messageId : uuid;
  g_templateName : string;
  g_scheduledDate : Z
}.

Record sequenceResult : Type := mkSequenceResult {
  r_leadId : uuid;
  r_campaignId : uuid;
  daysSinceRegistration : Z;
  generatedMessages : list generated;
  totalSteps : Z
}.

(** The body of [for (const step of this.llcSequence)]: the store and the
    [generatedMessages] array are carried from one step to the next. *)
Fixpoint sequence_loop (now registrationDate : Z) (leadId campaignId : uuid)
         (messageType : string) (steps : list step)
         (st : store) (acc : list generated) : store * list generated :=
  match steps with
  | [] => (st, acc)
  | s :: rest =>
    let continue_ := sequence_loop now registrationDate leadId campaignId
                                   messageType rest in
    if now <? scheduledDate registrationDate s then continue_ st acc
    else
      match existing st leadId campaignId (stepTemplate messageType s) with
      | _ :: _ => continue_ st acc
      | [] =>
        let templateName := stepTemplate messageType s in
        match createCampaignMessage st now leadId campaignId (Some templateName) with
        | Ok (st', (messageId, _)) =>
          continue_ st' (acc ++ [mkGenerated (name s) (day s) messageId templateName
                                             (scheduledDate registrationDate s)])
        | Err _ => continue_ st acc          (* logged, the loop goes on *)
        end
      end
  end.

Definition generateSequenceMessages (st : store) (now : Z)
           (leadId campaignId : uuid) (messageType : string)
  : result (store * sequenceResult) :=
  match find_lead st leadId with
  | None => Err LeadNotFound
  | Some l =>
    match registration_date l with
    | None => Err MissingRegistrationDate
    | Some d =>
      let '(st', gen) :=
        sequence_loop now d leadId campaignId messageType llcSequence st [] in
      Ok (st', mkSequenceResult leadId campaignId
                 ((now - Clock.date_to_ms d) / Clock.MS_PER_DAY)
                 gen (Z.of_nat (List.length llcSequence)))
    end
  end.

End SequenceCampaign.

(* ===================================================================== *)
(** ** Ordering rows: ORDER BY                                           *)
(* ===================================================================== *)

Section OrderBy.

Variable A : Type.
Variable leb : A -> A -> bool.

Fixpoint insert_sorted (x : A) (l : list A) : list A :=
  match l with
  | [] => [x]
  | y :: l' => if leb x y then x :: y :: l' else y :: insert_sorted x l'
  end.

(** ORDER BY: an insertion sort; rows that compare equal keep the order of
    the table, a choice SQL leaves open. *)
Definition order_by (l : list A) : list A :=
  fold_right insert_sorted [] l.

End OrderBy.

Arguments insert_sorted {A} leb x l.
Arguments order_by {A} leb l.

(** LIMIT n OFFSET k. *)
Definition limit_offset {A : Type} (limit offset : Z) (l : list A) : list A :=
  firstn (Z.to_nat limit) (skipn (Z.to_nat offset) l).

(* ===================================================================== *)
(** ** services/leadFiltering.js                                         *)
(* ===================================================================== *)

Module LeadFiltering.

(** The [filters] object.  A property with a default is [None] when the
    caller leaves it out; [minRegistrationDays] and [maxRegistrationDays]
    can also be passed as [undefined] ([Some None]), which the spread
    [{ ...this.defaultFilters, ...filters }] copies over the default. *)
Record filters : Type := mkFilters {
  f_status : option (list string);
  f_excludeOptedOut : option bool;
  f_minRegistrationDays : option (option Z);
  f_maxRegistrationDays : option (option Z);
  f_requireContact : option bool;
  f_states : option (list string);
  f_businessTypes : option (list string);
  f_industries : option (list string);
  f_registrationDateFrom : option Z;
  f_registrationDateTo : option Z;
  f_minEmployees : option Z;
  f_maxEmployees : option Z;
  f_minRevenue : option Z;
  f_maxRevenue : option Z;
  f_requirePhone : bool;
  f_requireEmail : bool;
  f_excludeContacted : bool;
  f_contactedWithinDays : option Z;
  f_excludeCampaigns : list uuid;
  f_companyNameSearch : option string
}.

(** [{}]. *)
Definition no_filters : filters :=
  mkFilters None None None None None None None None None None None None
            None None false false false None [] None.

(** [this.defaultFilters]. *)
Definition default_status : list string := ["active"].
Definition default_excludeOptedOut : bool := true.
Definition default_minRegistrationDays : option Z := Some 1.
Definition default_maxRegistrationDays : option Z := Some 365.
Definition default_requireContact : bool := true.

Definition merged {A : Type} (dflt : A) (given : option A) : A :=
  match given with
  | Some a => a
  | None => dflt
  end.

Definition in_strings (x : string) (l : list string) : bool :=
  existsb (String.eqb x) l.

(** [col IN (...)] on a nullable column. *)
Definition sql_in (x : option string) (l : list string) : bool :=
  match x with
  | Some v => in_strings v l
  | None => false
  end.

(** A condition that is pushed only when the list is present and not empty. *)
Definition when_listed (l : option (list string)) (c : list string -> bool) : bool :=
  match l with
  | Some (x :: r) => c (x :: r)
  | _ => true
  end.

(** A condition that is pushed only when the bound is given; it compares a
    nullable column. *)
Definition when_given (b : option Z) (col : option Z) (cmp : Z -> Z -> bool) : bool :=
  match b with
  | Some v => match col with Some x => cmp x v | None => false end
  | None => true
  end.

(** The sub-select of the opt-out exclusion:
    (o.phone = l.phone AND o.opt_out_type IN ('sms', 'all'))
    OR (o.email = l.email AND o.opt_out_type IN ('email', 'all'))
    OR o.lead_id = l.id. *)
Definition opt_out_matches (l : lead) (o : opt_out) : bool :=
  (sql_eq_str (oo_phone o) (phone l)
     && match oo_type o with OptSms | OptAll => true | OptEmail => false end)
  || (sql_eq_str (oo_email o) (email l)
     && match oo_type o with OptEmail | OptAll => true | OptSms => false end)
  || sql_eq_id (oo_lead_id o) (lead_id l).

Definition opted_out (st : store) (l : lead) : bool :=
  existsb (opt_out_matches l) (opt_outs st).

(** m.lead_id = l.id AND m.status IN ('sent', 'delivered')
    AND m.sent_at >= CURRENT_DATE - INTERVAL 'n days'. *)
Definition contacted_within (st : store) (today days : Z) (l : lead) : bool :=
  existsb (fun m =>
             Z.eqb (msg_lead_id m) (lead_id l)
             && (status_eqb (msg_status m) sent || status_eqb (msg_status m) delivered)
             && match sent_at m with
                | Some t => Clock.date_to_ms (today - days) <=? t
                | None => false
                end)
          (messages st).

(** m.lead_id = l.id AND m.campaign_id IN (...). *)
Definition in_campaigns (st : store) (cs : list uuid) (l : lead) : bool :=
  existsb (fun m =>
             Z.eqb (msg_lead_id m) (lead_id l)
             && existsb (sql_eq_id (campaign_id m)) cs)
          (messages st).

Section WhereClause.

(** [x ILIKE '%s%']: the pattern match of the database. *)
Variable ilike_contains : string -> string -> bool.

(** [buildWhereClause(filters)]: the conjunction of the pushed conditions,
    evaluated on a row of [leads]; [now] is CURRENT_TIMESTAMP. *)
Definition buildWhereClause (st : store) (now : Z) (f : filters) (l : lead) : bool :=
  let today := Clock.DATE now in
  when_listed (Some (merged default_status (f_status f)))
              (in_strings (lead_status l))
  && when_listed (f_states f) (in_strings (lead_state l))
  && when_listed (f_businessTypes f) (sql_in (business_type l))
  && when_listed (f_industries f) (sql_in (industry l))
  && when_given (merged default_minRegistrationDays (f_minRegistrationDays f))
                (registration_date l) (fun reg n => today - n <=? reg)
  && when_given (merged default_maxRegistrationDays (f_maxRegistrationDays f))
                (registration_date l) (fun reg n => reg <=? today - n)
  && when_given (f_registrationDateFrom f) (registration_date l) Z.geb
  && when_given (f_registrationDateTo f) (registration_date l) Z.leb
  && when_given (f_minEmployees f) (employee_count_estimate l) Z.geb
  && when_given (f_maxEmployees f) (employee_count_estimate l) Z.leb
  && when_given (f_minRevenue f) (revenue_estimate l) Z.geb
  && when_given (f_maxRevenue f) (revenue_estimate l) Z.leb
  && (if merged default_requireContact (f_requireContact f)
      then match phone l, email l with None, None => false | _, _ => true end
      else true)
  && (if f_requirePhone f
      then match phone l with Some _ => true | None => false end else true)
  && (if f_requireEmail f
      then match email l with Some _ => true | None => false end else true)
  && (if merged default_excludeOptedOut (f_excludeOptedOut f)
      then negb (opted_out st l) else true)
  && (if f_excludeContacted f
      then negb (contacted_within st today
                   (match f_contactedWithinDays f with
                    | Some d => if Z.eqb d 0 then 30 else d
                    | None => 30
                    end) l)
      else true)
  && match f_excludeCampaigns f with
     | [] => true
     | cs => negb (in_campaigns st cs l)
     end
  && match f_companyNameSearch f with
     | Some s => if String.eqb s "" then true
                 else ilike_contains (company_name l) s
     | None => true
     end.

(** The [options] object of [getFilteredLeads]; a property left out
    takes the default of the destructuring. *)
Record options : Type := mkOptions {
  o_limit : option Z;
  o_offset : option Z;
  o_orderBy : option string;
  o_orderDirection : option string
}.

Definition no_options : options := mkOptions None None None None.

Inductive order_column : Type :=
| ByRegistrationDate | ByCompanyName | ByState | ByImportDate.

(** [allowedOrderBy.includes(orderBy) ? orderBy : 'registration_date']. *)
Definition safeOrderBy (orderBy : string) : order_column :=
  if String.eqb orderBy "company_name" then ByCompanyName
  else if String.eqb orderBy "state" then ByState
  else if String.eqb orderBy "import_date" then ByImportDate
  else ByRegistrationDate.

Definition toUpperCase_ascii (c : Ascii.ascii) : Ascii.ascii :=
  let n := Ascii.nat_of_ascii c in
  if (97 <=? n)%nat && (n <=? 122)%nat
  then Ascii.ascii_of_nat (n - 32) else c.

(** [String.prototype.toUpperCase] on ASCII text. *)
Fixpoint toUpperCase (s : string) : string :=
  match s with
  | EmptyString => EmptyString
  | String c r => String (toUpperCase_ascii c) (toUpperCase r)
  end.

(** [orderDirection.toUpperCase() === 'ASC' ? 'ASC' : 'DESC']. *)
Definition safeDirection_is_ASC (orderDirection : string) : bool :=
  String.eqb (toUpperCase orderDirection) "ASC".

(** Ascending order of a nullable DATE: NULL sorts after every date. *)
Definition nulls_last_leb (a b : option Z) : bool :=
  match a, b with
  | Some x, Some y => x <=? y
  | Some _, None => true
  | None, Some _ => false
  | None, None => true
  end.

(** Ascending order on the chosen column (text in byte order). *)
Definition column_leb (c : order_column) (a b : lead) : bool :=
  match c with
  | ByRegistrationDate => nulls_last_leb (registration_date a) (registration_date b)
  | ByCompanyName => String.leb (company_name a) (company_name b)
  | ByState => String.leb (lead_state a) (lead_state b)
  | ByImportDate => import_date a <=? import_date b
  end.

(** ORDER BY l.${safeOrderBy} ${safeDirection}. *)
Definition order_leb (c : order_column) (asc : bool) (a b : lead) : bool :=
  if asc then column_leb c a b else column_leb c b a.

Record filteredLeads : Type := mkFilteredLeads {
  fl_leads : list lead;
  fl_total : Z
}.

(** [getFilteredLeads(filters, options)]: the selected page and the
    total of the count query (the derived page numbers are left out). *)
Definition getFilteredLeads (st : store) (now : Z) (f : filters) (o : options)
  : filteredLeads :=
  let limit := merged 100 (o_limit o) in
  let offset := merged 0 (o_offset o) in
  let orderBy := merged "registration_date" (o_orderBy o) in
  let orderDirection := merged "DESC" (o_orderDirection o) in
  let rows := filter (buildWhereClause st now f) (leads st) in
  mkFilteredLeads
    (limit_offset limit offset
       (order_by (order_leb (safeOrderBy orderBy)
                            (safeDirection_is_ASC orderDirection)) rows))
    (Z.of_nat (List.length rows)).

Definition nonempty (l : option (list string)) : option (list string) :=
  match l with
  | Some (x :: r) => Some (x :: r)
  | _ => None
  end.

(** The filters [getLeadsForCampaign] builds from the campaign row. *)
Definition campaign_filters (c : campaign) (campaignId : uuid) : filters :=
  mkFilters (Some ["active"]) (Some true) None None None
            (nonempty (target_states c))
            (nonempty (target_business_types c))
            (nonempty (target_industries c))
            (min_registration_date c) (max_registration_date c)
            None None None None
            (String.eqb (camp_message_type c) "sms")
            (negb (String.eqb (camp_message_type c) "sms")
             && String.eqb (camp_message_type c) "email")
            true (Some 30) [campaignId] None.

(** [getLeadsForCampaign(campaignId, limit)]. *)
Definition getLeadsForCampaign (st : store) (now : Z) (campaignId : uuid)
           (limit : Z) : result filteredLeads :=
  match find (fun c => Z.eqb (camp_id c) campaignId && is_active c)
             (campaigns st) with
  | None => Err CampaignNotFoundOrInactive
  | Some c =>
    Ok (getFilteredLeads st now (campaign_filters c campaignId)
          (mkOptions (Some limit) None (Some "registration_date") (Some "ASC")))
  end.

End WhereClause.

End LeadFiltering.

(* ===================================================================== *)
(** ** services/sequenceCampaign.js: processing a sequence campaign      *)
(* ===================================================================== *)

Module SequenceProcessing.

Import SequenceCampaign.

(** The WHERE clause of [leadsQuery] in [processSingleSequenceCampaign]. *)
Definition leadsQuery_where (st : store) (now : Z) (c : campaign) (l : lead) : bool :=
  String.eqb (lead_status l) "active"
  && match registration_date l with
     | Some reg => Clock.DATE now - 30 <=? reg
     | None => false
     end
  && match target_states c with
     | Some states => LeadFiltering.in_strings (lead_state l) states
     | None => true
     end
  && (if String.eqb (camp_message_type c) "sms"
      then match phone l with Some _ => true | None => false end else true)
  && (if String.eqb (camp_message_type c) "email"
      then match email l with Some _ => true | None => false end else true)
  && negb (LeadFiltering.opted_out st l).

(** ... ORDER BY l.registration_date ASC LIMIT $n. *)
Definition leadsQuery (st : store) (now : Z) (c : campaign) (limit : Z) : list lead :=
  limit_offset limit 0
    (order_by (LeadFiltering.order_leb LeadFiltering.ByRegistrationDate true)
              (filter (leadsQuery_where st now c) (leads st))).

(** [for (const lead of leads)]: the store and [processed] are carried on. *)
Fixpoint process_leads (now : Z) (c : campaign) (ls : list lead)
         (st : store) (processed : Z) : store * Z :=
  match ls with
  | [] => (st, processed)
  | l :: rest =>
    match generateSequenceMessages st now (lead_id l) (camp_id c)
                                   (camp_message_type c) with
    | Ok (st', r) =>
      process_leads now c rest st'
        (match generatedMessages r with
         | _ :: _ => processed + 1
         | [] => processed
         end)
    | Err _ => process_leads now c rest st processed      (* logged *)
    end
  end.

(** [processSingleSequenceCampaign(campaign, limit = 100)]. *)
Definition processSingleSequenceCampaign (st : store) (now : Z) (c : campaign)
           (limit : Z) : store * Z :=
  process_leads now c (leadsQuery st now c limit) st 0.

End SequenceProcessing.

(* ===================================================================== *)
(** ** Delivery providers                                                *)
(* ===================================================================== *)

(** One answer of a provider to a send request. *)
Inductive provider_outcome : Type :=
| Accepted (provider_id : string)
| Rejected (code : option Z) (msg : string).

(** A provider is the sequence of its answers; [calls] counts the requests
    made so far and selects the next answer. *)
Definition provider := nat -> provider_outcome.

(** Modelled from the spec: [query] of [database/connection.js], the query
    primitive of the record store, is not among the sources.  It runs one SQL
    statement on the store and rejects when the store rejects the statement,
    as the [catch] blocks of all its callers presuppose.  For
    UPDATE messages SET ... WHERE ...: the statement fails as a whole when an
    updated row violates the status constraint of the store. *)
Definition update_messages (status_check : status -> bool)
           (sel : message -> bool) (upd : message -> message)
           (ms : list message) : result (list message) :=
  if forallb (fun m => implb (sel m) (status_check (msg_status (upd m)))) ms
  then Ok (map (fun m => if sel m then upd m else m) ms)
  else Err CheckViolation.

Definition set_status (s : status) (now : Z) (m : message) : message :=
  mkMessage (msg_id m) (msg_lead_id m) (message_type m) (template_name m)
    (recipient_phone m) (recipient_email m) (subject m) s
    (sent_at m) (failed_at m) (failure_reason m) (provider_message_id m)
    (campaign_id m) (created_at m) now.

(** SET status = 'sent', sent_at = CURRENT_TIMESTAMP, provider_message_id = $1. *)
Definition set_sent (pid : string) (now : Z) (m : message) : message :=
  mkMessage (msg_id m) (msg_lead_id m) (message_type m) (template_name m)
    (recipient_phone m) (recipient_email m) (subject m) sent
    (Some now) (failed_at m) (failure_reason m) (Some pid)
    (campaign_id m) (created_at m) now.

(** SET status = 'failed', failed_at = CURRENT_TIMESTAMP, failure_reason = $1. *)
Definition set_failed (reason : string) (now : Z) (m : message) : message :=
  mkMessage (msg_id m) (msg_lead_id m) (message_type m) (template_name m)
    (recipient_phone m) (recipient_email m) (subject m) failed
    (sent_at m) (Some now) (Some reason) (provider_message_id m)
    (campaign_id m) (created_at m) now.

Definition has_id (id : uuid) (m : message) : bool := Z.eqb (msg_id m) id.

(** [err.message]. *)
Definition error_message (e : error) : string :=
  match e with
  | MessageNotFound => "Message not found"
  | LeadNotFound => "Lead not found"
  | MissingRegistrationDate =>
    "Lead must have a registration date for sequence campaigns"
  | CampaignNotFound => "Campaign not found"
  | CampaignNotFoundOrInactive => "Campaign not found or inactive"
  | TemplateNotFound => "Template not found or inactive"
  | NoContact => "No contact available for lead"
  | NotSmsType => "Message is not SMS type"
  | NotEmailType => "Message is not email type"
  | NoRecipientPhone => "No recipient phone number"
  | NoRecipientEmail => "No recipient email address"
  | SubjectRequired => "Email subject is required"
  | ProviderNotConfigured =>
    "SendGrid API key not configured. Email functionality is disabled."
  | CheckViolation => "violates check constraint messages_status_check"
  | ProviderError _ msg => msg
  end.

(** What [sendSMS] and [sendEmail] return. *)
Record sendResult : Type := mkSendResult {
  success : bool;
  sr_error : option error
}.

(* ===================================================================== *)
(** ** services/smsService.js                                            *)
(* ===================================================================== *)

Module SMSService.

Definition maxRetries : nat := 3.

(** [sendWithRetry(smsData, attempt)], by recursion on
    [maxRetries - attempt], the retries left: [attempt < this.maxRetries]
    holds exactly when that number is positive.  The result comes with the
    new count of requests. *)
Fixpoint sendWithRetry_left (left : nat) (p : provider) (calls : nat)
  : result string * nat :=
  match p calls with
  | Accepted pid => (Ok pid, S calls)
  | Rejected code msg =>
    match left with
    | S left' => sendWithRetry_left left' p (S calls)
    | O => (Err (ProviderError code msg), S calls)
    end
  end.

Definition sendWithRetry (p : provider) (calls : nat) (attempt : nat)
  : result string * nat :=
  sendWithRetry_left (maxRetries - attempt) p calls.

Section Send.

Variable status_check : status -> bool.
Variable p : provider.

(** The [try] block of [sendSMS]: the table and the request count as they
    are when the block ends, and how it ends. *)
Definition sendSMS_try (now : Z) (ms : list message) (calls : nat) (messageId : uuid)
  : list message * nat * result string :=
  match find (has_id messageId) ms with
  | None => (ms, calls, Err MessageNotFound)
  | Some m =>
    match message_type m with
    | EMAIL => (ms, calls, Err NotSmsType)
    | SMS =>
      if negb (truthy (recipient_phone m)) then (ms, calls, Err NoRecipientPhone)
      else
        match update_messages status_check (has_id messageId)
                              (set_status sending now) ms with
        | Err e => (ms, calls, Err e)
        | Ok ms1 =>
          match sendWithRetry p calls 1 with
          | (Err e, calls') => (ms1, calls', Err e)
          | (Ok pid, calls') =>
            match update_messages status_check (has_id messageId)
                                  (set_sent pid now) ms1 with
            | Err e => (ms1, calls', Err e)
            | Ok ms2 => (ms2, calls', Ok pid)
            end
          end
        end
    end
  end.

(** [sendSMS(messageId)]: the [catch] block records the failure; when its
    own UPDATE is rejected the call throws ([Err]). *)
Definition sendSMS (now : Z) (ms : list message) (calls : nat) (messageId : uuid)
  : list message * nat * result sendResult :=
  match sendSMS_try now ms calls messageId with
  | (ms1, calls', Ok _) => (ms1, calls', Ok (mkSendResult true None))
  | (ms1, calls', Err e) =>
    match update_messages status_check (has_id messageId)
                          (set_failed (error_message e) now) ms1 with
    | Ok ms2 => (ms2, calls', Ok (mkSendResult false (Some e)))
    | Err e' => (ms1, calls', Err e')
    end
  end.

End Send.

End SMSService.

(* ===================================================================== *)
(** ** services/emailService.js                                          *)
(* ===================================================================== *)

Module EmailService.

Definition maxRetries : nat := 3.

(** [isRetryableError(err)] on [err.code]. *)
Definition isRetryableError (code : option Z) : bool :=
  match code with
  | None => false
  | Some c =>
    if Z.eqb c 0 then false
    else existsb (Z.eqb c) [429; 500; 502; 503; 504]
  end.

(** [sendWithRetry(emailData, attempt)], by recursion on
    [maxRetries - attempt] as for SMS. *)
Fixpoint sendWithRetry_left (left : nat) (p : provider) (calls : nat)
  : result string * nat :=
  match p calls with
  | Accepted pid => (Ok pid, S calls)
  | Rejected code msg =>
    match left with
    | S left' =>
      if isRetryableError code then sendWithRetry_left left' p (S calls)
      else (Err (ProviderError code msg), S calls)
    | O => (Err (ProviderError code msg), S calls)
    end
  end.

Definition sendWithRetry (p : provider) (calls : nat) (attempt : nat)
  : result string * nat :=
  sendWithRetry_left (maxRetries - attempt) p calls.

Section Send.

Variable status_check : status -> bool.
Variable p : provider.
(** [this.apiKey && this.apiKey.startsWith('SG.')]. *)
Variable configured : bool.

Definition sendEmail_try (now : Z) (ms : list message) (calls : nat) (messageId : uuid)
  : list message * nat * result string :=
  if negb configured then (ms, calls, Err ProviderNotConfigured)
  else
    match find (has_id messageId) ms with
    | None => (ms, calls, Err MessageNotFound)
    | Some m =>
      match message_type m with
      | SMS => (ms, calls, Err NotEmailType)
      | EMAIL =>
        if negb (truthy (recipient_email m)) then (ms, calls, Err NoRecipientEmail)
        else if negb (truthy (subject m)) then (ms, calls, Err SubjectRequired)
        else
          match update_messages status_check (has_id messageId)
                                (set_status sending now) ms with
          | Err e => (ms, calls, Err e)
          | Ok ms1 =>
            match sendWithRetry p calls 1 with
            | (Err e, calls') => (ms1, calls', Err e)
            | (Ok pid, calls') =>
              match update_messages status_check (has_id messageId)
                                    (set_sent pid now) ms1 with
              | Err e => (ms1, calls', Err e)
              | Ok ms2 => (ms2, calls', Ok pid)
              end
            end
          end
      end
    end.

Definition sendEmail (now : Z) (ms : list message) (calls : nat) (messageId : uuid)
  : list message * nat * result sendResult :=
  match sendEmail_try now ms calls messageId with
  | (ms1, calls', Ok _) => (ms1, calls', Ok (mkSendResult true None))
  | (ms1, calls', Err e) =>
    match update_messages status_check (has_id messageId)
                          (set_failed (error_message e) now) ms1 with
    | Ok ms2 => (ms2, calls', Ok (mkSendResult false (Some e)))
    | Err e' => (ms1, calls', Err e')
    end
  end.

End Send.

End EmailService.

(* ===================================================================== *)
(** ** workers/messageWorker.js                                          *)
(* ===================================================================== *)

Module MessageWorker.

Record settings : Type := mkSettings {
  dailyLimit : Z;
  hourlyLimit : Z;
  messageDelay : Z;
  batchSize : Z;
  autoCampaignEnabled : bool
}.

Definition default_settings : settings := mkSettings 1000 100 5000 10 true.

(** The fields of the worker object. *)
Record worker : Type := mkWorker {
  isRunning : bool;
  dailyMessageCount : Z;
  hourlyMessageCount : Z;
  lastHourReset : Z;
  lastDayReset : Z;
  w_settings : settings
}.

(** [new MessageWorker()] at instant [now]. *)
Definition constructor (now : Z) : worker :=
  mkWorker false 0 0 (Clock.getHours now) (Clock.getDate now) default_settings.

Definition sent_or_delivered (m : message) : bool :=
  status_eqb (msg_status m) sent || status_eqb (msg_status m) delivered.

(** SELECT COUNT( * ) FROM messages WHERE sent_at >= $since
    AND status IN ('sent', 'delivered'). *)
Definition count_sent_since (ms : list message) (since : Z) : Z :=
  Z.of_nat (List.length
    (filter (fun m => match sent_at m with
                      | Some t => (since <=? t) && sent_or_delivered m
                      | None => false
                      end) ms)).

(** [resetCounters()]. *)
Definition resetCounters (w : worker) (ms : list message) (now : Z) : worker :=
  let currentHour := Clock.getHours now in
  let currentDay := Clock.getDate now in
  let w1 :=
    if negb (Z.eqb currentHour (lastHourReset w))
    then mkWorker (isRunning w) (dailyMessageCount w) 0 currentHour
                  (lastDayReset w) (w_settings w)
    else w in
  let w2 :=
    if negb (Z.eqb currentDay (lastDayReset w1))
    then mkWorker (isRunning w1) 0 (hourlyMessageCount w1) (lastHourReset w1)
                  currentDay (w_settings w1)
    else w1 in
  mkWorker (isRunning w2)
           (count_sent_since ms (Clock.DATE_TRUNC_day now))
           (count_sent_since ms (Clock.DATE_TRUNC_hour now))
           (lastHourReset w2) (lastDayReset w2) (w_settings w2).

(** [start()], after [loadSettings] has put [s] in place: the counters are
    reset before the timers are armed. *)
Definition start (w : worker) (s : settings) (ms : list message) (now : Z) : worker :=
  resetCounters (mkWorker (isRunning w) (dailyMessageCount w) (hourlyMessageCount w)
                          (lastHourReset w) (lastDayReset w) s) ms now.

(** [resetHourlyCounter()], run by the timer '0 * * * *'. *)
Definition resetHourlyCounter (w : worker) (now : Z) : worker :=
  mkWorker (isRunning w) (dailyMessageCount w) 0 (Clock.getHours now)
           (lastDayReset w) (w_settings w).

(** [resetDailyCounter()], run by the timer '0 0 * * *'. *)
Definition resetDailyCounter (w : worker) (now : Z) : worker :=
  mkWorker (isRunning w) 0 (hourlyMessageCount w) (lastHourReset w)
           (Clock.getDate now) (w_settings w).

Definition set_running (b : bool) (w : worker) : worker :=
  mkWorker b (dailyMessageCount w) (hourlyMessageCount w) (lastHourReset w)
           (lastDayReset w) (w_settings w).

Definition count_one_sent (w : worker) : worker :=
  mkWorker (isRunning w) (dailyMessageCount w + 1) (hourlyMessageCount w + 1)
           (lastHourReset w) (lastDayReset w) (w_settings w).

(** SELECT id, message_type FROM messages WHERE status = 'pending'
    ORDER BY created_at ASC LIMIT $1. *)
Definition pendingMessages (ms : list message) (batchLimit : Z) : list message :=
  limit_offset batchLimit 0
    (order_by (fun a b => created_at a <=? created_at b)
              (filter (fun m => status_eqb (msg_status m) pending) ms)).

Section Dispatch.

Variable status_check : status -> bool.
Variable p : provider.
Variable configured : bool.

(** [for (const message of pendingMessages)]: a send that reports success
    advances both counters; a send that throws is logged. *)
Fixpoint dispatch_loop (now : Z) (batch : list message) (w : worker)
         (ms : list message) (calls : nat) : worker * list message * nat :=
  match batch with
  | [] => (w, ms, calls)
  | m :: rest =>
    let '(ms', calls', r) :=
      match message_type m with
      | SMS => SMSService.sendSMS status_check p now ms calls (msg_id m)
      | EMAIL => EmailService.sendEmail status_check p configured now ms calls (msg_id m)
      end in
    let w' := match r with
              | Ok res => if success res then count_one_sent w else w
              | Err _ => w
              end in
    dispatch_loop now rest w' ms' calls'
  end.

(** [processMessages()]; the statements of one tick read the instant [now]. *)
Definition processMessages (w : worker) (ms : list message) (calls : nat) (now : Z)
  : worker * list message * nat :=
  if isRunning w then (w, ms, calls)
  else
    let s := w_settings w in
    if dailyLimit s <=? dailyMessageCount w then (set_running false w, ms, calls)
    else if hourlyLimit s <=? hourlyMessageCount w then (set_running false w, ms, calls)
    else
      let remainingDaily := dailyLimit s - dailyMessageCount w in
      let remainingHourly := hourlyLimit s - hourlyMessageCount w in
      let batchLimit := Z.min (Z.min remainingDaily remainingHourly) (batchSize s) in
      if batchLimit <=? 0 then (set_running false w, ms, calls)
      else
        let '(w', ms', calls') :=
          dispatch_loop now (pendingMessages ms batchLimit)
                        (set_running true w) ms calls in
        (set_running false w', ms', calls').

End Dispatch.

(** SELECT COUNT( * ) FROM messages WHERE campaign_id = $1
    AND DATE(created_at) = CURRENT_DATE. *)
Definition todayCount (st : store) (now : Z) (campaignId : uuid) : Z :=
  Z.of_nat (List.length
    (filter (fun m => sql_eq_id (campaign_id m) campaignId
                      && Z.eqb (Clock.DATE (created_at m)) (Clock.DATE now))
            (messages st))).

(** SELECT COUNT( * ) FROM messages WHERE campaign_id = $1
    AND created_at >= DATE_TRUNC('hour', CURRENT_TIMESTAMP). *)
Definition thisHourCount (st : store) (now : Z) (campaignId : uuid) : Z :=
  Z.of_nat (List.length
    (filter (fun m => sql_eq_id (campaign_id m) campaignId
                      && (Clock.DATE_TRUNC_hour now <=? created_at m))
            (messages st))).

(** [Math.min(remainingDaily, remainingHourly, 50)]. *)
Definition generateLimit (c : campaign) (todayCount thisHourCount : Z) : Z :=
  Z.min (Z.min (daily_limit c - todayCount) (hourly_limit c - thisHourCount)) 50.

(** How a run of [processCampaign] ends when it does not throw. *)
Inductive campaign_outcome : Type :=
| DailyLimitReached
| HourlyLimitReached
| NoCapacity
| NoLeads
| Generated (generatedCount : Z).

(** [for (const lead of leads)] of [processCampaign]. *)
Fixpoint generate_for_leads (now : Z) (campaignId : uuid) (ls : list lead)
         (st : store) (generatedCount : Z) : store * Z :=
  match ls with
  | [] => (st, generatedCount)
  | l :: rest =>
    match MessageGeneration.createCampaignMessage st now (lead_id l) campaignId None with
    | Ok (st', _) => generate_for_leads now campaignId rest st' (generatedCount + 1)
    | Err _ => generate_for_leads now campaignId rest st generatedCount
    end
  end.

(** UPDATE campaigns SET total_targeted = total_targeted + $1 WHERE id = $2. *)
Definition add_total_targeted (n : Z) (campaignId : uuid) (st : store) : store :=
  mkStore (leads st)
    (map (fun c => if Z.eqb (camp_id c) campaignId
                   then mkCampaign (camp_id c) (camp_name c) (camp_message_type c)
                          (template_id c) (target_states c) (target_business_types c)
                          (target_industries c) (min_registration_date c)
                          (max_registration_date c) (daily_limit c) (hourly_limit c)
                          (is_active c) (total_targeted c + n)
                   else c) (campaigns st))
    (message_templates st) (opt_outs st) (messages st) (next_uuid st).

Section Campaigns.

Variable ilike_contains : string -> string -> bool.

(** [processCampaign(campaign)]. *)
Definition processCampaign (st : store) (now : Z) (c : campaign)
  : result (store * campaign_outcome) :=
  let today := todayCount st now (camp_id c) in
  if daily_limit c <=? today then Ok (st, DailyLimitReached)
  else
    let hour := thisHourCount st now (camp_id c) in
    if hourly_limit c <=? hour then Ok (st, HourlyLimitReached)
    else
      let limit := generateLimit c today hour in
      if limit <=? 0 then Ok (st, NoCapacity)
      else
        leadsResult <- LeadFiltering.getLeadsForCampaign ilike_contains st now
                                                         (camp_id c) limit ;;
        match LeadFiltering.fl_leads leadsResult with
        | [] => Ok (st, NoLeads)
        | ls =>
          let '(st', generatedCount) := generate_for_leads now (camp_id c) ls st 0 in
          Ok (if 0 <? generatedCount
              then add_total_targeted generatedCount (camp_id c) st'
              else st',
              Generated generatedCount)
        end.

End Campaigns.

(** status = 'sending'
    AND updated_at < CURRENT_TIMESTAMP - INTERVAL '1 hour'. *)
Definition stuck (now : Z) (m : message) : bool :=
  status_eqb (msg_status m) sending && (updated_at m <? now - Clock.MS_PER_HOUR).

(** status = 'pending'
    AND created_at < CURRENT_TIMESTAMP - INTERVAL '24 hours'. *)
Definition old_pending (now : Z) (m : message) : bool :=
  status_eqb (msg_status m) pending && (created_at m <? now - 24 * Clock.MS_PER_HOUR).

Definition stuck_reason : string := "Timeout - message stuck in sending status".

(** What the closing log line of [healthCheck] reports. *)
Record healthReport : Type := mkHealthReport {
  stuckMessages : Z;
  oldPendingMessages : Z;
  hourlyCount : Z;
  dailyCount : Z
}.

Definition count_rows (f : message -> bool) (ms : list message) : Z :=
  Z.of_nat (List.length (filter f ms)).

(** [healthCheck()]: the table after the pass and the report; a rejected
    UPDATE is caught and logged as a failed health check. *)
Definition healthCheck (status_check : status -> bool) (w : worker)
           (ms : list message) (now : Z) : list message * result healthReport :=
  let stuckCount := count_rows (stuck now) ms in
  match (if 0 <? stuckCount
         then update_messages status_check (stuck now) (set_failed stuck_reason now) ms
         else Ok ms) with
  | Err e => (ms, Err e)
  | Ok ms' =>
    (ms', Ok (mkHealthReport stuckCount (count_rows (old_pending now) ms')
                             (hourlyMessageCount w) (dailyMessageCount w)))
  end.

End MessageWorker.

(* ===================================================================== *)
(** ** services/sequenceCampaign.js: progress of a lead                  *)
(* ===================================================================== *)

Module SequenceProgress.

Import SequenceCampaign.

(** What the progress reports of a Message (of the columns of the model). *)
Record channelProgress : Type := mkChannelProgress {
  cp_status : status;
  cp_sentAt : option Z
}.

Record stepProgress : Type := mkStepProgress {
  sp_step : string;
  sp_day : Z;
  sp_sms : option channelProgress;
  sp_email : option channelProgress
}.

Record sequenceProgress : Type := mkSequenceProgress {
  pr_leadId : uuid;
  pr_campaignId : uuid;
  pr_totalSteps : Z;
  pr_completedSteps : Z;
  pr_progress : list stepProgress
}.

(** SELECT ... FROM messages WHERE lead_id = $1 AND campaign_id = $2
    ORDER BY created_at ASC. *)
Definition sentMessages (st : store) (leadId campaignId : uuid) : list message :=
  order_by (fun a b => created_at a <=? created_at b)
           (filter (fun m => Z.eqb (msg_lead_id m) leadId
                             && sql_eq_id (campaign_id m) campaignId)
                   (messages st)).

(** [sentMessages.find(m => m.template_name === t)], as reported. *)
Definition find_template (ms : list message) (t : string) : option channelProgress :=
  match find (fun m => String.eqb (template_name m) t) ms with
  | Some m => Some (mkChannelProgress (msg_status m) (sent_at m))
  | None => None
  end.

(** [p.sms || p.email]. *)
Definition completed (p : stepProgress) : bool :=
  match sp_sms p, sp_email p with
  | None, None => false
  | _, _ => true
  end.

(** [getSequenceProgress(leadId, campaignId)]. *)
Definition getSequenceProgress (st : store) (leadId campaignId : uuid)
  : sequenceProgress :=
  let sent := sentMessages st leadId campaignId in
  let progress :=
    map (fun s => mkStepProgress (name s) (day s)
                                 (find_template sent (smsTemplate s))
                                 (find_template sent (emailTemplate s)))
        llcSequence in
  mkSequenceProgress leadId campaignId (Z.of_nat (List.length llcSequence))
                     (Z.of_nat (List.length (filter completed progress)))
                     progress.

End SequenceProgress.

(* ===================================================================== *)
(** ** services/messageGeneration.js: rotation of the affiliate link     *)
(* ===================================================================== *)

Module AffiliateRotation.

(** ToInt32: the value a bitwise operator of JavaScript works on. *)
Definition ToInt32 (z : Z) : Z := (z + 2 ^ 31) mod 2 ^ 32 - 2 ^ 31.

(** One round of the loop, on the UTF-16 code unit [char]:
    [hash = ((hash << 5) - hash) + char; hash = hash & hash]. *)
Definition hash_step (hash char : Z) : Z :=
  ToInt32 (ToInt32 (Z.shiftl (ToInt32 hash) 5) - hash + char).

(** [simpleHash(str)], on the code units of [str]. *)
Definition simpleHash (str : list Z) : Z :=
  Z.abs (fold_left hash_step str 0).

(** The code units [str.charCodeAt(i)] of an ASCII text. *)
Definition charCodes (str : string) : list Z :=
  map (fun a => Z.of_nat (Ascii.nat_of_ascii a)) (list_ascii_of_string str).

Definition services : list string := ["ein"; "banking"; "accounting"; "insurance"].

(** The service [getRotatedAffiliateLink(leadId)] links to:
    [services[hash % services.length]], [None] standing for undefined. *)
Definition rotatedService (leadId : list Z) : option string :=
  nth_error services
            (Z.to_nat (Z.rem (simpleHash leadId) (Z.of_nat (List.length services)))).

End AffiliateRotation.


(* ===================================================================== *)
(** ** The passes over the campaigns                                     *)
(* ===================================================================== *)

Module CampaignPasses.

(** What [processSequenceCampaigns] returns. *)
Record passResult : Type := mkPassResult {
  pass_processed : Z;
  pass_campaigns : Z
}.

Section Passes.

(** [x ILIKE '%s%']: the pattern match of the database. *)
Variable ilike_contains : string -> string -> bool.

(** The columns start_date, end_date and created_at of a row of campaigns,
    which the record [campaign] does not hold. *)
Variable start_date : campaign -> option Z.
Variable end_date : campaign -> option Z.
Variable camp_created_at : campaign -> option Z.

(** (start_date IS NULL OR start_date <= CURRENT_DATE)
    AND (end_date IS NULL OR end_date >= CURRENT_DATE). *)
Definition in_dates (now : Z) (c : campaign) : bool :=
  match start_date c with
  | Some d => d <=? Clock.DATE now
  | None => true
  end
  && match end_date c with
     | Some d => Clock.DATE now <=? d
     | None => true
     end.

(** SELECT * FROM campaigns WHERE is_active = true
    AND name ILIKE '%sequence%' AND (the dates include today). *)
Definition sequenceCampaigns (st : store) (now : Z) : list campaign :=
  filter (fun c => is_active c && ilike_contains (camp_name c) "sequence"
                   && in_dates now c)
         (campaigns st).

(** [for (const campaign of campaigns)] of [processSequenceCampaigns]. *)
Fixpoint sequence_campaigns_loop (now : Z) (limit : Z) (rows : list campaign)
         (st : store) (totalProcessed : Z) : store * Z :=
  match rows with
  | [] => (st, totalProcessed)
  | c :: rest =>
    let '(st', processed) :=
      SequenceProcessing.processSingleSequenceCampaign st now c limit in
    sequence_campaigns_loop now limit rest st' (totalProcessed + processed)
  end.

(** [processSequenceCampaigns(limit = 100)] of the sequence service. *)
Definition processSequenceCampaigns (st : store) (now : Z) (limit : Z)
  : store * passResult :=
  match sequenceCampaigns st now with
  | [] => (st, mkPassResult 0 0)
  | rows =>
    let '(st', totalProcessed) := sequence_campaigns_loop now limit rows st 0 in
    (st', mkPassResult totalProcessed (Z.of_nat (List.length rows)))
  end.

(** SELECT * FROM campaigns WHERE is_active = true AND (the dates include
    today) ORDER BY created_at ASC. *)
Definition activeCampaigns (st : store) (now : Z) : list campaign :=
  order_by (fun a b => LeadFiltering.nulls_last_leb (camp_created_at a)
                                                    (camp_created_at b))
           (filter (fun c => is_active c && in_dates now c) (campaigns st)).

(** [for (const campaign of campaigns)] of [processCampaigns]: a campaign
    whose processing throws is logged and the loop goes on. *)
Fixpoint campaigns_loop (now : Z) (rows : list campaign) (st : store) : store :=
  match rows with
  | [] => st
  | c :: rest =>
    match MessageWorker.processCampaign ilike_contains st now c with
    | Ok (st', _) => campaigns_loop now rest st'
    | Err _ => campaigns_loop now rest st
    end
  end.

(** [processCampaigns()] of the worker. *)
Definition processCampaigns (st : store) (now : Z) : store :=
  campaigns_loop now (activeCampaigns st now) st.

End Passes.

End CampaignPasses.

(* ===================================================================== *)
(** ** Opt-out requests: [handleOptOut] of the two services              *)
(* ===================================================================== *)

Module OptOutHandling.

(** How a call ends: it returns [{ success: true, ... }], or it throws the
    error of the statement the store rejected. *)
Inductive optOutResult : Type :=
| OptOutProcessed
| OptOutThrows.

(** schema.sql declares no UNIQUE constraint and no unique index on
    opt_outs.phone or opt_outs.email (idx_opt_outs_phone and
    idx_opt_outs_email are plain indexes). *)
Definition opt_outs_conflict_target : bool := false.

Fixpoint all_spaces (s : string) : bool :=
  match s with
  | EmptyString => true
  | String c r => (Ascii.nat_of_ascii c =? 32)%nat && all_spaces r
  end.

(** Storing a text in a VARCHAR(n) column: a longer text is an error unless
    the excess characters are all spaces, which are cut off. *)
Definition varchar (n : nat) (s : string) : option string :=
  if (String.length s <=? n)%nat then Some s
  else if all_spaces (substring n (String.length s - n) s)
       then Some (substring 0 n s)
       else None.

(** The column the request is about: phone VARCHAR(20) for the SMS
    service, email VARCHAR(255) for the e-mail service. *)
Definition oo_contact (ch : channel) (o : opt_out) : option string :=
  match ch with
  | SMS => oo_phone o
  | EMAIL => oo_email o
  end.

Definition contact_length (ch : channel) : nat :=
  match ch with
  | SMS => 20%nat
  | EMAIL => 255%nat
  end.

Definition recipient (ch : channel) (m : message) : option string :=
  match ch with
  | SMS => recipient_phone m
  | EMAIL => recipient_email m
  end.

(** VALUES ($1, $2, 'sms', 'reply') and VALUES ($1, $2, 'email', 'web_form'). *)
Definition opt_out_row (ch : channel) (contact : string) (leadId : option uuid)
  : opt_out :=
  match ch with
  | SMS => mkOptOut (Some contact) None leadId OptSms
  | EMAIL => mkOptOut None (Some contact) leadId OptEmail
  end.

Section Schema.

Variable status_check : status -> bool.

(** Whether the store has a unique constraint or index on the column named
    in ON CONFLICT; without one the store rejects the statement. *)
Variable conflict_target : bool.

(** INSERT INTO opt_outs (...) VALUES (...) ON CONFLICT (column) DO UPDATE
    SET opted_out_at = CURRENT_TIMESTAMP, source = ...: the rows of opt_outs
    after the statement, [None] when the store rejects it.  A row with the
    same contact is kept, with all the columns of the model as they are;
    otherwise the new row is added, provided its lead_id is null or the key
    of a lead (lead_id UUID REFERENCES leads(id)). *)
Definition insert_opt_out (ch : channel) (contact : string)
           (leadId : option uuid) (st : store) : option (list opt_out) :=
  if negb conflict_target then None
  else
    match varchar (contact_length ch) contact with
    | None => None
    | Some stored =>
      if existsb (fun o => sql_eq_str (oo_contact ch o) (Some stored)) (opt_outs st)
      then Some (opt_outs st)
      else
        let row := opt_out_row ch stored leadId in
        match leadId with
        | Some id =>
          if existsb (fun l => Z.eqb (lead_id l) id) (leads st)
          then Some (opt_outs st ++ [row])
          else None
        | None => Some (opt_outs st ++ [row])
        end
    end.

(** WHERE recipient_phone = $1 AND status = 'pending' (recipient_email for
    the e-mail service). *)
Definition pending_to (ch : channel) (contact : string) (m : message) : bool :=
  sql_eq_str (recipient ch m) (Some contact)
  && status_eqb (msg_status m) pending.

(** [handleOptOut(phone, leadId = null)] of the SMS service ([ch] = SMS)
    and [handleOptOut(email, leadId = null)] of the e-mail service ([ch] =
    EMAIL), which differ in the column, the type and the source only.  The
    two statements are not in a transaction: when the second is rejected the
    opt-out stays recorded. *)
Definition handleOptOut (ch : channel) (st : store) (now : Z) (contact : string)
           (leadId : option uuid) : store * optOutResult :=
  match insert_opt_out ch contact leadId st with
  | None => (st, OptOutThrows)
  | Some os =>
    let st1 := mkStore (leads st) (campaigns st) (message_templates st) os
                       (messages st) (next_uuid st) in
    match update_messages status_check (pending_to ch contact)
                          (set_status opted_out now) (messages st) with
    | Ok ms => (with_messages st1 ms, OptOutProcessed)
    | Err _ => (st1, OptOutThrows)
    end
  end.

End Schema.

End OptOutHandling.

(* ===================================================================== *)
(** * Vocabulary of the properties                                       *)
(* ===================================================================== *)

Module SequenceVocabulary.

Import MessageGeneration SequenceCampaign.

(** Two stores with the same leads, campaigns and templates. *)
Definition same_tables (st st' : store) : Prop :=
  leads st' = leads st /\ campaigns st' = campaigns st
  /\ message_templates st' = message_templates st
  /\ opt_outs st' = opt_outs st.

(** [createCampaignMessage] meets no configuration error: the campaign
    exists, an active template of that name exists and the lead has the
    contact of the template's channel. *)
Definition creatable (st : store) (leadId campaignId : uuid) (t : string) : bool :=
  match find_campaign st campaignId with
  | None => false
  | Some _ => is_ok (generateMessage st leadId t)
  end.

Definition no_existing (st : store) (leadId campaignId : uuid) (t : string) : bool :=
  match existing st leadId campaignId t with
  | [] => true
  | _ :: _ => false
  end.

(** The step is due: its scheduled date is not after [now]. *)
Definition due (now registrationDate : Z) (s : step) : bool :=
  scheduledDate registrationDate s <=? now.

(** The steps a run turns into a Message. *)
Definition generates (st : store) (now d : Z) (leadId campaignId : uuid)
           (messageType : string) (s : step) : bool :=
  due now d s
  && no_existing st leadId campaignId (stepTemplate messageType s)
  && creatable st leadId campaignId (stepTemplate messageType s).

(** The templates of the steps are pairwise distinct and none is empty. *)
Definition good_steps (messageType : string) (steps : list step) : Prop :=
  NoDup (map (stepTemplate messageType) steps)
  /\ Forall (fun s => truthy (Some (stepTemplate messageType s)) = true) steps.

End SequenceVocabulary.

Module AdmissionVocabulary.

Import MessageWorker.

(** Following the words of the specification: the Messages of the campaign
    with status sent or delivered that were sent today, and this hour. *)
Definition spec_sentToday (st : store) (now : Z) (campaignId : uuid) : Z :=
  count_rows (fun m => sql_eq_id (campaign_id m) campaignId
                       && sent_or_delivered m
                       && match sent_at m with
                          | Some t => Z.eqb (Clock.DATE t) (Clock.DATE now)
                          | None => false
                          end)
             (messages st).

Definition spec_sentThisHour (st : store) (now : Z) (campaignId : uuid) : Z :=
  count_rows (fun m => sql_eq_id (campaign_id m) campaignId
                       && sent_or_delivered m
                       && match sent_at m with
                          | Some t => Clock.DATE_TRUNC_hour now <=? t
                          | None => false
                          end)
             (messages st).

(** min(dailyCap - sentToday, hourlyCap - sentThisHour, 50), as specified. *)
Definition spec_capacity (st : store) (now : Z) (c : campaign) : Z :=
  Z.min (Z.min (daily_limit c - spec_sentToday st now (camp_id c))
               (hourly_limit c - spec_sentThisHour st now (camp_id c))) 50.

(** The capacity [processCampaign] computes. *)
Definition capacity (st : store) (now : Z) (c : campaign) : Z :=
  generateLimit c (todayCount st now (camp_id c)) (thisHourCount st now (camp_id c)).

End AdmissionVocabulary.

Module TargetingVocabulary.

(** Following the words of the specification: the recipient appears in
    OptOut, by the address of the channel or by its key, with the type of
    the channel or with type all. *)
Definition spec_opted_out (st : store) (ch : channel) (l : lead) : bool :=
  existsb (fun o =>
             match ch with
             | SMS =>
               (sql_eq_str (oo_phone o) (phone l) || sql_eq_id (oo_lead_id o) (lead_id l))
               && match oo_type o with OptSms | OptAll => true | OptEmail => false end
             | EMAIL =>
               (sql_eq_str (oo_email o) (email l) || sql_eq_id (oo_lead_id o) (lead_id l))
               && match oo_type o with OptEmail | OptAll => true | OptSms => false end
             end)
          (opt_outs st).

(** Oldest registration first, and newest first. *)
Definition oldest_first (a b : lead) : Prop :=
  LeadFiltering.nulls_last_leb (registration_date a) (registration_date b) = true.

Definition newest_first (a b : lead) : Prop :=
  LeadFiltering.nulls_last_leb (registration_date b) (registration_date a) = true.

End TargetingVocabulary.

Module DispatchVocabulary.

(** Rows with another key are in [ms'] as they were in [ms]. *)
Definition keeps_others (id : uuid) (ms ms' : list message) : Prop :=
  forall m, In m ms -> msg_id m <> id -> In m ms'.

End DispatchVocabulary.

Module ProcessingVocabulary.

Import MessageGeneration SequenceCampaign SequenceVocabulary.

(** [st'] holds the tables of [st] and its Messages followed by new ones. *)
Definition extends (st st' : store) : Prop :=
  same_tables st st' /\ exists news, messages st' = messages st ++ news.

(** No step of the sequence generates for the lead. *)
Definition quiet (st : store) (now : Z) (c : campaign) (leadId : uuid) : Prop :=
  forall l d s,
    find_lead st leadId = Some l -> registration_date l = Some d ->
    In s llcSequence ->
    generates st now d leadId (camp_id c) (camp_message_type c) s = false.

End ProcessingVocabulary.

Module DeliveryVocabulary.

(** What identifies a Message and what it carries: the columns that are
    written when the row is inserted and that no dispatch should touch. *)
Definition envelope (m : message)
  : uuid * uuid * channel * string * option string * option string
    * option string * option uuid * Z :=
  (msg_id m, msg_lead_id m, message_type m, template_name m, recipient_phone m,
   recipient_email m, subject m, campaign_id m, created_at m).

(** How a send that returned [res] at instant [now] left the rows of key
    [id]: sent, or failed with the error it reports as the reason. *)
Definition settled (id : uuid) (now : Z) (res : sendResult) (ms : list message)
  : Prop :=
  forall m, In m ms -> msg_id m = id ->
    if success res
    then msg_status m = sent /\ sent_at m = Some now /\ sr_error res = None
    else msg_status m = failed /\ failed_at m = Some now
         /\ exists e, sr_error res = Some e
                      /\ failure_reason m = Some (error_message e).

(** The row counts for the counters of the worker from [since] on:
    sent_at >= since AND status IN ('sent', 'delivered'). *)
Definition counted (since : Z) (m : message) : bool :=
  match sent_at m with
  | Some t => (since <=? t) && MessageWorker.sent_or_delivered m
  | None => false
  end.

(** What a send does to the row of a pending Message, the other rows given:
    it leaves the others as they are, and the row is sent at [now] when the
    send reports success and not sent otherwise. *)
Definition send_outcome (now : Z) (l1 l2 : list message)
           (out : list message * nat * result sendResult) : Prop :=
  exists b', fst (fst out) = l1 ++ b' :: l2
             /\ match snd out with
                | Ok res => if success res
                            then msg_status b' = sent /\ sent_at b' = Some now
                            else msg_status b' = failed
                | Err _ => msg_status b' = pending \/ msg_status b' = sending
                end.

End DeliveryVocabulary.

Module RateVocabulary.

Import MessageWorker.

Section Runs.

Variable status_check : status -> bool.
Variable p : provider.
Variable configured : bool.

(** The worker, the table of Messages and the count of provider requests. *)
Definition dispatch_state : Type := worker * list message * nat.

(** One step of the life of the dispatcher from the instant [since] on: a
    tick of [processMessages] at an instant not before [since], a pass of
    [healthCheck], or the creation of a pending Message under a key no row
    holds. *)
Inductive dispatch_step (since : Z) : dispatch_state -> dispatch_state -> Prop :=
| step_tick (w : worker) (ms : list message) (calls : nat) (now : Z) :
    since <= now ->
    dispatch_step since (w, ms, calls)
                  (processMessages status_check p configured w ms calls now)
| step_health (w : worker) (ms : list message) (calls : nat) (now : Z) :
    dispatch_step since (w, ms, calls)
                  (w, fst (healthCheck status_check w ms now), calls)
| step_created (w : worker) (ms : list message) (calls : nat) (m : message) :
    msg_status m = pending ->
    ~ In (msg_id m) (map msg_id ms) ->
    dispatch_step since (w, ms, calls) (w, ms ++ [m], calls).

(** Any number of such steps. *)
Inductive dispatch_run (since : Z) : dispatch_state -> dispatch_state -> Prop :=
| run_done (s : dispatch_state) : dispatch_run since s s
| run_step (s s1 s2 : dispatch_state) :
    dispatch_run since s s1 -> dispatch_step since s1 s2 ->
    dispatch_run since s s2.

End Runs.

End RateVocabulary.

Module OptOutVocabulary.

(** The type of opt-out that does not cover the channel: a row of this
    type that holds the contact of the channel does not opt that contact
    out of the channel. *)
Definition other_channel_only (ch : channel) : opt_out_type :=
  match ch with
  | SMS => OptEmail
  | EMAIL => OptSms
  end.

End OptOutVocabulary.

(* ===================================================================== *)
(** * Sample data                                                        *)
(* ===================================================================== *)

Module Sample.

Import SequenceCampaign.

(** A lead registered on day 20000, with both contact channels. *)
Definition acme : lead :=
  mkLead 1 "Acme LLC" "FL" (Some "LLC") None (Some 20000) "active"
         (Some "+15550100") (Some "owner@acme.test") None None 0.

(** A lead without an e-mail address. *)
Definition phone_only : lead :=
  mkLead 2 "Bolt LLC" "FL" (Some "LLC") None (Some 20000) "active"
         (Some "+15550200") None None None 0.

(** A lead without a registration date. *)
Definition undated : lead :=
  mkLead 3 "Crate LLC" "FL" (Some "LLC") None None "active"
         (Some "+15550300") (Some "owner@crate.test") None None 0.

Definition email_sequence : campaign :=
  mkCampaign 10 "LLC Welcome Sequence" "email" None None None None None None
             50 10 true 0.

Definition sms_sequence : campaign :=
  mkCampaign 11 "LLC SMS Sequence" "sms" None None None None None None
             50 10 true 0.

(** The templates of the sequence, as the template script of the
    repository inserts them: one per step and channel, all active. *)
Definition sequence_templates : list message_template :=
  map (fun s => mkTemplate (100 + day s) (smsTemplate s) SMS None true) llcSequence
  ++ map (fun s => mkTemplate (200 + day s) (emailTemplate s) EMAIL
                              (Some "Your next step") true) llcSequence.

Definition shop : store :=
  mkStore [acme; phone_only; undated] [email_sequence; sms_sequence]
          sequence_templates [] [] 1000.

(** Three days and one second after the registration day: the steps of
    day 1 and day 3 are due. *)
Definition three_days_later : Z := Clock.date_to_ms 20003 + 1000.

End Sample.

Module AdmissionSample.

(** A campaign with an hourly cap of one message. *)
Definition trickle : campaign :=
  mkCampaign 20 "Welcome" "email" None None None None None None 10 1 true 0.

(** A Message of [trickle] created half a second ago and still pending. *)
Definition queued : message :=
  mkMessage 500 1 EMAIL "llc_welcome_email" None (Some "owner@acme.test")
            (Some "Welcome") pending None None None None (Some 20)
            (Clock.date_to_ms 20003 + 500) (Clock.date_to_ms 20003 + 500).

Definition busy_shop : store :=
  mkStore [Sample.acme] [trickle] [] [] [queued] 1000.

(** Scenario B: an hourly cap of five and five Messages sent this hour. *)
Definition five_an_hour : campaign :=
  mkCampaign 21 "Welcome" "email" None None None None None None 100 5 true 0.

Definition sent_one (k : Z) : message :=
  mkMessage (600 + k) 1 EMAIL "llc_welcome_email" None (Some "owner@acme.test")
            (Some "Welcome") sent (Some (Clock.date_to_ms 20003 + 10 * k)) None None
            (Some "sg-1") (Some 21)
            (Clock.date_to_ms 20003 + k) (Clock.date_to_ms 20003 + 10 * k).

Definition full_hour_shop : store :=
  mkStore [Sample.acme] [five_an_hour] [] [] (map sent_one [1; 2; 3; 4; 5]) 1000.

End AdmissionSample.

Module DispatchSample.

(** Half a second after midnight of day 20004: an hour and a day boundary
    have just been crossed. *)
Definition after_midnight : Z := Clock.date_to_ms 20004 + 500.

(** A Message sent a tenth of a second after that midnight. *)
Definition sent_after_midnight : message :=
  mkMessage 700 1 EMAIL "llc_welcome_email" None (Some "owner@acme.test")
            (Some "Welcome") sent (Some (Clock.date_to_ms 20004 + 100)) None None
            (Some "sg-7") (Some 10)
            (Clock.date_to_ms 20003) (Clock.date_to_ms 20004 + 100).

(** Scenario D: a Message in status sending, last updated 90 minutes ago. *)
Definition in_flight : message :=
  mkMessage 800 1 SMS "llc_day1_ein_sms" (Some "+15550100") None None
            sending None None None None (Some 11)
            (Clock.date_to_ms 20003) (Sample.three_days_later - 90 * 60 * 1000).

(** A Message pending for more than a day. *)
Definition stale : message :=
  mkMessage 801 1 SMS "llc_day3_banking_sms" (Some "+15550100") None None
            pending None None None None (Some 11)
            (Clock.date_to_ms 20001) (Clock.date_to_ms 20001).

(** A pending SMS Message, ready for dispatch. *)
Definition ready_sms : message :=
  mkMessage 900 1 SMS "llc_day1_ein_sms" (Some "+15550100") None None
            pending None None None None (Some 11)
            (Clock.date_to_ms 20003) (Clock.date_to_ms 20003).

(** A pending e-mail Message, ready for dispatch. *)
Definition ready_email : message :=
  mkMessage 901 1 EMAIL "llc_day1_ein_email" None (Some "owner@acme.test")
            (Some "Your next step") pending None None None None (Some 10)
            (Clock.date_to_ms 20003) (Clock.date_to_ms 20003).

(** A Message that has failed. *)
Definition dead : message :=
  mkMessage 902 1 SMS "llc_day3_banking_sms" (Some "+15550100") None None
            failed None (Some (Clock.date_to_ms 20002)) (Some "TextMagic API error")
            None (Some 11)
            (Clock.date_to_ms 20001) (Clock.date_to_ms 20002).

(** A provider that accepts every request. *)
Definition accepting : provider := fun _ => Accepted "pm-1".

(** A provider that answers 503 to the first request and accepts the next. *)
Definition flaky : provider :=
  fun k => match k with
           | O => Rejected (Some 503) "Service Unavailable"
           | _ => Accepted "pm-2"
           end.

(** A store whose status constraint admits every status. *)
Definition any_status : status -> bool := fun _ => true.

End DispatchSample.

Module TargetingSample.

(** [Sample.shop] after the recipient of [Sample.acme]'s phone number opted
    out of SMS. *)
Definition sms_opt_out : opt_out :=
  mkOptOut (Some "+15550100") None None OptSms.

Definition shop_after_opt_out : store :=
  mkStore (leads Sample.shop) (campaigns Sample.shop)
          (message_templates Sample.shop) [sms_opt_out] [] 1000.

(** Three leads registered on days 19990 < 19995 < 20000. *)
Definition first : lead :=
  mkLead 1 "Ash LLC" "FL" None None (Some 19990) "active"
         (Some "+15550001") None None None 0.
Definition second : lead :=
  mkLead 2 "Birch LLC" "FL" None None (Some 19995) "active"
         (Some "+15550002") None None None 0.
Definition third : lead :=
  mkLead 3 "Cedar LLC" "FL" None None (Some 20000) "active"
         (Some "+15550003") None None None 0.

Definition registry : store := mkStore [second; third; first] [] [] [] [] 1000.

(** Filters whose registration window, from 365 days ago to yesterday, all
    three leads fall in. *)
Definition last_year : LeadFiltering.filters :=
  LeadFiltering.mkFilters None None (Some (Some 365)) (Some (Some 1)) None
    None None None None None None None None None false false false None [] None.

(** A database in which no company name matches a search. *)
Definition no_match : string -> string -> bool := fun _ _ => false.

End TargetingSample.

(* ===================================================================== *)
(** * Properties                                                         *)
(* ===================================================================== *)

(** ** Clock *)

(** The civil-calendar conversion on known dates: 1970-01-01, 1970-03-01,
    2024-02-29 and 2024-10-08; the hour of an instant. *)
Example getDate_known_days :
  map (fun d => Clock.getDate (Clock.date_to_ms d)) [0; 59; 19782; 20004]
  = [1; 1; 29; 8].
Proof. vm_compute. reflexivity. Qed.

Example getHours_known_instant :
  Clock.getHours (Clock.date_to_ms 20004 + 13 * Clock.MS_PER_HOUR + 5) = 13.
Proof. vm_compute. reflexivity. Qed.

(** ** ORDER BY and LIMIT *)

Section OrderFacts.

Variable A : Type.
Variable leb : A -> A -> bool.

Lemma insert_sorted_Permutation (x : A) (l : list A) :
  Permutation (insert_sorted leb x l) (x :: l).
Proof.
  induction l as [|y l IH]; simpl; [reflexivity|].
  destruct (leb x y); [reflexivity|].
  rewrite IH. apply perm_swap.
Qed.

Lemma order_by_Permutation (l : list A) : Permutation (order_by leb l) l.
Proof.
  induction l as [|x l IH]; simpl; [reflexivity|].
  rewrite insert_sorted_Permutation. now constructor.
Qed.

Lemma order_by_In (l : list A) (x : A) : In x (order_by leb l) <-> In x l.
Proof.
  split; apply Permutation_in;
    [apply order_by_Permutation|symmetry; apply order_by_Permutation].
Qed.

Lemma firstn_In (n : nat) (l : list A) (x : A) : In x (firstn n l) -> In x l.
Proof.
  intros H. rewrite <- (firstn_skipn n l). apply in_or_app. now left.
Qed.

Lemma skipn_In (n : nat) (l : list A) (x : A) : In x (skipn n l) -> In x l.
Proof.
  intros H. rewrite <- (firstn_skipn n l). apply in_or_app. now right.
Qed.

Lemma limit_offset_In (limit offset : Z) (l : list A) (x : A) :
  In x (limit_offset limit offset l) -> In x l.
Proof.
  unfold limit_offset. intros H.
  eapply skipn_In, firstn_In, H.
Qed.

Hypothesis leb_total : forall a b, leb a b = true \/ leb b a = true.
Hypothesis leb_trans : forall a b c, leb a b = true -> leb b c = true -> leb a c = true.

Let ordered (a b : A) : Prop := leb a b = true.

Lemma insert_sorted_StronglySorted (x : A) (l : list A) :
  StronglySorted ordered l -> StronglySorted ordered (insert_sorted leb x l).
Proof.
  induction 1 as [|y l Hsorted IH Hall]; simpl.
  - repeat constructor.
  - destruct (leb x y) eqn:Hxy.
    + constructor; [now constructor|].
      constructor; [exact Hxy|].
      eapply Forall_impl; [|exact Hall].
      intros z Hz. eapply leb_trans; eassumption.
    + constructor; [exact IH|].
      rewrite (Forall_forall (ordered y)). intros z Hz.
      apply (Permutation_in _ (insert_sorted_Permutation x l)) in Hz.
      destruct Hz as [<-|Hz].
      * destruct (leb_total x y); [congruence|assumption].
      * now apply (proj1 (Forall_forall _ _) Hall).
Qed.

Lemma order_by_StronglySorted (l : list A) : StronglySorted ordered (order_by leb l).
Proof.
  induction l as [|x l IH]; simpl; [constructor|].
  now apply insert_sorted_StronglySorted.
Qed.

Lemma StronglySorted_skipn (n : nat) (l : list A) :
  StronglySorted ordered l -> StronglySorted ordered (skipn n l).
Proof.
  revert l. induction n as [|n IH]; intros l H; [exact H|].
  destruct l as [|x l]; [constructor|].
  simpl. apply IH. now apply StronglySorted_inv in H.
Qed.

Lemma StronglySorted_firstn (n : nat) (l : list A) :
  StronglySorted ordered l -> StronglySorted ordered (firstn n l).
Proof.
  revert l. induction n as [|n IH]; intros l H; [constructor|].
  destruct l as [|x l]; [constructor|].
  apply StronglySorted_inv in H. destruct H as [Hs Hall].
  simpl. constructor; [now apply IH|].
  rewrite Forall_forall in *. intros z Hz. apply Hall.
  eapply firstn_In, Hz.
Qed.

Lemma limit_offset_StronglySorted (limit offset : Z) (l : list A) :
  StronglySorted ordered (limit_offset limit offset (order_by leb l)).
Proof.
  unfold limit_offset.
  apply StronglySorted_firstn, StronglySorted_skipn, order_by_StronglySorted.
Qed.

End OrderFacts.

(** ** Sequence generation *)

Module SequenceFacts.

Import MessageGeneration SequenceCampaign SequenceVocabulary.

Lemma same_tables_refl (st : store) : same_tables st st.
Proof. repeat split. Qed.

Lemma same_tables_trans (a b c : store) :
  same_tables a b -> same_tables b c -> same_tables a c.
Proof.
  unfold same_tables. intros (H1 & H2 & H3 & H4) (K1 & K2 & K3 & K4).
  repeat split; congruence.
Qed.

Lemma generateMessage_same_tables (st st' : store) (leadId : uuid) (t : string) :
  same_tables st st' -> generateMessage st' leadId t = generateMessage st leadId t.
Proof.
  intros (Hl & _ & Ht & _).
  unfold generateMessage, find_lead, find_active_template.
  now rewrite Hl, Ht.
Qed.

Lemma creatable_same_tables (st st' : store) (leadId campaignId : uuid) (t : string) :
  same_tables st st' -> creatable st' leadId campaignId t = creatable st leadId campaignId t.
Proof.
  intros H. unfold creatable, find_campaign.
  rewrite (generateMessage_same_tables _ _ leadId t H).
  destruct H as (_ & Hc & _). now rewrite Hc.
Qed.

Lemma generateMessage_templateName (st : store) (leadId : uuid) (t : string)
      (md : messageData) :
  generateMessage st leadId t = Ok md ->
  md_leadId md = leadId /\ md_templateName md = t.
Proof.
  unfold generateMessage. intros H.
  destruct (find_lead st leadId); [|discriminate].
  destruct (find_active_template st t); [|discriminate].
  destruct (getRecipient l (tpl_type m)); [|discriminate].
  destruct (String.eqb s ""); [discriminate|].
  inversion H; subst; simpl; auto.
Qed.

(** What a successful [createCampaignMessage] with a given template name
    does to the store: one pending row under the key is appended. *)
Lemma createCampaignMessage_spec (st : store) (now : Z) (leadId campaignId : uuid)
      (t : string) :
  truthy (Some t) = true ->
  match createCampaignMessage st now leadId campaignId (Some t) with
  | Ok (st', (id, md)) =>
    creatable st leadId campaignId t = true
    /\ same_tables st st'
    /\ id = next_uuid st
    /\ exists m, messages st' = messages st ++ [m]
                 /\ msg_id m = next_uuid st
                 /\ msg_lead_id m = leadId
                 /\ campaign_id m = Some campaignId
                 /\ template_name m = t
                 /\ msg_status m = pending
  | Err _ => creatable st leadId campaignId t = false
  end.
Proof.
  intros Ht. unfold createCampaignMessage, creatable.
  destruct (find_campaign st campaignId) as [c|]; [|reflexivity].
  rewrite Ht.
  destruct (generateMessage st leadId t) as [md|e] eqn:Hg; simpl; [|reflexivity].
  apply generateMessage_templateName in Hg. destruct Hg as [Hl Hn].
  split; [reflexivity|]. split; [repeat split|]. split; [reflexivity|].
  eexists. split; [reflexivity|]. simpl. repeat split; assumption.
Qed.

Lemma key_matches_iff (leadId campaignId : uuid) (t : string) (m : message) :
  key_matches leadId campaignId t m = true <->
  msg_lead_id m = leadId /\ campaign_id m = Some campaignId /\ template_name m = t.
Proof.
  unfold key_matches, sql_eq_id.
  rewrite !andb_true_iff, Z.eqb_eq, String.eqb_eq.
  destruct (campaign_id m) as [c|].
  - rewrite Z.eqb_eq. intuition congruence.
  - intuition congruence.
Qed.



Lemma due_spec (now d : Z) (s : step) :
  (now <? scheduledDate d s) = negb (due now d s).
Proof. unfold due. apply Z.ltb_antisym. Qed.

Lemma existing_messages (st st' : store) (leadId campaignId : uuid) (t : string)
      (news : list message) :
  messages st' = messages st ++ news ->
  existing st' leadId campaignId t
  = existing st leadId campaignId t ++ filter (key_matches leadId campaignId t) news.
Proof. unfold existing. intros ->. apply filter_app. Qed.

Lemma no_existing_other (st st' : store) (leadId campaignId : uuid) (t : string)
      (m : message) :
  messages st' = messages st ++ [m] ->
  template_name m <> t ->
  no_existing st' leadId campaignId t = no_existing st leadId campaignId t.
Proof.
  intros Hm Hne. unfold no_existing.
  rewrite (existing_messages _ _ leadId campaignId t _ Hm). simpl.
  destruct (key_matches leadId campaignId t m) eqn:Hk.
  - apply key_matches_iff in Hk. tauto.
  - now rewrite app_nil_r.
Qed.

Lemma generates_after_insert (st st' : store) (now d : Z) (leadId campaignId : uuid)
      (messageType : string) (m : message) (s : step) :
  same_tables st st' ->
  messages st' = messages st ++ [m] ->
  template_name m <> stepTemplate messageType s ->
  generates st' now d leadId campaignId messageType s
  = generates st now d leadId campaignId messageType s.
Proof.
  intros Hs Hm Hne. unfold generates.
  rewrite (no_existing_other _ _ leadId campaignId _ _ Hm Hne).
  now rewrite (creatable_same_tables _ _ leadId campaignId _ Hs).
Qed.

(** The loop appends one pending row, under the key of its template, for
    every step that is due, has no row yet and can be created, in the order
    of the sequence, and nothing else. *)
Lemma sequence_loop_spec (now d : Z) (leadId campaignId : uuid)
      (messageType : string) (steps : list step) :
  good_steps messageType steps ->
  forall (st : store) (acc : list generated) (st' : store) (acc' : list generated),
    sequence_loop now d leadId campaignId messageType steps st acc = (st', acc') ->
    same_tables st st'
    /\ exists news gens,
        messages st' = messages st ++ news
        /\ acc' = acc ++ gens
        /\ map template_name news
           = map (stepTemplate messageType)
                 (filter (generates st now d leadId campaignId messageType) steps)
        /\ map g_templateName gens = map template_name news
        /\ Forall (fun m => msg_lead_id m = leadId
                            /\ campaign_id m = Some campaignId
                            /\ msg_status m = pending) news.
Proof.
  induction steps as [|s rest IH]; intros [Hnd Hne] st acc st' acc' Hrun.
  - simpl in Hrun. inversion Hrun; subst.
    split; [apply same_tables_refl|].
    exists [], []. rewrite !app_nil_r. repeat split; constructor.
  - simpl in Hnd. apply NoDup_cons_iff in Hnd. destruct Hnd as [Hnotin Hnd].
    apply Forall_cons_iff in Hne. destruct Hne as [Hs Hne].
    assert (Hrest : good_steps messageType rest) by (split; assumption).
    simpl in Hrun. rewrite due_spec in Hrun.
    assert (Hgen : generates st now d leadId campaignId messageType s
                   = due now d s
                     && no_existing st leadId campaignId (stepTemplate messageType s)
                     && creatable st leadId campaignId (stepTemplate messageType s))
      by reflexivity.
    simpl filter. rewrite Hgen.
    destruct (due now d s); simpl in Hrun |- *.
    2:{ apply (IH Hrest); assumption. }
    unfold no_existing.
    destruct (existing st leadId campaignId (stepTemplate messageType s)) eqn:Hex;
      simpl.
    2:{ apply (IH Hrest); assumption. }
    pose proof (createCampaignMessage_spec st now leadId campaignId _ Hs) as Hc.
    destruct (createCampaignMessage st now leadId campaignId
                (Some (stepTemplate messageType s))) as [[st1 [id md]]|e].
    + destruct Hc as (Hcr & Hsame & _ & m & Hm & _ & Hl & Hcamp & Ht & Hst).
      rewrite Hcr.
      destruct (IH Hrest _ _ _ _ Hrun)
        as (Hsame' & news & gens & Hms & Hacc & Hn & Hg & Hall).
      split; [eapply same_tables_trans; eassumption|].
      exists (m :: news), (mkGenerated (name s) (day s) id (stepTemplate messageType s)
                                       (scheduledDate d s) :: gens).
      split; [rewrite Hms, Hm, <- app_assoc; reflexivity|].
      split; [rewrite Hacc, <- app_assoc; reflexivity|].
      split.
      { simpl. rewrite Ht, Hn. f_equal. f_equal.
        apply filter_ext_in. intros s' Hin.
        apply generates_after_insert with (m := m); try assumption.
        rewrite Ht. intros Heq. apply Hnotin. rewrite Heq. now apply in_map. }
      split; [simpl; now rewrite Hg, Ht|].
      constructor; auto.
    + rewrite Hc. apply (IH Hrest); assumption.
Qed.

Lemma llcSequence_good (messageType : string) : good_steps messageType llcSequence.
Proof.
  unfold good_steps, llcSequence, stepTemplate.
  destruct (String.eqb messageType "sms"); simpl; split;
    try (repeat constructor);
    try (simpl; intros H;
         repeat (destruct H as [H|H]; [discriminate H|]); exact H).
Qed.

(** A run in which no step generates leaves the store as it is. *)
Lemma sequence_loop_noop (now d : Z) (leadId campaignId : uuid)
      (messageType : string) (steps : list step) :
  Forall (fun s => truthy (Some (stepTemplate messageType s)) = true) steps ->
  forall (st : store) (acc : list generated),
    (forall s, In s steps ->
               generates st now d leadId campaignId messageType s = false) ->
    sequence_loop now d leadId campaignId messageType steps st acc = (st, acc).
Proof.
  induction steps as [|s rest IH]; intros Hne st acc Hno; [reflexivity|].
  apply Forall_cons_iff in Hne. destruct Hne as [Hs Hne].
  assert (Hrest : forall s', In s' rest ->
            generates st now d leadId campaignId messageType s' = false)
    by (intros s' Hin; apply Hno; now right).
  specialize (Hno s (or_introl eq_refl)). unfold generates, no_existing in Hno.
  simpl. rewrite due_spec.
  destruct (due now d s); simpl in *; [|now apply IH].
  destruct (existing st leadId campaignId (stepTemplate messageType s));
    simpl in *; [|now apply IH].
  pose proof (createCampaignMessage_spec st now leadId campaignId _ Hs) as Hc.
  destruct (createCampaignMessage st now leadId campaignId
              (Some (stepTemplate messageType s))) as [[st1 [id md]]|e].
  - destruct Hc as (Hcr & _). congruence.
  - now apply IH.
Qed.

Lemma NoDup_map_filter {A B : Type} (f : A -> B) (g : A -> bool) (l : list A) :
  NoDup (map f l) -> NoDup (map f (filter g l)).
Proof.
  induction l as [|a l IH]; simpl; intros H; [constructor|].
  apply NoDup_cons_iff in H. destruct H as [Hnotin Hnd].
  destruct (g a); simpl; [|now apply IH].
  constructor; [|now apply IH].
  intros Hin. apply Hnotin. apply in_map_iff in Hin.
  destruct Hin as (x & Hx & Hin). apply filter_In in Hin.
  apply in_map_iff. exists x. tauto.
Qed.

(** Rows of one lead and campaign are told apart by their template. *)
Lemma filter_key_count (leadId campaignId : uuid) (t : string) (news : list message) :
  Forall (fun m => msg_lead_id m = leadId
                   /\ campaign_id m = Some campaignId
                   /\ msg_status m = pending) news ->
  List.length (filter (key_matches leadId campaignId t) news)
  = count_occ string_dec (map template_name news) t.
Proof.
  induction 1 as [|m news (Hl & Hc & _) _ IH]; [reflexivity|].
  simpl. destruct (string_dec (template_name m) t) as [Heq|Hne].
  - assert (Hk : key_matches leadId campaignId t m = true)
      by (apply key_matches_iff; auto).
    rewrite Hk. simpl. now rewrite IH.
  - destruct (key_matches leadId campaignId t m) eqn:Hk; [|exact IH].
    apply key_matches_iff in Hk. tauto.
Qed.

Lemma count_generated (messageType : string) (g : step -> bool) (steps : list step)
      (s : step) :
  NoDup (map (stepTemplate messageType) steps) ->
  In s steps ->
  count_occ string_dec (map (stepTemplate messageType) (filter g steps))
            (stepTemplate messageType s)
  = if g s then 1%nat else 0%nat.
Proof.
  intros Hnd Hin.
  pose proof (NoDup_map_filter (stepTemplate messageType) g steps Hnd) as Hnd'.
  destruct (g s) eqn:Hg.
  - apply NoDup_count_occ'; [exact Hnd'|].
    apply in_map. apply filter_In. auto.
  - apply count_occ_not_In. intros Hin'.
    apply in_map_iff in Hin'. destruct Hin' as (s' & Heq & Hin').
    apply filter_In in Hin'. destruct Hin' as [Hin' Hg'].
    assert (s' = s); [|congruence].
    clear Hnd' Hg Hg'. induction steps as [|a l IH]; [contradiction|].
    simpl in Hnd. apply NoDup_cons_iff in Hnd. destruct Hnd as [Hnotin Hnd].
    destruct Hin as [->|Hin], Hin' as [->|Hin']; auto.
    + exfalso. apply Hnotin. rewrite <- Heq. now apply in_map.
    + exfalso. apply Hnotin. rewrite Heq. now apply in_map.
Qed.

(** After the loop, the rows under the key of a step are those of before,
    and one more exactly when the step generates. *)
Lemma sequence_loop_count (now d : Z) (leadId campaignId : uuid)
      (messageType : string) (steps : list step) (st st' : store)
      (acc acc' : list generated) (s : step) :
  good_steps messageType steps ->
  sequence_loop now d leadId campaignId messageType steps st acc = (st', acc') ->
  In s steps ->
  exists added,
    existing st' leadId campaignId (stepTemplate messageType s)
    = existing st leadId campaignId (stepTemplate messageType s) ++ added
    /\ List.length added
       = (if generates st now d leadId campaignId messageType s then 1 else 0)%nat
    /\ (In (stepTemplate messageType s) (map g_templateName acc')
        -> In (stepTemplate messageType s) (map g_templateName acc)
           \/ generates st now d leadId campaignId messageType s = true).
Proof.
  intros Hgood Hrun Hin.
  destruct (sequence_loop_spec now d leadId campaignId messageType steps Hgood
                               st acc st' acc' Hrun)
    as (_ & news & gens & Hms & Hacc & Hn & Hg & Hall).
  exists (filter (key_matches leadId campaignId (stepTemplate messageType s)) news).
  split; [now apply existing_messages|].
  split.
  - rewrite (filter_key_count _ _ _ _ Hall), Hn.
    apply count_generated; [apply Hgood|exact Hin].
  - rewrite Hacc, map_app, in_app_iff, Hg, Hn. intros [H|H]; [now left|right].
    pose proof (count_generated messageType
                  (generates st now d leadId campaignId messageType) steps s
                  (proj1 Hgood) Hin) as Hc.
    destruct (generates st now d leadId campaignId messageType s); [reflexivity|].
    apply count_occ_not_In in Hc. contradiction.
Qed.

Lemma find_lead_same_tables (st st' : store) (leadId : uuid) :
  same_tables st st' -> find_lead st' leadId = find_lead st leadId.
Proof. intros (Hl & _). unfold find_lead. now rewrite Hl. Qed.

(** The shape of a run that gets past its two guards. *)
Lemma generateSequenceMessages_run (st : store) (now : Z) (leadId campaignId : uuid)
      (messageType : string) (st' : store) (r : sequenceResult) :
  generateSequenceMessages st now leadId campaignId messageType = Ok (st', r) ->
  exists l d,
    find_lead st leadId = Some l /\ registration_date l = Some d
    /\ sequence_loop now d leadId campaignId messageType llcSequence st []
       = (st', generatedMessages r).
Proof.
  unfold generateSequenceMessages. intros H.
  destruct (find_lead st leadId) as [l|]; [|discriminate].
  destruct (registration_date l) as [d|] eqn:Hd; [|discriminate].
  destruct (sequence_loop now d leadId campaignId messageType llcSequence st [])
    as [st1 gen] eqn:Hloop.
  inversion H; subst. exists l, d. auto.
Qed.

(** A run adds nothing under a key that already holds a row, whatever the
    status of that row, and does not report the step as generated. *)
Lemma generateSequenceMessages_keeps_existing (st : store) (now : Z)
      (leadId campaignId : uuid) (messageType : string) (st' : store)
      (r : sequenceResult) (s : step) :
  generateSequenceMessages st now leadId campaignId messageType = Ok (st', r) ->
  In s llcSequence ->
  existing st leadId campaignId (stepTemplate messageType s) <> [] ->
  existing st' leadId campaignId (stepTemplate messageType s)
  = existing st leadId campaignId (stepTemplate messageType s)
  /\ ~ In (stepTemplate messageType s) (map g_templateName (generatedMessages r)).
Proof.
  intros Hrun Hin Hex.
  apply generateSequenceMessages_run in Hrun.
  destruct Hrun as (l & d & _ & _ & Hloop).
  destruct (sequence_loop_count now d leadId campaignId messageType llcSequence
              st st' [] (generatedMessages r) s (llcSequence_good messageType)
              Hloop Hin) as (added & Heq & Hlen & Hgen).
  assert (Hg : generates st now d leadId campaignId messageType s = false).
  { unfold generates, no_existing.
    destruct (existing st leadId campaignId (stepTemplate messageType s));
      [congruence|].
    now rewrite andb_false_r. }
  rewrite Hg in Hlen, Hgen. destruct added; [|discriminate].
  rewrite app_nil_r in Heq. split; [exact Heq|].
  intros H. destruct (Hgen H) as [[]|]; discriminate.
Qed.

(** After a run no step of the sequence generates any more at that instant. *)
Lemma generates_false_after_run (st : store) (now d : Z) (leadId campaignId : uuid)
      (messageType : string) (st' : store) (acc' : list generated) (s : step) :
  sequence_loop now d leadId campaignId messageType llcSequence st [] = (st', acc') ->
  In s llcSequence ->
  generates st' now d leadId campaignId messageType s = false.
Proof.
  intros Hloop Hin.
  destruct (sequence_loop_spec now d leadId campaignId messageType llcSequence
              (llcSequence_good messageType) st [] st' acc' Hloop) as (Hsame & _).
  destruct (sequence_loop_count now d leadId campaignId messageType llcSequence
              st st' [] acc' s (llcSequence_good messageType) Hloop Hin)
    as (added & Heq & Hlen & _).
  unfold generates, no_existing in *.
  rewrite (creatable_same_tables _ _ leadId campaignId _ Hsame), Heq.
  destruct (due now d s); [|reflexivity].
  destruct (existing st leadId campaignId (stepTemplate messageType s)); simpl in *.
  - destruct (creatable st leadId campaignId (stepTemplate messageType s));
      [|now rewrite andb_false_r].
    destruct added; [discriminate|reflexivity].
  - reflexivity.
Qed.

(** C1.  Running the sequence generation twice in succession never yields two
    Messages for a step.  For every store (so for rows of any status): a run
    adds nothing under a key (lead, campaign, template) that already holds a
    row and leaves at most one row where there was none; a second run at the
    same instant changes nothing and generates nothing; a later run adds
    nothing under the keys the first run filled; and a step that is due, had
    no row and meets no configuration error has exactly one row after both
    runs. *)
Theorem generateSequenceMessages_idempotent
        (st : store) (now : Z) (leadId campaignId : uuid) (messageType : string)
        (st1 : store) (r1 : sequenceResult) :
  generateSequenceMessages st now leadId campaignId messageType = Ok (st1, r1) ->
  (exists r2,
      generateSequenceMessages st1 now leadId campaignId messageType = Ok (st1, r2)
      /\ generatedMessages r2 = [])
  /\ (forall s, In s llcSequence ->
        let t := stepTemplate messageType s in
        (List.length (existing st1 leadId campaignId t)
         <= Nat.max 1 (List.length (existing st leadId campaignId t)))%nat
        /\ (existing st leadId campaignId t <> [] ->
            existing st1 leadId campaignId t = existing st leadId campaignId t
            /\ ~ In t (map g_templateName (generatedMessages r1)))
        /\ (forall now' st2 r2,
               generateSequenceMessages st1 now' leadId campaignId messageType
               = Ok (st2, r2) ->
               existing st1 leadId campaignId t <> [] ->
               existing st2 leadId campaignId t = existing st1 leadId campaignId t
               /\ ~ In t (map g_templateName (generatedMessages r2)))
        /\ (forall l d,
               find_lead st leadId = Some l -> registration_date l = Some d ->
               due now d s = true ->
               existing st leadId campaignId t = [] ->
               creatable st leadId campaignId t = true ->
               List.length (existing st1 leadId campaignId t) = 1%nat)).
Proof.
  intros Hrun.
  pose proof (generateSequenceMessages_run _ _ _ _ _ _ _ Hrun) as (l & d & Hl & Hd & Hloop).
  destruct (sequence_loop_spec now d leadId campaignId messageType llcSequence
              (llcSequence_good messageType) st [] st1 _ Hloop) as (Hsame & _).
  split.
  - unfold generateSequenceMessages.
    rewrite (find_lead_same_tables _ _ leadId Hsame), Hl, Hd.
    rewrite (sequence_loop_noop now d leadId campaignId messageType llcSequence
               (proj2 (llcSequence_good messageType)) st1 []).
    + eexists. split; reflexivity.
    + intros s Hin. eapply generates_false_after_run; eassumption.
  - intros s Hin t.
    destruct (sequence_loop_count now d leadId campaignId messageType llcSequence
                st st1 [] (generatedMessages r1) s (llcSequence_good messageType)
                Hloop Hin) as (added & Heq & Hlen & _).
    fold t in Heq.
    split; [|split; [|split]].
    + rewrite Heq, length_app, Hlen.
      unfold generates, no_existing. fold t.
      destruct (existing st leadId campaignId t); simpl.
      * destruct (due now d s && true && creatable st leadId campaignId t); simpl; lia.
      * rewrite andb_false_r. simpl. lia.
    + intros Hex. eapply generateSequenceMessages_keeps_existing; eassumption.
    + intros now' st2 r2 Hrun2 Hex.
      eapply generateSequenceMessages_keeps_existing; eassumption.
    + intros l' d' Hl' Hd' Hdue Hnone Hcr.
      assert (d' = d) by congruence. subst d'.
      rewrite Heq, length_app, Hlen.
      unfold generates, no_existing. fold t. rewrite Hnone, Hdue, Hcr. reflexivity.
Qed.

(** Scenario A of the specification: three days after registration the
    steps of day 1 and day 3 are generated, and a second run generates
    nothing. *)
Lemma generateSequenceMessages_idempotent_witness :
  exists st1 r1,
    generateSequenceMessages Sample.shop Sample.three_days_later 1 10 "email"
    = Ok (st1, r1)
    /\ map g_templateName (generatedMessages r1)
       = ["llc_day1_ein_email"; "llc_day3_banking_email"]
    /\ exists r2,
        generateSequenceMessages st1 Sample.three_days_later 1 10 "email"
        = Ok (st1, r2)
        /\ generatedMessages r2 = [].
Proof.
  destruct (generateSequenceMessages Sample.shop Sample.three_days_later 1 10 "email")
    as [[st1 r1]|e] eqn:Hrun; [|vm_compute in Hrun; discriminate].
  exists st1, r1. split; [reflexivity|].
  split; [vm_compute in Hrun; inversion Hrun; reflexivity|].
  exact (proj1 (generateSequenceMessages_idempotent
                  Sample.shop Sample.three_days_later 1 10 "email" st1 r1 Hrun)).
Defined.



(** C4, as the claim states it, fails: the store takes a second row under a
    key it already holds.  Two calls of [createCampaignMessage] for the same
    lead, campaign and template both succeed and leave two rows. *)
Lemma messages_key_not_unique :
  exists st1 x st2 y,
    createCampaignMessage Sample.shop Sample.three_days_later 1 10
                          (Some "llc_day1_ein_email") = Ok (st1, x)
    /\ createCampaignMessage st1 Sample.three_days_later 1 10
                             (Some "llc_day1_ein_email") = Ok (st2, y)
    /\ map (fun m => (msg_id m, msg_lead_id m, campaign_id m, template_name m))
           (messages st2)
       = [ (1000, 1, Some 10, "llc_day1_ein_email");
           (1001, 1, Some 10, "llc_day1_ein_email") ].
Proof.
  do 4 eexists. split; [vm_compute; reflexivity|].
  split; vm_compute; reflexivity.
Qed.

(** C4, amended.  The messages table has no constraint on
    (lead_id, campaign_id, template_name): whether [createCampaignMessage]
    succeeds does not depend on the rows the key already holds, and when it
    succeeds it adds one more row under the key.  Duplicates of a sequence
    step are prevented by the check-then-insert of
    [generateSequenceMessages] alone: a run adds nothing under a key that
    holds a row. *)
Theorem sequence_key_guarded_in_application_only
        (st : store) (now : Z) (leadId campaignId : uuid) :
  (forall t,
      truthy (Some t) = true ->
      creatable st leadId campaignId t = true ->
      exists st1 x,
        createCampaignMessage st now leadId campaignId (Some t) = Ok (st1, x)
        /\ List.length (existing st1 leadId campaignId t)
           = S (List.length (existing st leadId campaignId t))
        /\ creatable st1 leadId campaignId t = true)
  /\ (forall messageType st' r s,
         generateSequenceMessages st now leadId campaignId messageType = Ok (st', r) ->
         In s llcSequence ->
         existing st leadId campaignId (stepTemplate messageType s) <> [] ->
         existing st' leadId campaignId (stepTemplate messageType s)
         = existing st leadId campaignId (stepTemplate messageType s)).
Proof.
  split.
  - intros t Ht Hcr.
    pose proof (createCampaignMessage_spec st now leadId campaignId t Ht) as Hs.
    destruct (createCampaignMessage st now leadId campaignId (Some t))
      as [[st1 [id md]]|e]; [|congruence].
    destruct Hs as (_ & Hsame & _ & m & Hm & _ & Hl & Hcamp & Hn & _).
    exists st1, (id, md). split; [reflexivity|]. split.
    + rewrite (existing_messages _ _ leadId campaignId t _ Hm), length_app. simpl.
      assert (Hk : key_matches leadId campaignId t m = true)
        by (apply key_matches_iff; auto).
      rewrite Hk. simpl. lia.
    + now rewrite (creatable_same_tables _ _ leadId campaignId t Hsame).
  - intros messageType st' r s Hrun Hin Hex.
    eapply generateSequenceMessages_keeps_existing; eassumption.
Qed.

Lemma sequence_key_guarded_in_application_only_witness :
  exists st1 x,
    createCampaignMessage Sample.shop Sample.three_days_later 1 10
                          (Some "llc_day1_ein_email") = Ok (st1, x)
    /\ List.length (existing st1 1 10 "llc_day1_ein_email") = 1%nat
    /\ creatable st1 1 10 "llc_day1_ein_email" = true
    /\ exists r,
        generateSequenceMessages st1 Sample.three_days_later 1 10 "email" = Ok r
        /\ existing (fst r) 1 10 "llc_day1_ein_email"
           = existing st1 1 10 "llc_day1_ein_email".
Proof.
  destruct (proj1 (sequence_key_guarded_in_application_only
                     Sample.shop Sample.three_days_later 1 10)
                  "llc_day1_ein_email" eq_refl eq_refl)
    as (st1 & x & Hc & Hlen & Hcr).
  exists st1, x. split; [exact Hc|]. split; [exact Hlen|]. split; [exact Hcr|].
  destruct (generateSequenceMessages st1 Sample.three_days_later 1 10 "email")
    as [[st2 r]|e] eqn:Hrun;
    [|vm_compute in Hc; inversion Hc; subst; vm_compute in Hrun; discriminate].
  exists (st2, r). split; [reflexivity|]. simpl.
  apply (proj2 (sequence_key_guarded_in_application_only
                  st1 Sample.three_days_later 1 10)
               "email" st2 r (mkStep 1 "EIN / Tax ID" "llc_day1_ein_sms"
                                     "llc_day1_ein_email") Hrun).
  - now left.
  - intros Hnil. change (existing st1 1 10 "llc_day1_ein_email" = []) in Hnil.
    rewrite Hnil in Hlen. discriminate.
Defined.

End SequenceFacts.

(** ** Campaign admission *)

Module AdmissionFacts.

Import MessageGeneration MessageWorker AdmissionVocabulary.

Lemma createCampaignMessage_appends (st : store) (now : Z) (leadId campaignId : uuid)
      (templateName : option string) (st' : store) (x : uuid * messageData) :
  createCampaignMessage st now leadId campaignId templateName = Ok (st', x) ->
  leads st' = leads st /\ campaigns st' = campaigns st
  /\ opt_outs st' = opt_outs st
  /\ exists m, messages st' = messages st ++ [m]
               /\ msg_lead_id m = leadId
               /\ campaign_id m = Some campaignId
               /\ msg_status m = pending.
Proof.
  unfold createCampaignMessage.
  destruct (find_campaign st campaignId) as [c|]; [|discriminate].
  set (t := if truthy templateName then _ else _). clearbody t.
  destruct (generateMessage st leadId t) as [md|e] eqn:Hg; [|discriminate].
  simpl. intros H. inversion H; subst; clear H. simpl.
  apply SequenceFacts.generateMessage_templateName in Hg. destruct Hg as [Hl _].
  repeat split. eexists. split; [reflexivity|]. simpl. auto.
Qed.

Lemma generate_for_leads_spec (now : Z) (campaignId : uuid) (ls : list lead) :
  forall (st : store) (n : Z) (st' : store) (n' : Z),
    generate_for_leads now campaignId ls st n = (st', n') ->
    exists news,
      messages st' = messages st ++ news
      /\ n' = n + Z.of_nat (List.length news)
      /\ (List.length news <= List.length ls)%nat
      /\ Forall (fun m => campaign_id m = Some campaignId
                          /\ msg_status m = pending) news.
Proof.
  induction ls as [|l rest IH]; intros st n st' n' H; simpl in H.
  - inversion H; subst. exists []. rewrite app_nil_r. simpl.
    split; [reflexivity|]. split; [lia|]. split; [lia|constructor].
  - destruct (createCampaignMessage st now (lead_id l) campaignId None)
      as [[st1 x]|e] eqn:Hc.
    + apply createCampaignMessage_appends in Hc.
      destruct Hc as (_ & _ & _ & m & Hm & _ & Hcamp & Hst).
      destruct (IH _ _ _ _ H) as (news & Hms & Hn & Hlen & Hall).
      exists (m :: news). rewrite Hms, Hm, <- app_assoc. simpl.
      split; [reflexivity|]. split; [lia|]. split; [lia|]. constructor; auto.
    + destruct (IH _ _ _ _ H) as (news & Hms & Hn & Hlen & Hall).
      exists news. simpl. split; [exact Hms|]. split; [exact Hn|].
      split; [lia|exact Hall].
Qed.

Lemma limit_offset_length {A : Type} (limit offset : Z) (l : list A) :
  0 <= limit -> Z.of_nat (List.length (limit_offset limit offset l)) <= limit.
Proof.
  intros H. unfold limit_offset. rewrite length_firstn. lia.
Qed.

Lemma count_rows_ext (f g : message -> bool) (h : message -> message)
      (ms : list message) :
  (forall m, g (h m) = f m) ->
  count_rows g (map h ms) = count_rows f ms.
Proof.
  intros H. unfold count_rows. f_equal.
  induction ms as [|m ms IH]; [reflexivity|].
  simpl. rewrite H. destruct (f m); simpl; now rewrite IH.
Qed.

(** C3, as the claim states it, fails: the counts behind the capacity are
    not those of sent or delivered Messages.  With an hourly cap of one and
    one Message of the campaign created this hour and still pending, the
    specified capacity is 1 while [processCampaign] computes 0 and skips the
    campaign. *)
Lemma admission_counts_created_rows :
  spec_capacity AdmissionSample.busy_shop Sample.three_days_later
                AdmissionSample.trickle = 1
  /\ capacity AdmissionSample.busy_shop Sample.three_days_later
              AdmissionSample.trickle = 0
  /\ processCampaign (fun _ _ => false) AdmissionSample.busy_shop
                     Sample.three_days_later AdmissionSample.trickle
     = Ok (AdmissionSample.busy_shop, HourlyLimitReached).
Proof. repeat split; vm_compute; reflexivity. Qed.

(** C3, amended.  The capacity of a tick is
    min(dailyCap - created today, hourlyCap - created this hour, 50), where
    the counts are of the campaign's Messages by creation time, in any
    status.  When it is <= 0 the campaign is skipped: the run returns
    without an error and leaves the store as it is.  When it is positive, a
    run that returns has created at most that many pending Messages of the
    campaign. *)
Theorem processCampaign_admission
        (ilike_contains : string -> string -> bool)
        (st : store) (now : Z) (c : campaign) :
  capacity st now c
  = Z.min (Z.min (daily_limit c - todayCount st now (camp_id c))
                 (hourly_limit c - thisHourCount st now (camp_id c))) 50
  /\ (forall s t,
         todayCount (with_messages st (map (set_status s t) (messages st)))
                    now (camp_id c) = todayCount st now (camp_id c)
         /\ thisHourCount (with_messages st (map (set_status s t) (messages st)))
                          now (camp_id c) = thisHourCount st now (camp_id c))
  /\ (capacity st now c <= 0 ->
      exists o, processCampaign ilike_contains st now c = Ok (st, o)
                /\ (o = DailyLimitReached \/ o = HourlyLimitReached \/ o = NoCapacity))
  /\ (0 < capacity st now c ->
      forall st' o,
        processCampaign ilike_contains st now c = Ok (st', o) ->
        exists news,
          messages st' = messages st ++ news
          /\ Z.of_nat (List.length news) <= capacity st now c
          /\ Forall (fun m => campaign_id m = Some (camp_id c)
                              /\ msg_status m = pending) news
          /\ (o = NoLeads \/ o = Generated (Z.of_nat (List.length news)))).
Proof.
  split; [reflexivity|].
  split.
  { intros s t. unfold todayCount, thisHourCount. simpl.
    split; apply (count_rows_ext _ _ (set_status s t)); intros m; reflexivity. }
  unfold capacity, processCampaign.
  set (today := todayCount st now (camp_id c)).
  set (hour := thisHourCount st now (camp_id c)).
  split.
  - intros Hcap.
    destruct (daily_limit c <=? today) eqn:Hd; [eexists; split; [reflexivity|auto]|].
    destruct (hourly_limit c <=? hour) eqn:Hh; [eexists; split; [reflexivity|auto]|].
    destruct (generateLimit c today hour <=? 0) eqn:Hg;
      [eexists; split; [reflexivity|auto]|].
    apply Z.leb_gt in Hg. lia.
  - intros Hcap st' o.
    destruct (daily_limit c <=? today) eqn:Hd;
      [apply Z.leb_le in Hd; unfold generateLimit in Hcap; lia|].
    destruct (hourly_limit c <=? hour) eqn:Hh;
      [apply Z.leb_le in Hh; unfold generateLimit in Hcap; lia|].
    destruct (generateLimit c today hour <=? 0) eqn:Hg;
      [apply Z.leb_le in Hg; lia|].
    unfold LeadFiltering.getLeadsForCampaign.
    destruct (find _ (campaigns st)) as [c'|]; [|discriminate].
    cbn [bind].
    match goal with
    | |- context [LeadFiltering.getFilteredLeads ?a ?b ?n ?f ?o] =>
      set (fl := LeadFiltering.getFilteredLeads a b n f o)
    end.
    assert (Hlen : Z.of_nat (List.length (LeadFiltering.fl_leads fl))
                   <= generateLimit c today hour).
    { unfold fl, LeadFiltering.getFilteredLeads. simpl.
      apply limit_offset_length. lia. }
    destruct (LeadFiltering.fl_leads fl) as [|l ls] eqn:Hls.
    + intros H. inversion H; subst. exists []. rewrite app_nil_r. simpl.
      split; [reflexivity|]. split; [lia|]. split; [constructor|now left].
    + destruct (generate_for_leads now (camp_id c) (l :: ls) st 0)
        as [st1 n] eqn:Hgen.
      apply generate_for_leads_spec in Hgen.
      destruct Hgen as (news & Hms & Hn & Hle & Hall).
      intros H. inversion H; subst; clear H.
      exists news. split.
      { destruct (0 <? 0 + Z.of_nat (List.length news)); [simpl|]; exact Hms. }
      split; [lia|]. split; [exact Hall|]. right. f_equal.
Qed.

(** Scenario B of the specification: an hourly cap of five and five
    Messages of the campaign this hour; the capacity is 0 and the campaign
    is skipped. *)
Lemma processCampaign_admission_witness :
  capacity AdmissionSample.full_hour_shop Sample.three_days_later
           AdmissionSample.five_an_hour = 0
  /\ exists o,
      processCampaign (fun _ _ => false) AdmissionSample.full_hour_shop
                      Sample.three_days_later AdmissionSample.five_an_hour
      = Ok (AdmissionSample.full_hour_shop, o)
      /\ (o = DailyLimitReached \/ o = HourlyLimitReached \/ o = NoCapacity).
Proof.
  split; [vm_compute; reflexivity|].
  apply (proj1 (proj2 (proj2 (processCampaign_admission
                                (fun _ _ => false) AdmissionSample.full_hour_shop
                                Sample.three_days_later
                                AdmissionSample.five_an_hour)))).
  vm_compute. discriminate.
Defined.

End AdmissionFacts.

(** ** Rate counters *)

Module CounterFacts.

Import MessageWorker.

(** C5, as the claim states it, fails: the resets at the hour and day
    boundaries do not read the store.  Half a second after midnight, with
    one Message already sent in the new hour and day, both resets leave the
    cached counter at 0 while the store-derived count is 1. *)
Lemma boundary_reset_not_reconciled :
  hourlyMessageCount
    (resetHourlyCounter (constructor Sample.three_days_later)
                        DispatchSample.after_midnight) = 0
  /\ count_sent_since [DispatchSample.sent_after_midnight]
       (Clock.DATE_TRUNC_hour DispatchSample.after_midnight) = 1
  /\ dailyMessageCount
       (resetDailyCounter (constructor Sample.three_days_later)
                          DispatchSample.after_midnight) = 0
  /\ count_sent_since [DispatchSample.sent_after_midnight]
       (Clock.DATE_TRUNC_day DispatchSample.after_midnight) = 1.
Proof. repeat split; vm_compute; reflexivity. Qed.

(** C5, amended.  [resetCounters], which runs at process start, sets both
    cached counters to the store-derived counts (Messages with status sent
    or delivered, sent since the start of the current hour and day).  The
    boundary resets do not consult the store: [resetHourlyCounter] sets the
    hourly counter to 0 and [resetDailyCounter] the daily counter to 0, each
    leaving the other counter as it is. *)
Theorem counters_reconciled_at_start
        (w : worker) (s : settings) (ms : list message) (now : Z) :
  (hourlyMessageCount (resetCounters w ms now)
   = count_sent_since ms (Clock.DATE_TRUNC_hour now)
   /\ dailyMessageCount (resetCounters w ms now)
      = count_sent_since ms (Clock.DATE_TRUNC_day now)
   /\ lastHourReset (resetCounters w ms now) = Clock.getHours now
   /\ lastDayReset (resetCounters w ms now) = Clock.getDate now)
  /\ (hourlyMessageCount (start w s ms now)
      = count_sent_since ms (Clock.DATE_TRUNC_hour now)
      /\ dailyMessageCount (start w s ms now)
         = count_sent_since ms (Clock.DATE_TRUNC_day now))
  /\ (hourlyMessageCount (resetHourlyCounter w now) = 0
      /\ dailyMessageCount (resetHourlyCounter w now) = dailyMessageCount w
      /\ lastHourReset (resetHourlyCounter w now) = Clock.getHours now)
  /\ (dailyMessageCount (resetDailyCounter w now) = 0
      /\ hourlyMessageCount (resetDailyCounter w now) = hourlyMessageCount w
      /\ lastDayReset (resetDailyCounter w now) = Clock.getDate now).
Proof.
  split; [|split; [|split]]; try (repeat split; reflexivity).
  unfold resetCounters.
  destruct (Z.eqb_spec (Clock.getHours now) (lastHourReset w)) as [Hh|Hh];
    simpl;
    destruct (Z.eqb_spec (Clock.getDate now) (lastDayReset w)) as [Hd|Hd];
    simpl; repeat split; auto.
Qed.

End CounterFacts.

(** ** Health monitor *)

Module HealthFacts.

Import MessageWorker.

Lemma count_rows_zero (f : message -> bool) (ms : list message) :
  count_rows f ms = 0 -> forall m, In m ms -> f m = false.
Proof.
  unfold count_rows. intros H m Hin.
  destruct (f m) eqn:Hf; [|reflexivity].
  assert (Hin' : In m (filter f ms)) by (apply filter_In; auto).
  destruct (filter f ms); [contradiction|]. simpl in H. lia.
Qed.

Lemma update_messages_ok (status_check : status -> bool) (sel : message -> bool)
      (upd : message -> message) (ms : list message) :
  (forall m, status_check (msg_status (upd m)) = true) ->
  update_messages status_check sel upd ms
  = Ok (map (fun m => if sel m then upd m else m) ms).
Proof.
  intros H. unfold update_messages.
  replace (forallb _ ms) with true; [reflexivity|].
  symmetry. apply forallb_forall. intros m _. rewrite H. now destruct (sel m).
Qed.




End HealthFacts.

(** ** Dispatch *)

Module DispatchFacts.

Import MessageWorker DispatchVocabulary.

Lemma keeps_others_refl (id : uuid) (ms : list message) : keeps_others id ms ms.
Proof. intros m H _. exact H. Qed.

Lemma keeps_others_trans (id : uuid) (a b c : list message) :
  keeps_others id a b -> keeps_others id b c -> keeps_others id a c.
Proof. intros H1 H2 m Hin Hne. apply H2; [apply H1|]; assumption. Qed.

Lemma update_messages_keeps (status_check : status -> bool) (id : uuid)
      (upd : message -> message) (ms ms' : list message) :
  update_messages status_check (has_id id) upd ms = Ok ms' ->
  keeps_others id ms ms'.
Proof.
  unfold update_messages. destruct (forallb _ ms); [|discriminate].
  intros H. inversion H; subst. intros m Hin Hne.
  apply in_map_iff. exists m. split; [|exact Hin].
  unfold has_id. destruct (Z.eqb_spec (msg_id m) id); [contradiction|reflexivity].
Qed.

Lemma sms_sendWithRetry_bounds (left : nat) (p : provider) :
  forall calls,
    (calls < snd (SMSService.sendWithRetry_left left p calls) <= calls + S left)%nat.
Proof.
  induction left as [|left IH]; intros calls; simpl.
  - destruct (p calls); simpl; lia.
  - destruct (p calls); simpl; [lia|].
    specialize (IH (S calls)). lia.
Qed.

Lemma email_sendWithRetry_bounds (left : nat) (p : provider) :
  forall calls,
    (calls < snd (EmailService.sendWithRetry_left left p calls) <= calls + S left)%nat.
Proof.
  induction left as [|left IH]; intros calls; simpl.
  - destruct (p calls); simpl; lia.
  - destruct (p calls); simpl; [lia|].
    destruct (EmailService.isRetryableError code); simpl; [|lia].
    specialize (IH (S calls)). lia.
Qed.

(** Case analysis on the next UPDATE of the goal. *)
Ltac step_update :=
  cbn beta iota;
  match goal with
  | |- context [update_messages ?chk (has_id ?id) ?upd ?ms] =>
    let ms' := fresh "ms" in
    let Hu := fresh "Hu" in
    destruct (update_messages chk (has_id id) upd ms) as [ms'|] eqn:Hu;
    [apply update_messages_keeps in Hu|]
  end.

(** A send touches no row but the one it is called for, and asks the
    provider at most [maxRetries] times. *)
Lemma sendSMS_frame (status_check : status -> bool) (p : provider) (now : Z)
      (ms : list message) (calls : nat) (id : uuid) :
  keeps_others id ms (fst (fst (SMSService.sendSMS status_check p now ms calls id)))
  /\ (calls <= snd (fst (SMSService.sendSMS status_check p now ms calls id))
      <= calls + 3)%nat.
Proof.
  unfold SMSService.sendSMS, SMSService.sendSMS_try, SMSService.sendWithRetry.
  destruct (find (has_id id) ms) as [m|].
  2:{ step_update; simpl; (split; [|lia]);
      [assumption|apply keeps_others_refl]. }
  destruct (message_type m).
  2:{ step_update; simpl; (split; [|lia]);
      [assumption|apply keeps_others_refl]. }
  destruct (negb (truthy (recipient_phone m))).
  { step_update; simpl; (split; [|lia]);
      [assumption|apply keeps_others_refl]. }
  step_update.
  2:{ step_update; simpl; (split; [|lia]);
      [assumption|apply keeps_others_refl]. }
  pose proof (sms_sendWithRetry_bounds (SMSService.maxRetries - 1) p calls) as Hb.
  destruct (SMSService.sendWithRetry_left (SMSService.maxRetries - 1) p calls)
    as [[pid|e] calls']; simpl in Hb.
  - step_update; simpl in *.
    + split; [eapply keeps_others_trans; eassumption|lia].
    + step_update; simpl; (split; [|lia]);
        [eapply keeps_others_trans; eassumption|assumption].
  - step_update; simpl in *; (split; [|lia]);
      [eapply keeps_others_trans; eassumption|assumption].
Qed.

Lemma sendEmail_frame (status_check : status -> bool) (p : provider)
      (configured : bool) (now : Z) (ms : list message) (calls : nat) (id : uuid) :
  keeps_others id ms
    (fst (fst (EmailService.sendEmail status_check p configured now ms calls id)))
  /\ (calls <= snd (fst (EmailService.sendEmail status_check p configured now
                                                 ms calls id))
      <= calls + 3)%nat.
Proof.
  unfold EmailService.sendEmail, EmailService.sendEmail_try,
    EmailService.sendWithRetry.
  destruct (negb configured).
  { step_update; simpl; (split; [|lia]);
      [assumption|apply keeps_others_refl]. }
  destruct (find (has_id id) ms) as [m|].
  2:{ step_update; simpl; (split; [|lia]);
      [assumption|apply keeps_others_refl]. }
  destruct (message_type m).
  { step_update; simpl; (split; [|lia]);
      [assumption|apply keeps_others_refl]. }
  destruct (negb (truthy (recipient_email m))).
  { step_update; simpl; (split; [|lia]);
      [assumption|apply keeps_others_refl]. }
  destruct (negb (truthy (subject m))).
  { step_update; simpl; (split; [|lia]);
      [assumption|apply keeps_others_refl]. }
  step_update.
  2:{ step_update; simpl; (split; [|lia]);
      [assumption|apply keeps_others_refl]. }
  pose proof (email_sendWithRetry_bounds (EmailService.maxRetries - 1) p calls) as Hb.
  destruct (EmailService.sendWithRetry_left (EmailService.maxRetries - 1) p calls)
    as [[pid|e] calls']; simpl in Hb.
  - step_update; simpl in *.
    + split; [eapply keeps_others_trans; eassumption|lia].
    + step_update; simpl; (split; [|lia]);
        [eapply keeps_others_trans; eassumption|assumption].
  - step_update; simpl in *; (split; [|lia]);
      [eapply keeps_others_trans; eassumption|assumption].
Qed.

Lemma dispatch_loop_frame (status_check : status -> bool) (p : provider)
      (configured : bool) (now : Z) (batch : list message) :
  forall (w : worker) (ms : list message) (calls : nat),
    (forall m, In m ms -> ~ In (msg_id m) (map msg_id batch) ->
               In m (snd (fst (dispatch_loop status_check p configured now
                                             batch w ms calls))))
    /\ (calls <= snd (dispatch_loop status_check p configured now batch w ms calls)
        <= calls + 3 * List.length batch)%nat.
Proof.
  induction batch as [|b rest IH]; intros w ms calls; simpl.
  - split; [auto|lia].
  - assert (Hframe :
      keeps_others (msg_id b) ms
        (fst (fst (match message_type b with
                   | SMS => SMSService.sendSMS status_check p now ms calls (msg_id b)
                   | EMAIL => EmailService.sendEmail status_check p configured now
                                                     ms calls (msg_id b)
                   end)))
      /\ (calls <= snd (fst (match message_type b with
                   | SMS => SMSService.sendSMS status_check p now ms calls (msg_id b)
                   | EMAIL => EmailService.sendEmail status_check p configured now
                                                     ms calls (msg_id b)
                   end)) <= calls + 3)%nat).
    { destruct (message_type b); [apply sendSMS_frame|apply sendEmail_frame]. }
    destruct (match message_type b with
              | SMS => SMSService.sendSMS status_check p now ms calls (msg_id b)
              | EMAIL => EmailService.sendEmail status_check p configured now
                                                ms calls (msg_id b)
              end) as [[ms' calls'] r].
    simpl in Hframe. destruct Hframe as [Hkeep Hcalls].
    match goal with
    | |- context [dispatch_loop _ _ _ _ rest ?w' ms' calls'] =>
      destruct (IH w' ms' calls') as [IHkeep IHcalls]
    end.
    split.
    + intros m Hin Hnot. apply IHkeep.
      * apply Hkeep; [exact Hin|]. intros Heq. apply Hnot. now left.
      * intros Hin'. apply Hnot. now right.
    + lia.
Qed.

Lemma pendingMessages_In (ms : list message) (batchLimit : Z) (b : message) :
  In b (pendingMessages ms batchLimit) -> In b ms /\ msg_status b = pending.
Proof.
  unfold pendingMessages. intros H.
  apply limit_offset_In, order_by_In, filter_In in H.
  destruct H as [Hin Hs]. split; [exact Hin|].
  destruct (msg_status b); try discriminate; reflexivity.
Qed.

Lemma NoDup_map_eq {A B : Type} (f : A -> B) (l : list A) (a b : A) :
  NoDup (map f l) -> In a l -> In b l -> f a = f b -> a = b.
Proof.
  induction l as [|x l IH]; simpl; intros Hnd Ha Hb Heq; [contradiction|].
  apply NoDup_cons_iff in Hnd. destruct Hnd as [Hnotin Hnd].
  destruct Ha as [->|Ha], Hb as [->|Hb]; auto.
  - exfalso. apply Hnotin. rewrite Heq. now apply in_map.
  - exfalso. apply Hnotin. rewrite <- Heq. now apply in_map.
Qed.

(** A tick leaves every row that is not pending as it is. *)
Lemma processMessages_keeps_not_pending (status_check : status -> bool)
      (p : provider) (configured : bool) (w : worker) (ms : list message)
      (calls : nat) (now : Z) (m : message) :
  NoDup (map msg_id ms) ->
  In m ms -> msg_status m <> pending ->
  In m (snd (fst (processMessages status_check p configured w ms calls now))).
Proof.
  intros Hnd Hin Hs. unfold processMessages.
  destruct (isRunning w); [exact Hin|].
  destruct (_ <=? dailyMessageCount w); [exact Hin|].
  destruct (_ <=? hourlyMessageCount w); [exact Hin|].
  set (batchLimit := Z.min _ _).
  destruct (batchLimit <=? 0); [exact Hin|].
  pose proof (proj1 (dispatch_loop_frame status_check p configured now
                       (pendingMessages ms batchLimit) (set_running true w) ms calls))
    as Hkeep.
  destruct (dispatch_loop status_check p configured now
                          (pendingMessages ms batchLimit) (set_running true w) ms calls)
    as [[w' ms'] calls'].
  simpl in *. apply Hkeep; [exact Hin|].
  intros Hid. apply in_map_iff in Hid. destruct Hid as (b & Heq & Hb).
  apply pendingMessages_In in Hb. destruct Hb as [Hb Hpending].
  assert (b = m) by (eapply NoDup_map_eq; eassumption).
  subst b. contradiction.
Qed.

(** With no pending row a tick asks no provider and changes no row. *)
Lemma processMessages_nothing_pending (status_check : status -> bool)
      (p : provider) (configured : bool) (w : worker) (ms : list message)
      (calls : nat) (now : Z) :
  (forall m, In m ms -> msg_status m <> pending) ->
  snd (fst (processMessages status_check p configured w ms calls now)) = ms
  /\ snd (processMessages status_check p configured w ms calls now) = calls.
Proof.
  intros Hnone. unfold processMessages.
  destruct (isRunning w); [auto|].
  destruct (_ <=? dailyMessageCount w); [auto|].
  destruct (_ <=? hourlyMessageCount w); [auto|].
  set (batchLimit := Z.min _ _).
  destruct (batchLimit <=? 0); [auto|].
  assert (Hnil : pendingMessages ms batchLimit = []).
  { destruct (pendingMessages ms batchLimit) as [|b l] eqn:Hp; [reflexivity|].
    assert (Hb : In b (pendingMessages ms batchLimit)) by (rewrite Hp; now left).
    apply pendingMessages_In in Hb. destruct Hb as [Hb Hs].
    now apply Hnone in Hb. }
  rewrite Hnil. simpl. auto.
Qed.

(** C7, as the claim states it, fails: the services retry.  When the
    provider answers 503 to the first request and accepts the second, one
    call of [sendWithRetry], and so one dispatch of a Message on a store
    that admits status sending, asks the provider twice. *)
Lemma provider_asked_twice_in_one_dispatch :
  SMSService.sendWithRetry DispatchSample.flaky 0 1 = (Ok "pm-2", 2%nat)
  /\ EmailService.sendWithRetry DispatchSample.flaky 0 1 = (Ok "pm-2", 2%nat)
  /\ snd (fst (SMSService.sendSMS DispatchSample.any_status DispatchSample.flaky
                                  Sample.three_days_later
                                  [DispatchSample.ready_sms] 0 900)) = 2%nat.
Proof. repeat split; vm_compute; reflexivity. Qed.

(** C7, amended.  One dispatch of a Message asks the provider at most
    [maxRetries] = 3 times: [sendWithRetry] asks at least once and at most
    three times (SMS retries after any error, e-mail after the codes 429,
    500, 502, 503 and 504 only), and [sendSMS] and [sendEmail] ask at most
    three times.  A Message that is not pending, a failed one in particular,
    is terminal for the dispatcher: with unique Message keys a tick of
    [processMessages] leaves it as it is, and a tick that finds no pending
    Message asks no provider and changes no row. *)
Theorem dispatch_retries_bounded_failed_terminal
        (status_check : status -> bool) (p : provider) (configured : bool) :
  (forall calls,
      (calls < snd (SMSService.sendWithRetry p calls 1) <= calls + 3)%nat
      /\ (calls < snd (EmailService.sendWithRetry p calls 1) <= calls + 3)%nat)
  /\ (forall now ms calls id,
         (calls <= snd (fst (SMSService.sendSMS status_check p now ms calls id))
          <= calls + 3)%nat
         /\ (calls <= snd (fst (EmailService.sendEmail status_check p configured
                                                       now ms calls id))
             <= calls + 3)%nat)
  /\ (forall w ms calls now m,
         NoDup (map msg_id ms) ->
         In m ms -> msg_status m <> pending ->
         In m (snd (fst (processMessages status_check p configured w ms calls now))))
  /\ (forall w ms calls now,
         (forall m, In m ms -> msg_status m <> pending) ->
         snd (fst (processMessages status_check p configured w ms calls now)) = ms
         /\ snd (processMessages status_check p configured w ms calls now) = calls).
Proof.
  split; [|split; [|split]].
  - intros calls. split.
    + apply (sms_sendWithRetry_bounds (SMSService.maxRetries - 1)).
    + apply (email_sendWithRetry_bounds (EmailService.maxRetries - 1)).
  - intros now ms calls id. split.
    + apply sendSMS_frame.
    + apply sendEmail_frame.
  - intros. now apply processMessages_keeps_not_pending.
  - intros. now apply processMessages_nothing_pending.
Qed.

(** A tick over a pending and a failed Message, on a store that admits
    status sending and with a provider that fails once: the failed Message
    is left as it is. *)
Lemma dispatch_retries_bounded_failed_terminal_witness :
  In DispatchSample.dead
     (snd (fst (processMessages DispatchSample.any_status DispatchSample.flaky true
                                (constructor Sample.three_days_later)
                                [DispatchSample.ready_sms; DispatchSample.dead]
                                0 Sample.three_days_later))).
Proof.
  apply (proj1 (proj2 (proj2 (dispatch_retries_bounded_failed_terminal
                                DispatchSample.any_status DispatchSample.flaky true)))).
  - repeat constructor; simpl; intuition discriminate.
  - right. now left.
  - discriminate.
Defined.

Lemma update_to_sending_rejected (now : Z) (ms : list message) (id : uuid)
      (m : message) :
  find (has_id id) ms = Some m ->
  update_messages messages_status_check (has_id id) (set_status sending now) ms
  = Err CheckViolation.
Proof.
  intros Hfind. unfold update_messages.
  replace (forallb _ ms) with false; [reflexivity|].
  symmetry. apply not_true_is_false. intros Hall.
  apply find_some in Hfind. destruct Hfind as [Hin Hid].
  rewrite forallb_forall in Hall. specialize (Hall m Hin).
  rewrite Hid in Hall. discriminate.
Qed.

(** C10.  The status constraint of the repository's schema does not admit
    'sending'.  On a store under that constraint no send reaches the
    provider: the UPDATE to 'sending' at the start of [sendSMS] and
    [sendEmail] is rejected, and the pending Message handed to the service
    ends as failed, the constraint violation being its failure reason. *)
Theorem sending_rejected_by_status_check :
  messages_status_check sending = false
  /\ (forall p now ms calls id,
         snd (fst (SMSService.sendSMS messages_status_check p now ms calls id)) = calls)
  /\ (forall p configured now ms calls id,
         snd (fst (EmailService.sendEmail messages_status_check p configured
                                          now ms calls id)) = calls)
  /\ SMSService.sendSMS messages_status_check DispatchSample.accepting
                        Sample.three_days_later [DispatchSample.ready_sms] 0 900
     = ([set_failed "violates check constraint messages_status_check"
                    Sample.three_days_later DispatchSample.ready_sms],
        0%nat, Ok (mkSendResult false (Some CheckViolation)))
  /\ EmailService.sendEmail messages_status_check DispatchSample.accepting true
                            Sample.three_days_later [DispatchSample.ready_email] 0 901
     = ([set_failed "violates check constraint messages_status_check"
                    Sample.three_days_later DispatchSample.ready_email],
        0%nat, Ok (mkSendResult false (Some CheckViolation))).
Proof.
  split; [reflexivity|].
  split; [|split; [|split; vm_compute; reflexivity]].
  - intros p now ms calls id.
    unfold SMSService.sendSMS, SMSService.sendSMS_try.
    destruct (find (has_id id) ms) as [m|] eqn:Hfind.
    2:{ cbn beta iota. now destruct (update_messages _ _ _ ms). }
    destruct (message_type m).
    2:{ cbn beta iota. now destruct (update_messages _ _ _ ms). }
    destruct (negb (truthy (recipient_phone m))).
    { cbn beta iota. now destruct (update_messages _ _ _ ms). }
    rewrite (update_to_sending_rejected now ms id m Hfind).
    cbn beta iota. now destruct (update_messages _ _ _ ms).
  - intros p configured now ms calls id.
    unfold EmailService.sendEmail, EmailService.sendEmail_try.
    destruct (negb configured).
    { cbn beta iota. now destruct (update_messages _ _ _ ms). }
    destruct (find (has_id id) ms) as [m|] eqn:Hfind.
    2:{ cbn beta iota. now destruct (update_messages _ _ _ ms). }
    destruct (message_type m).
    { cbn beta iota. now destruct (update_messages _ _ _ ms). }
    destruct (negb (truthy (recipient_email m))).
    { cbn beta iota. now destruct (update_messages _ _ _ ms). }
    destruct (negb (truthy (subject m))).
    { cbn beta iota. now destruct (update_messages _ _ _ ms). }
    rewrite (update_to_sending_rejected now ms id m Hfind).
    cbn beta iota. now destruct (update_messages _ _ _ ms).
Qed.

(** On a store that admits status sending, a tick sends the pending Message
    through the provider (here after one retry), records the provider's
    key and advances both counters; the failed Message is not taken up. *)
Example processMessages_sends_pending :
  let '(w, ms, calls) :=
      processMessages DispatchSample.any_status DispatchSample.flaky true
                      (constructor Sample.three_days_later)
                      [DispatchSample.ready_sms; DispatchSample.dead]
                      0 Sample.three_days_later in
  map (fun m => (msg_id m, msg_status m, provider_message_id m)) ms
  = [(900, sent, Some "pm-2"); (902, failed, None)]
  /\ calls = 2%nat
  /\ (hourlyMessageCount w, dailyMessageCount w, isRunning w) = (1, 1, false).
Proof. vm_compute. repeat split. Qed.

End DispatchFacts.

(** ** Targeting *)

Module TargetingFacts.

Import LeadFiltering TargetingVocabulary.

Lemma nulls_last_leb_total (a b : option Z) :
  nulls_last_leb a b = true \/ nulls_last_leb b a = true.
Proof.
  destruct a, b; simpl; auto.
  destruct (Z.leb_spec z z0); [now left|right; apply Z.leb_le; lia].
Qed.

Lemma nulls_last_leb_trans (a b c : option Z) :
  nulls_last_leb a b = true -> nulls_last_leb b c = true -> nulls_last_leb a c = true.
Proof.
  destruct a, b, c; simpl; auto; try discriminate.
  rewrite !Z.leb_le. lia.
Qed.

(** With ascending order on the registration date the page is sorted oldest
    first, with descending order newest first. *)
Lemma registration_order_sorted (asc : bool) (limit offset : Z) (rows : list lead) :
  StronglySorted (if asc then oldest_first else newest_first)
                 (limit_offset limit offset
                    (order_by (order_leb ByRegistrationDate asc) rows)).
Proof.
  destruct asc.
  - change oldest_first
      with (fun a b => order_leb ByRegistrationDate true a b = true).
    apply limit_offset_StronglySorted; simpl; intros.
    + apply nulls_last_leb_total.
    + eapply nulls_last_leb_trans; eassumption.
  - change newest_first
      with (fun a b => order_leb ByRegistrationDate false a b = true).
    apply limit_offset_StronglySorted; simpl; intros.
    + apply nulls_last_leb_total.
    + eapply nulls_last_leb_trans; eassumption.
Qed.

(** The default registration window can hold for no lead: it asks for a
    registration within the last day and at least 365 days ago. *)
Lemma default_window_is_empty (ilike_contains : string -> string -> bool)
      (st : store) (now : Z) (f : filters) (l : lead) :
  f_minRegistrationDays f = None -> f_maxRegistrationDays f = None ->
  buildWhereClause ilike_contains st now f l = false.
Proof.
  intros Hmin Hmax. unfold buildWhereClause. rewrite Hmin, Hmax. simpl.
  destruct (registration_date l) as [reg|]; simpl.
  - destruct (Clock.DATE now - 1 <=? reg) eqn:H1;
      destruct (reg <=? Clock.DATE now - 365) eqn:H2;
      rewrite ?andb_false_r, ?andb_false_l; simpl;
        try reflexivity.
    apply Z.leb_le in H1, H2. lia.
  - now rewrite !andb_false_r.
Qed.

(** As [getLeadsForCampaign] leaves the default window in place, it selects
    no lead. *)
Lemma getLeadsForCampaign_selects_nothing (ilike_contains : string -> string -> bool)
      (st : store) (now : Z) (campaignId : uuid) (limit : Z) (r : filteredLeads) :
  getLeadsForCampaign ilike_contains st now campaignId limit = Ok r ->
  fl_leads r = [].
Proof.
  unfold getLeadsForCampaign.
  destruct (find _ (campaigns st)) as [c|]; [|discriminate].
  intros H. inversion H; subst; clear H.
  unfold getFilteredLeads. simpl.
  replace (filter _ (leads st)) with (@nil lead).
  - unfold limit_offset. simpl. now rewrite firstn_nil.
  - symmetry. induction (leads st) as [|l ls IH]; [reflexivity|].
    simpl. rewrite default_window_is_empty by reflexivity. exact IH.
Qed.

(** A sorted arrangement of three rows in strict order is that order. *)
Lemma sorted_three {A : Type} (R : A -> A -> Prop) (s : list A) (a b c : A) :
  (forall u, R u u) ->
  StronglySorted R s -> Permutation s [a; b; c] ->
  ~ R b a -> ~ R c a -> ~ R c b ->
  s = [a; b; c].
Proof.
  intros Hrefl Hsorted Hperm Hba Hca Hcb.
  pose proof (Permutation_length Hperm) as Hlen.
  destruct s as [|x [|y [|z [|]]]]; try discriminate.
  pose proof (Permutation_in a (Permutation_sym Hperm) (or_introl eq_refl)) as Ha.
  pose proof (Permutation_in b (Permutation_sym Hperm)
                             (or_intror (or_introl eq_refl))) as Hb.
  pose proof (Permutation_in c (Permutation_sym Hperm)
                             (or_intror (or_intror (or_introl eq_refl)))) as Hc.
  apply StronglySorted_inv in Hsorted. destruct Hsorted as [Hs Hx].
  apply StronglySorted_inv in Hs. destruct Hs as [_ Hy].
  inversion Hx as [|? ? Rxy Hx']; subst. inversion Hx' as [|? ? Rxz _]; subst.
  inversion Hy as [|? ? Ryz _]; subst.
  simpl in Ha, Hb, Hc.
  destruct Ha as [<-|[<-|[<-|[]]]], Hb as [<-|[<-|[<-|[]]]],
           Hc as [<-|[<-|[<-|[]]]];
    try reflexivity; exfalso; auto.
Qed.

Lemma limit_covers {A : Type} (limit : Z) (l : list A) :
  Z.of_nat (List.length l) <= limit -> limit_offset limit 0 l = l.
Proof.
  intros H. unfold limit_offset. simpl. apply firstn_all2. lia.
Qed.

(** C9, as the claim states it, fails: not every selection is oldest first.
    [getFilteredLeads] with its default options returns the three leads
    registered on days 19990 < 19995 < 20000 newest first. *)
Lemma default_selection_is_newest_first :
  map registration_date
      (fl_leads (getFilteredLeads TargetingSample.no_match TargetingSample.registry
                                  Sample.three_days_later TargetingSample.last_year
                                  no_options))
  = [Some 20000; Some 19995; Some 19990].
Proof. vm_compute. reflexivity. Qed.

(** C9, amended.  The selection is ordered as the caller asks.  With the
    options of [getLeadsForCampaign], registration date ascending, the
    recipients come oldest registration first: the page is sorted, and three
    matching recipients registered on T1 < T2 < T3 come in that order.  With
    the default options of [getFilteredLeads] the order is newest first. *)
Theorem getFilteredLeads_order
        (ilike_contains : string -> string -> bool)
        (st : store) (now : Z) (f : filters) :
  (forall limit offset,
      StronglySorted oldest_first
        (fl_leads (getFilteredLeads ilike_contains st now f
                     (mkOptions limit offset (Some "registration_date") (Some "ASC"))))
      /\ StronglySorted newest_first
           (fl_leads (getFilteredLeads ilike_contains st now f
                        (mkOptions limit offset None None))))
  /\ (forall campaignId limit r,
         getLeadsForCampaign ilike_contains st now campaignId limit = Ok r ->
         StronglySorted oldest_first (fl_leads r))
  /\ (forall c limit,
         StronglySorted oldest_first (SequenceProcessing.leadsQuery st now c limit))
  /\ (forall l1 l2 l3 t1 t2 t3 limit,
         Permutation (filter (buildWhereClause ilike_contains st now f) (leads st))
                     [l1; l2; l3] ->
         registration_date l1 = Some t1 ->
         registration_date l2 = Some t2 ->
         registration_date l3 = Some t3 ->
         t1 < t2 < t3 -> 3 <= limit ->
         fl_leads (getFilteredLeads ilike_contains st now f
                     (mkOptions (Some limit) None (Some "registration_date")
                                (Some "ASC")))
         = [l1; l2; l3]
         /\ fl_leads (getFilteredLeads ilike_contains st now f
                        (mkOptions (Some limit) None None None))
            = [l3; l2; l1]).
Proof.
  split; [|split; [|split]].
  - intros limit offset. unfold getFilteredLeads. simpl. split.
    + apply (registration_order_sorted true).
    + apply (registration_order_sorted false).
  - intros campaignId limit r. unfold getLeadsForCampaign.
    destruct (find _ (campaigns st)); [|discriminate].
    intros H. inversion H; subst. unfold getFilteredLeads. simpl.
    apply (registration_order_sorted true).
  - intros c limit. apply (registration_order_sorted true).
  - intros l1 l2 l3 t1 t2 t3 limit Hperm H1 H2 H3 Hlt Hlimit.
    pose proof (Permutation_length Hperm) as Hlen. simpl in Hlen.
    unfold getFilteredLeads. simpl.
    set (rows := filter (buildWhereClause ilike_contains st now f) (leads st)) in *.
    split.
    + rewrite limit_covers.
      2:{ rewrite (Permutation_length (order_by_Permutation _ _ rows)). lia. }
      apply (sorted_three oldest_first).
      * intros u. unfold oldest_first. destruct (nulls_last_leb_total
          (registration_date u) (registration_date u)); assumption.
      * rewrite <- (limit_covers 3 (order_by _ rows)).
        -- apply (registration_order_sorted true).
        -- rewrite (Permutation_length (order_by_Permutation _ _ rows)). lia.
      * rewrite order_by_Permutation. exact Hperm.
      * unfold oldest_first. rewrite H1, H2. simpl. rewrite Z.leb_le. lia.
      * unfold oldest_first. rewrite H1, H3. simpl. rewrite Z.leb_le. lia.
      * unfold oldest_first. rewrite H2, H3. simpl. rewrite Z.leb_le. lia.
    + rewrite limit_covers.
      2:{ rewrite (Permutation_length (order_by_Permutation _ _ rows)). lia. }
      apply (sorted_three newest_first).
      * intros u. unfold newest_first. destruct (nulls_last_leb_total
          (registration_date u) (registration_date u)); assumption.
      * rewrite <- (limit_covers 3 (order_by _ rows)).
        -- apply (registration_order_sorted false).
        -- rewrite (Permutation_length (order_by_Permutation _ _ rows)). lia.
      * rewrite order_by_Permutation. rewrite Hperm.
        apply Permutation_rev with (l := [l1; l2; l3]).
      * unfold newest_first. rewrite H3, H2. simpl. rewrite Z.leb_le. lia.
      * unfold newest_first. rewrite H3, H1. simpl. rewrite Z.leb_le. lia.
      * unfold newest_first. rewrite H2, H1. simpl. rewrite Z.leb_le. lia.
Qed.

(** Property P4 of the specification on the three sample leads, stored in
    another order. *)
Lemma getFilteredLeads_order_witness :
  fl_leads (getFilteredLeads TargetingSample.no_match TargetingSample.registry
              Sample.three_days_later TargetingSample.last_year
              (mkOptions (Some 50) None (Some "registration_date") (Some "ASC")))
  = [TargetingSample.first; TargetingSample.second; TargetingSample.third].
Proof.
  apply (proj1 (proj2 (proj2 (proj2 (getFilteredLeads_order
                                TargetingSample.no_match TargetingSample.registry
                                Sample.three_days_later TargetingSample.last_year)))
                      TargetingSample.first TargetingSample.second
                      TargetingSample.third 19990 19995 20000 50
                      (Permutation_sym
                         (perm_trans
                            (perm_swap TargetingSample.second TargetingSample.first
                                       [TargetingSample.third])
                            (perm_skip TargetingSample.second
                               (perm_swap TargetingSample.third TargetingSample.first
                                          []))))
                      eq_refl eq_refl eq_refl
                      (conj eq_refl eq_refl)
                      (fun H => match H with eq_refl => I end ))).
Defined.

Import SequenceProcessing.

Lemma leadsQuery_In (st : store) (now : Z) (c : campaign) (limit : Z) (l : lead) :
  In l (leadsQuery st now c limit) ->
  In l (leads st) /\ leadsQuery_where st now c l = true.
Proof.
  unfold leadsQuery. intros H.
  apply limit_offset_In, order_by_In, filter_In in H. exact H.
Qed.

(** Every Message a pass over [ls] creates belongs to a lead of [ls]. *)
Lemma process_leads_spec (now : Z) (c : campaign) (ls : list lead) :
  forall (st : store) (n : Z) (st' : store) (n' : Z),
    process_leads now c ls st n = (st', n') ->
    exists news,
      messages st' = messages st ++ news
      /\ Forall (fun m => exists l, In l ls /\ lead_id l = msg_lead_id m) news.
Proof.
  induction ls as [|l rest IH]; intros st n st' n' H; simpl in H.
  - inversion H; subst. exists []. now rewrite app_nil_r.
  - destruct (SequenceCampaign.generateSequenceMessages
                st now (lead_id l) (camp_id c) (camp_message_type c))
      as [[st1 r]|e] eqn:Hrun.
    + apply SequenceFacts.generateSequenceMessages_run in Hrun.
      destruct Hrun as (l0 & d & _ & _ & Hloop).
      apply SequenceFacts.sequence_loop_spec in Hloop;
        [|apply SequenceFacts.llcSequence_good].
      destruct Hloop as (_ & news1 & _ & Hms1 & _ & _ & _ & Hall1).
      destruct (IH _ _ _ _ H) as (news2 & Hms2 & Hall2).
      exists (news1 ++ news2). split.
      * now rewrite Hms2, Hms1, app_assoc.
      * apply Forall_app. split.
        -- eapply Forall_impl; [|exact Hall1].
           intros m (Hl & _). exists l. split; [now left|now symmetry].
        -- eapply Forall_impl; [|exact Hall2].
           intros m (l' & Hin & Heq). exists l'. split; [now right|exact Heq].
    + destruct (IH _ _ _ _ H) as (news & Hms & Hall).
      exists news. split; [exact Hms|].
      eapply Forall_impl; [|exact Hall].
      intros m (l' & Hin & Heq). exists l'. split; [now right|exact Heq].
Qed.

(** C2, as the claim states it, fails: the exclusion is not specific to the
    channel.  After the recipient of a lead's phone number opted out of SMS
    only, the lead is not opted out of e-mail in the sense of the
    specification, yet the processing of the e-mail sequence selects no lead
    and creates no Message, where before the opt-out it selected the lead. *)
Lemma sms_opt_out_blocks_email_sequence :
  spec_opted_out TargetingSample.shop_after_opt_out EMAIL Sample.acme = false
  /\ leadsQuery Sample.shop Sample.three_days_later Sample.email_sequence 100
     = [Sample.acme]
  /\ leadsQuery TargetingSample.shop_after_opt_out Sample.three_days_later
                Sample.email_sequence 100 = []
  /\ processSingleSequenceCampaign TargetingSample.shop_after_opt_out
                                   Sample.three_days_later Sample.email_sequence 100
     = (TargetingSample.shop_after_opt_out, 0).
Proof. repeat split; vm_compute; reflexivity. Qed.

(** C2, amended.  The scheduled generation never selects, and so never
    creates a Message for, a lead for which OptOut holds a row that matches
    its phone with type sms or all, its e-mail with type email or all, or
    its key: this holds for the leads of a sequence campaign, for the
    Messages its processing creates, for every selection of
    [buildWhereClause] that does not switch the exclusion off, and for
    [getLeadsForCampaign].  The exclusion is per recipient, whatever the
    channel of the campaign: one matching row of any of the three kinds
    excludes the lead. *)
Theorem opt_out_exclusion_per_recipient (st : store) (now : Z) :
  (forall c limit l,
      In l (leadsQuery st now c limit) -> opted_out st l = false)
  /\ (forall c limit,
         exists news,
           messages (fst (processSingleSequenceCampaign st now c limit))
           = messages st ++ news
           /\ Forall (fun m => exists l, In l (leads st)
                                         /\ lead_id l = msg_lead_id m
                                         /\ opted_out st l = false) news)
  /\ (forall ilike_contains f l,
         merged default_excludeOptedOut (f_excludeOptedOut f) = true ->
         buildWhereClause ilike_contains st now f l = true ->
         opted_out st l = false)
  /\ (forall ilike_contains campaignId limit r l,
         getLeadsForCampaign ilike_contains st now campaignId limit = Ok r ->
         In l (fl_leads r) -> opted_out st l = false)
  /\ (forall l o,
         In o (opt_outs st) ->
         (sql_eq_str (oo_phone o) (phone l) = true /\ oo_type o <> OptEmail)
         \/ (sql_eq_str (oo_email o) (email l) = true /\ oo_type o <> OptSms)
         \/ oo_lead_id o = Some (lead_id l) ->
         opted_out st l = true
         /\ forall c limit, ~ In l (leadsQuery st now c limit)).
Proof.
  assert (Hquery : forall c limit l,
             In l (leadsQuery st now c limit) -> opted_out st l = false).
  { intros c limit l H. apply leadsQuery_In in H. destruct H as [_ H].
    unfold leadsQuery_where in H. rewrite !andb_true_iff in H.
    destruct H as [_ H]. now apply negb_true_iff in H. }
  assert (Hwhere : forall ilike_contains f l,
             merged default_excludeOptedOut (f_excludeOptedOut f) = true ->
             buildWhereClause ilike_contains st now f l = true ->
             opted_out st l = false).
  { intros ilike_contains f l Hflag H. unfold buildWhereClause in H.
    rewrite Hflag in H. rewrite !andb_true_iff in H.
    destruct H as [[[[_ H] _] _] _]. now apply negb_true_iff in H. }
  split; [exact Hquery|]. split; [|split; [exact Hwhere|split]].
  - intros c limit. unfold processSingleSequenceCampaign.
    destruct (process_leads now c (leadsQuery st now c limit) st 0)
      as [st' n'] eqn:Hrun.
    apply process_leads_spec in Hrun. destruct Hrun as (news & Hms & Hall).
    exists news. split; [exact Hms|].
    eapply Forall_impl; [|exact Hall].
    intros m (l & Hin & Heq). exists l.
    split; [apply (leadsQuery_In _ _ _ _ _ Hin)|].
    split; [exact Heq|]. eapply Hquery, Hin.
  - intros ilike_contains campaignId limit r l. unfold getLeadsForCampaign.
    destruct (find _ (campaigns st)) as [c|]; [|discriminate].
    intros H Hin. inversion H; subst; clear H.
    unfold getFilteredLeads in Hin. simpl in Hin.
    apply limit_offset_In, order_by_In, filter_In in Hin.
    destruct Hin as [_ Hin]. eapply Hwhere; [|exact Hin]. reflexivity.
  - intros l o Hin Hmatch.
    assert (Hout : opted_out st l = true).
    { unfold opted_out. apply existsb_exists. exists o. split; [exact Hin|].
      unfold opt_out_matches.
      destruct Hmatch as [[Hp Ht]|[[He Ht]|Hid]].
      - rewrite Hp. destruct (oo_type o); [reflexivity|contradiction|reflexivity].
      - rewrite He. destruct (oo_type o);
          [contradiction|now rewrite orb_true_r|now rewrite orb_true_r].
      - rewrite Hid. simpl. rewrite Z.eqb_refl. now rewrite orb_true_r. }
    split; [exact Hout|].
    intros c limit Hsel. apply Hquery in Hsel. congruence.
Qed.

(** The leads selected for the SMS sequence of the sample store are not
    opted out; after the SMS opt-out the lead with that phone number is
    excluded from every sequence campaign. *)
Lemma opt_out_exclusion_per_recipient_witness :
  opted_out Sample.shop Sample.acme = false
  /\ opted_out TargetingSample.shop_after_opt_out Sample.acme = true
  /\ ~ In Sample.acme
          (leadsQuery TargetingSample.shop_after_opt_out Sample.three_days_later
                      Sample.email_sequence 100).
Proof.
  split.
  - apply (proj1 (opt_out_exclusion_per_recipient Sample.shop Sample.three_days_later)
                 Sample.sms_sequence 100 Sample.acme).
    vm_compute. now left.
  - destruct (proj2 (proj2 (proj2 (proj2 (opt_out_exclusion_per_recipient
                TargetingSample.shop_after_opt_out Sample.three_days_later))))
                    Sample.acme TargetingSample.sms_opt_out) as [Hout Hsel].
    + now left.
    + left. split; [reflexivity|discriminate].
    + split; [exact Hout|apply Hsel].
Defined.

(** [generateSequenceMessages] itself does not consult OptOut: called for a
    lead and campaign directly, as the sequence route does, it creates the
    SMS Messages of a lead whose phone number is opted out of SMS. *)
Example generateSequenceMessages_ignores_opt_out :
  opted_out TargetingSample.shop_after_opt_out Sample.acme = true
  /\ exists st' r,
      SequenceCampaign.generateSequenceMessages
        TargetingSample.shop_after_opt_out Sample.three_days_later 1 11 "sms"
      = Ok (st', r)
      /\ map (fun m => (template_name m, recipient_phone m)) (messages st')
         = [("llc_day1_ein_sms", Some "+15550100");
            ("llc_day3_banking_sms", Some "+15550100")].
Proof.
  split; [reflexivity|]. do 2 eexists. split; vm_compute; reflexivity.
Qed.

End TargetingFacts.

(* ===================================================================== *)
(** * Further properties of the sequence generation                      *)
(* ===================================================================== *)

Module ScheduleFacts.

Import MessageGeneration SequenceCampaign SequenceVocabulary SequenceFacts.




End ScheduleFacts.

(* ===================================================================== *)
(** * Properties of the processing of a sequence campaign                *)
(* ===================================================================== *)

Module ProcessingFacts.

Import MessageGeneration SequenceCampaign SequenceProcessing SequenceVocabulary
       ProcessingVocabulary SequenceFacts.

Lemma extends_refl (st : store) : extends st st.
Proof.
  split; [apply same_tables_refl|]. exists []. now rewrite app_nil_r.
Qed.

Lemma extends_trans (a b c : store) : extends a b -> extends b c -> extends a c.
Proof.
  intros [Hs1 [n1 H1]] [Hs2 [n2 H2]]. split.
  - eapply same_tables_trans; eassumption.
  - exists (n1 ++ n2). now rewrite H2, H1, app_assoc.
Qed.

Lemma generates_extends (st st' : store) (now d : Z) (leadId campaignId : uuid)
      (messageType : string) (s : step) :
  extends st st' ->
  generates st now d leadId campaignId messageType s = false ->
  generates st' now d leadId campaignId messageType s = false.
Proof.
  intros [Hs [news Hm]] Hg. unfold generates, no_existing in *.
  rewrite (creatable_same_tables _ _ leadId campaignId _ Hs).
  rewrite (existing_messages _ _ leadId campaignId _ _ Hm).
  destruct (due now d s); [|reflexivity].
  destruct (existing st leadId campaignId (stepTemplate messageType s));
    simpl in *; [|reflexivity].
  destruct (creatable st leadId campaignId (stepTemplate messageType s));
    [discriminate|]. now rewrite andb_false_r.
Qed.

Lemma quiet_extends (st st' : store) (now : Z) (c : campaign) (leadId : uuid) :
  extends st st' -> quiet st now c leadId -> quiet st' now c leadId.
Proof.
  intros Hext Hq l d s Hl Hd Hin.
  apply (generates_extends st st'); [exact Hext|].
  apply (Hq l d s); auto.
  now rewrite <- (find_lead_same_tables _ _ leadId (proj1 Hext)).
Qed.

Lemma generateSequenceMessages_extends (st : store) (now : Z)
      (leadId campaignId : uuid) (messageType : string) (st' : store)
      (r : sequenceResult) :
  generateSequenceMessages st now leadId campaignId messageType = Ok (st', r) ->
  extends st st'.
Proof.
  intros Hrun.
  apply generateSequenceMessages_run in Hrun.
  destruct Hrun as (l & d & _ & _ & Hloop).
  destruct (sequence_loop_spec now d leadId campaignId messageType llcSequence
              (llcSequence_good messageType) st [] st' _ Hloop)
    as (Hsame & news & _ & Hms & _).
  split; [exact Hsame|]. now exists news.
Qed.

(** The loop over the leads only appends Messages, counts at most one per
    lead, and leaves every lead it went through with nothing to generate. *)
Lemma process_leads_quiet (now : Z) (c : campaign) (ls : list lead) :
  forall (st : store) (n : Z) (st' : store) (n' : Z),
    process_leads now c ls st n = (st', n') ->
    extends st st'
    /\ n <= n' <= n + Z.of_nat (List.length ls)
    /\ forall l, In l ls -> quiet st' now c (lead_id l).
Proof.
  induction ls as [|l rest IH]; intros st n st' n' Hrun.
  - simpl in Hrun. inversion Hrun; subst.
    split; [apply extends_refl|]. split; [simpl; lia|]. intros l [].
  - simpl in Hrun.
    destruct (generateSequenceMessages st now (lead_id l) (camp_id c)
                                       (camp_message_type c))
      as [[st1 r]|e] eqn:Hgen.
    + destruct (IH _ _ _ _ Hrun) as (Hext & Hn & Hq).
      pose proof (generateSequenceMessages_extends _ _ _ _ _ _ _ Hgen) as Hext1.
      split; [eapply extends_trans; eassumption|].
      split.
      { change (List.length (l :: rest)) with (S (List.length rest)).
        destruct (generatedMessages r); lia. }
      intros l' [<-|Hin]; [|now apply Hq].
      apply (quiet_extends st1 st'); [exact Hext|].
      intros l0 d s Hl0 Hd Hin.
      pose proof (generateSequenceMessages_run _ _ _ _ _ _ _ Hgen)
        as (l1 & d1 & Hl1 & Hd1 & Hloop).
      rewrite (find_lead_same_tables _ _ _ (proj1 Hext1)), Hl1 in Hl0.
      inversion Hl0; subst l1. assert (d1 = d) by congruence. subst d1.
      eapply generates_false_after_run; eassumption.
    + destruct (IH _ _ _ _ Hrun) as (Hext & Hn & Hq).
      split; [exact Hext|].
      split; [change (List.length (l :: rest)) with (S (List.length rest)); lia|].
      intros l' [<-|Hin]; [|now apply Hq].
      intros l0 d s Hl0 Hd Hin.
      rewrite (find_lead_same_tables _ _ _ (proj1 Hext)) in Hl0.
      unfold generateSequenceMessages in Hgen. rewrite Hl0, Hd in Hgen.
      destruct (sequence_loop now d (lead_id l) (camp_id c) (camp_message_type c)
                              llcSequence st []). discriminate.
Qed.

(** Over leads with nothing to generate the loop changes nothing. *)
Lemma process_leads_noop (now : Z) (c : campaign) (ls : list lead) (st : store)
      (n : Z) :
  (forall l, In l ls -> quiet st now c (lead_id l)) ->
  process_leads now c ls st n = (st, n).
Proof.
  induction ls as [|l rest IH]; intros Hq; [reflexivity|].
  simpl. unfold generateSequenceMessages.
  destruct (find_lead st (lead_id l)) as [l0|] eqn:Hl0;
    [|apply IH; intros l' Hin; apply Hq; now right].
  destruct (registration_date l0) as [d|] eqn:Hd;
    [|apply IH; intros l' Hin; apply Hq; now right].
  rewrite (sequence_loop_noop now d (lead_id l) (camp_id c) (camp_message_type c)
             llcSequence (proj2 (llcSequence_good _)) st []).
  - cbn [generatedMessages]. apply IH. intros l' Hin. apply Hq. now right.
  - intros s Hin. apply (Hq l (or_introl eq_refl) l0 d s); auto.
Qed.

(** The leads a campaign selects do not depend on the Messages. *)
Lemma leadsQuery_same_tables (st st' : store) (now : Z) (c : campaign) (limit : Z) :
  same_tables st st' -> leadsQuery st' now c limit = leadsQuery st now c limit.
Proof.
  intros (Hl & _ & _ & Ho). unfold leadsQuery. rewrite Hl. do 2 f_equal.
  apply filter_ext. intros l. unfold leadsQuery_where, LeadFiltering.opted_out.
  now rewrite Ho.
Qed.

(** X2.  Processing a sequence campaign, with a limit that is not negative,
    only appends Messages and counts at most one lead per selected lead, so at
    most the limit; processing it again at the same instant (same campaign,
    same limit) changes nothing and reports no lead as processed. *)
Theorem processSingleSequenceCampaign_idempotent
        (st : store) (now : Z) (c : campaign) (limit : Z) (st1 : store) (n : Z) :
  0 <= limit ->
  processSingleSequenceCampaign st now c limit = (st1, n) ->
  processSingleSequenceCampaign st1 now c limit = (st1, 0)
  /\ (exists news, messages st1 = messages st ++ news)
  /\ 0 <= n <= Z.of_nat (List.length (leadsQuery st now c limit))
  /\ Z.of_nat (List.length (leadsQuery st now c limit)) <= limit.
Proof.
  unfold processSingleSequenceCampaign. intros Hlimit Hrun.
  assert (Hlen : Z.of_nat (List.length (leadsQuery st now c limit)) <= limit)
    by (unfold leadsQuery; now apply AdmissionFacts.limit_offset_length).
  destruct (process_leads_quiet _ _ _ _ _ _ _ Hrun) as (Hext & Hn & Hq).
  split; [|split; [exact (proj2 Hext)|lia]].
  rewrite (leadsQuery_same_tables _ _ now c limit (proj1 Hext)).
  now apply process_leads_noop.
Qed.

Lemma processSingleSequenceCampaign_idempotent_witness :
  exists st1 n,
    processSingleSequenceCampaign Sample.shop Sample.three_days_later
                                  Sample.email_sequence 100 = (st1, n)
    /\ n = 1
    /\ List.length (messages st1) = 2%nat
    /\ processSingleSequenceCampaign st1 Sample.three_days_later
                                     Sample.email_sequence 100 = (st1, 0).
Proof.
  destruct (processSingleSequenceCampaign Sample.shop Sample.three_days_later
                                          Sample.email_sequence 100)
    as [st1 n] eqn:Hrun.
  exists st1, n.
  split; [reflexivity|].
  split; [vm_compute in Hrun; inversion Hrun; reflexivity|].
  split; [vm_compute in Hrun; inversion Hrun; reflexivity|].
  exact (proj1 (processSingleSequenceCampaign_idempotent
                  _ _ _ 100 _ _ ltac:(lia) Hrun)).
Defined.

(** X3.  Whom the processing reaches.  Every Message the processing of a
    sequence campaign creates is a pending Message of that campaign for a lead
    of the store that is active, registered at most 30 days before today, in
    one of the target states when the campaign has any, and has a phone number
    when the campaign is an SMS campaign and an e-mail address when it is an
    e-mail campaign.  A lead registered earlier than that gets no Message,
    even for steps it never received. *)
Theorem processSingleSequenceCampaign_reaches_recent_leads
        (st : store) (now : Z) (c : campaign) (limit : Z) :
  exists news,
    messages (fst (processSingleSequenceCampaign st now c limit))
    = messages st ++ news
    /\ Forall (fun m =>
                 exists l d,
                   In l (leads st) /\ lead_id l = msg_lead_id m
                   /\ lead_status l = "active"
                   /\ registration_date l = Some d
                   /\ Clock.DATE now - 30 <= d
                   /\ (forall states, target_states c = Some states ->
                                      In (lead_state l) states)
                   /\ (camp_message_type c = "sms" -> phone l <> None)
                   /\ (camp_message_type c = "email" -> email l <> None))
              news.
Proof.
  unfold processSingleSequenceCampaign.
  destruct (process_leads now c (leadsQuery st now c limit) st 0) as [st' n] eqn:Hrun.
  destruct (TargetingFacts.process_leads_spec _ _ _ _ _ _ _ Hrun)
    as (news & Hms & Hall).
  exists news. split; [exact Hms|].
  eapply Forall_impl; [|exact Hall].
  intros m (l & Hin & Hid).
  apply TargetingFacts.leadsQuery_In in Hin. destruct Hin as [Hin Hw].
  unfold leadsQuery_where in Hw.
  repeat (apply andb_prop in Hw; destruct Hw as [Hw ?]).
  destruct (registration_date l) as [d|] eqn:Hd; [|discriminate].
  exists l, d. split; [exact Hin|]. split; [exact Hid|].
  split; [now apply String.eqb_eq|]. split; [exact Hd|].
  split; [match goal with H : (_ <=? d) = true |- _ => apply Z.leb_le in H; lia end|].
  split; [|split].
  - intros states Hs.
    match goal with
    | H : match target_states c with _ => _ end = true |- _ => rewrite Hs in H;
        unfold LeadFiltering.in_strings in H; apply existsb_exists in H;
        destruct H as (x & Hx & Heq)
    end.
    apply String.eqb_eq in Heq. now subst x.
  - intros Hsms.
    match goal with
    | H : (if String.eqb (camp_message_type c) "sms" then _ else _) = true |- _ =>
      rewrite Hsms in H; simpl in H
    end.
    now destruct (phone l).
  - intros Hmail.
    match goal with
    | H : (if String.eqb (camp_message_type c) "email" then _ else _) = true |- _ =>
      rewrite Hmail in H; simpl in H
    end.
    now destruct (email l).
Qed.

Lemma processSingleSequenceCampaign_settles (st : store) (now : Z) (c : campaign)
      (limit : Z) (st1 : store) (n : Z) :
  processSingleSequenceCampaign st now c limit = (st1, n) ->
  extends st st1
  /\ 0 <= n
  /\ forall st2, extends st1 st2 ->
       processSingleSequenceCampaign st2 now c limit = (st2, 0).
Proof.
  unfold processSingleSequenceCampaign. intros Hrun.
  destruct (process_leads_quiet _ _ _ _ _ _ _ Hrun) as (Hext & Hn & Hq).
  split; [exact Hext|]. split; [lia|].
  intros st2 Hext2.
  rewrite (leadsQuery_same_tables st st2 now c limit
             (proj1 (extends_trans _ _ _ Hext Hext2))).
  apply process_leads_noop. intros l Hin.
  apply (quiet_extends st1 st2); [exact Hext2|now apply Hq].
Qed.

Lemma sequence_campaigns_loop_settles (now limit : Z) (cs : list campaign) :
  forall (st : store) (total : Z) (st1 : store) (total1 : Z),
    CampaignPasses.sequence_campaigns_loop now limit cs st total = (st1, total1) ->
    extends st st1
    /\ total <= total1
    /\ forall st2 total2, extends st1 st2 ->
         CampaignPasses.sequence_campaigns_loop now limit cs st2 total2
         = (st2, total2).
Proof.
  induction cs as [|c rest IH]; intros st total st1 total1 Hrun.
  - simpl in Hrun. inversion Hrun; subst.
    split; [apply extends_refl|]. split; [lia|reflexivity].
  - simpl in Hrun.
    destruct (processSingleSequenceCampaign st now c limit) as [sta n] eqn:Hc.
    destruct (processSingleSequenceCampaign_settles _ _ _ _ _ _ Hc)
      as (Hext & Hn & Hagain).
    destruct (IH _ _ _ _ Hrun) as (Hext' & Htot & Hagain').
    split; [eapply extends_trans; eassumption|]. split; [lia|].
    intros st2 total2 Hext2. simpl.
    rewrite (Hagain st2 (extends_trans _ _ _ Hext' Hext2)).
    rewrite Z.add_0_r. now apply Hagain'.
Qed.

(** X4.  A pass over the sequence campaigns is idempotent.
    [processSequenceCampaigns] only appends Messages and reports the number of
    campaigns it selected, and a second pass at the same instant selects the
    same campaigns, changes nothing and reports no lead as processed. *)
Theorem processSequenceCampaigns_idempotent
        (ilike_contains : string -> string -> bool)
        (start_date end_date : campaign -> option Z)
        (st : store) (now : Z) (limit : Z)
        (st1 : store) (r : CampaignPasses.passResult) :
  CampaignPasses.processSequenceCampaigns ilike_contains start_date end_date
                                          st now limit = (st1, r) ->
  (exists news, messages st1 = messages st ++ news)
  /\ 0 <= CampaignPasses.pass_processed r
  /\ CampaignPasses.pass_campaigns r
     = Z.of_nat (List.length (CampaignPasses.sequenceCampaigns
                                ilike_contains start_date end_date st now))
  /\ CampaignPasses.processSequenceCampaigns ilike_contains start_date end_date
                                             st1 now limit
     = (st1, CampaignPasses.mkPassResult 0 (CampaignPasses.pass_campaigns r)).
Proof.
  unfold CampaignPasses.processSequenceCampaigns.
  assert (Hsel : forall st', extends st st' ->
            CampaignPasses.sequenceCampaigns ilike_contains start_date end_date
                                             st' now
            = CampaignPasses.sequenceCampaigns ilike_contains start_date end_date
                                               st now).
  { intros st' [(_ & Hc & _) _]. unfold CampaignPasses.sequenceCampaigns.
    now rewrite Hc. }
  destruct (CampaignPasses.sequenceCampaigns ilike_contains start_date end_date
                                             st now) as [|c rest] eqn:Hrows.
  { intros H. inversion H; subst. rewrite Hrows. simpl.
    split; [exists []; now rewrite app_nil_r|]. repeat split; lia. }
  set (cs := c :: rest) in *.
  destruct (CampaignPasses.sequence_campaigns_loop now limit cs st 0)
    as [sta total] eqn:Hloop.
  intros H. inversion H; subst sta r; clear H.
  destruct (sequence_campaigns_loop_settles _ _ _ _ _ _ _ Hloop)
    as (Hext & Htot & Hagain).
  split; [exact (proj2 Hext)|]. split; [exact Htot|]. split; [reflexivity|].
  rewrite (Hsel st1 Hext). unfold cs at 1.
  fold cs. now rewrite (Hagain st1 0 (extends_refl st1)).
Qed.

(** The two sequence campaigns of the sample store, both selected. *)
Lemma processSequenceCampaigns_idempotent_witness :
  let ilike := fun _ _ : string => true in
  let no_date := fun _ : campaign => @None Z in
  exists st1 r,
    CampaignPasses.processSequenceCampaigns ilike no_date no_date
      Sample.shop Sample.three_days_later 50 = (st1, r)
    /\ r = CampaignPasses.mkPassResult 3 2
    /\ List.length (messages st1) = 6%nat
    /\ CampaignPasses.processSequenceCampaigns ilike no_date no_date
         st1 Sample.three_days_later 50
       = (st1, CampaignPasses.mkPassResult 0 2).
Proof.
  intros ilike no_date.
  destruct (CampaignPasses.processSequenceCampaigns ilike no_date no_date
              Sample.shop Sample.three_days_later 50)
    as [st1 r] eqn:Hrun.
  exists st1, r. split; [reflexivity|].
  assert (Hr : r = CampaignPasses.mkPassResult 3 2)
    by (vm_compute in Hrun; inversion Hrun; reflexivity).
  split; [exact Hr|].
  split; [vm_compute in Hrun; inversion Hrun; reflexivity|].
  replace 2 with (CampaignPasses.pass_campaigns r) by (now rewrite Hr).
  exact (proj2 (proj2 (proj2 (processSequenceCampaigns_idempotent
                                _ _ _ _ _ _ _ _ Hrun)))).
Defined.

End ProcessingFacts.

(* ===================================================================== *)
(** * Properties of the progress report                                  *)
(* ===================================================================== *)

Module ProgressFacts.

Import MessageGeneration SequenceCampaign SequenceProgress SequenceVocabulary
       SequenceFacts.

Lemma sentMessages_In (st : store) (leadId campaignId : uuid) (m : message) :
  In m (sentMessages st leadId campaignId)
  <-> In m (messages st)
      /\ msg_lead_id m = leadId /\ campaign_id m = Some campaignId.
Proof.
  unfold sentMessages. rewrite (order_by_In _ _ _ m), filter_In.
  split.
  - intros [Hin Hk]. split; [exact Hin|].
    assert (Hk' : key_matches leadId campaignId (template_name m) m = true)
      by (unfold key_matches; now rewrite Hk, String.eqb_refl).
    apply key_matches_iff in Hk'. tauto.
  - intros (Hin & Hl & Hc). split; [exact Hin|].
    assert (Hk' : key_matches leadId campaignId (template_name m) m = true)
      by (apply key_matches_iff; auto).
    unfold key_matches in Hk'. apply andb_prop in Hk'. tauto.
Qed.

(** The progress finds a Message of a template exactly when the key
    (lead, campaign, template) holds a row, and reports one of these rows. *)
Lemma find_template_existing (st : store) (leadId campaignId : uuid) (t : string) :
  match find_template (sentMessages st leadId campaignId) t with
  | Some cp => exists m, In m (existing st leadId campaignId t)
                         /\ cp = mkChannelProgress (msg_status m) (sent_at m)
  | None => existing st leadId campaignId t = []
  end.
Proof.
  unfold find_template.
  destruct (find (fun m => String.eqb (template_name m) t)
                 (sentMessages st leadId campaignId)) as [m|] eqn:Hf.
  - apply find_some in Hf. destruct Hf as [Hin Ht].
    apply sentMessages_In in Hin. apply String.eqb_eq in Ht.
    exists m. split; [|reflexivity].
    unfold existing. apply filter_In. split; [tauto|].
    apply key_matches_iff. tauto.
  - destruct (existing st leadId campaignId t) as [|m rest] eqn:Hex; [reflexivity|].
    exfalso.
    assert (Hin : In m (existing st leadId campaignId t))
      by (rewrite Hex; now left).
    unfold existing in Hin. apply filter_In in Hin. destruct Hin as [Hin Hk].
    apply key_matches_iff in Hk.
    assert (Hs : In m (sentMessages st leadId campaignId))
      by (apply sentMessages_In; tauto).
    pose proof (find_none _ _ Hf m Hs) as Hn. simpl in Hn.
    destruct Hk as (_ & _ & <-). now rewrite String.eqb_refl in Hn.
Qed.

Lemma filter_length_mono {A : Type} (g h : A -> bool) (l : list A) :
  (forall x, In x l -> g x = true -> h x = true) ->
  (List.length (filter g l) <= List.length (filter h l))%nat.
Proof.
  induction l as [|a l IH]; intros H; [simpl; lia|].
  assert (IH' := IH (fun x Hin => H x (or_intror Hin))).
  simpl. destruct (g a) eqn:Hg.
  - rewrite (H a (or_introl eq_refl) Hg). simpl. lia.
  - destruct (h a); simpl; lia.
Qed.

(** The entry of the progress for a step the run generated. *)
Lemma generated_step_progress (st : store) (now d : Z) (leadId campaignId : uuid)
      (messageType : string) (st' : store) (acc' : list generated) (s : step) :
  sequence_loop now d leadId campaignId messageType llcSequence st [] = (st', acc') ->
  In s llcSequence ->
  generates st now d leadId campaignId messageType s = true ->
  exists at_,
    find_template (sentMessages st' leadId campaignId) (stepTemplate messageType s)
    = Some (mkChannelProgress pending at_).
Proof.
  intros Hloop Hin Hg.
  destruct (sequence_loop_spec now d leadId campaignId messageType llcSequence
              (llcSequence_good messageType) st [] st' acc' Hloop)
    as (_ & news & gens & Hms & _ & _ & _ & Hall).
  destruct (sequence_loop_count now d leadId campaignId messageType llcSequence
              st st' [] acc' s (llcSequence_good messageType) Hloop Hin)
    as (added & Heq & Hlen & _).
  rewrite Hg in Hlen.
  assert (Hnone : existing st leadId campaignId (stepTemplate messageType s) = []).
  { unfold generates, no_existing in Hg.
    destruct (existing st leadId campaignId (stepTemplate messageType s));
      [reflexivity|].
    rewrite andb_false_r in Hg. discriminate. }
  pose proof (find_template_existing st' leadId campaignId
                                     (stepTemplate messageType s)) as Hf.
  destruct (find_template (sentMessages st' leadId campaignId)
                          (stepTemplate messageType s)) as [cp|].
  - destruct Hf as (m & Hm & ->). exists (sent_at m). f_equal. f_equal.
    rewrite (existing_messages _ _ leadId campaignId _ _ Hms), Hnone in Hm.
    simpl in Hm. apply filter_In in Hm. destruct Hm as [Hm _].
    rewrite Forall_forall in Hall. now apply Hall.
  - rewrite Heq, Hnone in Hf. simpl in Hf. subst added. discriminate.
Qed.

(** X5.  Generation and progress agree.  After a run, the progress of the lead
    in the campaign has one entry per step of the sequence, in its order; the
    entry of every step the run generated reports, on the channel of the run,
    a Message in status pending; and the number of completed steps is at least
    the number of Messages generated and at most the number of steps. *)
Theorem getSequenceProgress_after_generation
        (st : store) (now : Z) (leadId campaignId : uuid) (messageType : string)
        (st' : store) (r : sequenceResult) :
  generateSequenceMessages st now leadId campaignId messageType = Ok (st', r) ->
  let p := getSequenceProgress st' leadId campaignId in
  map (fun sp => (sp_step sp, sp_day sp)) (pr_progress p)
  = map (fun s => (name s, day s)) llcSequence
  /\ (forall s, In s llcSequence ->
        In (stepTemplate messageType s) (map g_templateName (generatedMessages r)) ->
        exists sp at_,
          In sp (pr_progress p) /\ sp_step sp = name s /\ sp_day sp = day s
          /\ (if String.eqb messageType "sms" then sp_sms sp else sp_email sp)
             = Some (mkChannelProgress pending at_))
  /\ Z.of_nat (List.length (generatedMessages r)) <= pr_completedSteps p
     <= pr_totalSteps p.
Proof.
  intros Hrun p.
  pose proof (generateSequenceMessages_run _ _ _ _ _ _ _ Hrun)
    as (l & d & Hl & Hd & Hloop).
  assert (Hstep : forall s, In s llcSequence ->
            generates st now d leadId campaignId messageType s = true ->
            exists at_,
              (if String.eqb messageType "sms"
               then find_template (sentMessages st' leadId campaignId) (smsTemplate s)
               else find_template (sentMessages st' leadId campaignId)
                                  (emailTemplate s))
              = Some (mkChannelProgress pending at_)).
  { intros s Hin Hg.
    destruct (generated_step_progress _ _ _ _ _ _ _ _ s Hloop Hin Hg) as [at_ Hf].
    exists at_. unfold stepTemplate in Hf.
    now destruct (String.eqb messageType "sms"). }
  split; [reflexivity|]. split.
  - intros s Hin Hgen.
    destruct (sequence_loop_count now d leadId campaignId messageType llcSequence
                st st' [] (generatedMessages r) s (llcSequence_good messageType)
                Hloop Hin) as (_ & _ & _ & Hg).
    destruct (Hg Hgen) as [[]|Hg'].
    destruct (Hstep s Hin Hg') as [at_ Hf].
    eexists _, at_. split; [|split; [|split]].
    + unfold p, getSequenceProgress. cbn [pr_progress].
      apply in_map_iff. exists s. split; [reflexivity|exact Hin].
    + reflexivity.
    + reflexivity.
    + cbn [sp_sms sp_email]. now destruct (String.eqb messageType "sms").
  - destruct (sequence_loop_spec now d leadId campaignId messageType llcSequence
                (llcSequence_good messageType) st [] st' _ Hloop)
      as (_ & news & gens & _ & Hacc & Hn & Hgm & _).
    simpl in Hacc.
    assert (Hlen : List.length (generatedMessages r)
                   = List.length (filter (generates st now d leadId campaignId
                                                    messageType) llcSequence)).
    { rewrite Hacc. rewrite <- (length_map g_templateName), Hgm, Hn.
      apply length_map. }
    unfold p, getSequenceProgress.
    cbn [pr_completedSteps pr_totalSteps].
    split.
    + apply inj_le. rewrite Hlen.
      set (f := fun s => mkStepProgress (name s) (day s)
                  (find_template (sentMessages st' leadId campaignId) (smsTemplate s))
                  (find_template (sentMessages st' leadId campaignId)
                                 (emailTemplate s))).
      assert (Hfm : forall l0, filter completed (map f l0)
                               = map f (filter (fun s => completed (f s)) l0)).
      { induction l0 as [|a l0 IH]; [reflexivity|].
        simpl. destruct (completed (f a)); simpl; now rewrite IH. }
      rewrite Hfm, length_map. apply filter_length_mono.
      intros s Hin Hg. destruct (Hstep s Hin Hg) as [at_ Hf].
      unfold completed, f. cbn [sp_sms sp_email].
      destruct (String.eqb messageType "sms"); rewrite Hf; [reflexivity|].
      now destruct (find_template (sentMessages st' leadId campaignId)
                                  (smsTemplate s)).
    + apply inj_le. etransitivity; [apply filter_length_le|].
      now rewrite length_map.
Qed.

Lemma getSequenceProgress_after_generation_witness :
  exists st' r,
    generateSequenceMessages Sample.shop Sample.three_days_later 1 10 "email"
    = Ok (st', r)
    /\ pr_completedSteps (getSequenceProgress Sample.shop 1 10) = 0
    /\ 2 <= pr_completedSteps (getSequenceProgress st' 1 10) <= 5.
Proof.
  destruct (generateSequenceMessages Sample.shop Sample.three_days_later 1 10 "email")
    as [[st' r]|e] eqn:Hrun; [|vm_compute in Hrun; discriminate].
  exists st', r. split; [reflexivity|]. split; [reflexivity|].
  assert (Hlen : Z.of_nat (List.length (generatedMessages r)) = 2)
    by (vm_compute in Hrun; inversion Hrun; reflexivity).
  rewrite <- Hlen.
  exact (proj2 (proj2 (getSequenceProgress_after_generation _ _ _ _ _ _ _ Hrun))).
Defined.

End ProgressFacts.

(* ===================================================================== *)
(** * Further properties of the lead selection                           *)
(* ===================================================================== *)

Module FilteringFacts.

Import LeadFiltering.







(** X7.  The registration window.  A selected lead has a registration date,
    and its age in days (today - registration date) is at most
    [minRegistrationDays] and at least [maxRegistrationDays], whenever these
    are numbers (given by the caller or taken from the defaults 1 and 365):
    the window is empty as soon as minRegistrationDays < maxRegistrationDays. *)
Theorem getFilteredLeads_registration_window
        (ilike_contains : string -> string -> bool) (st : store) (now : Z)
        (f : filters) (o : options) (l : lead) :
  In l (fl_leads (getFilteredLeads ilike_contains st now f o)) ->
  (forall minDays,
      merged default_minRegistrationDays (f_minRegistrationDays f) = Some minDays ->
      exists d, registration_date l = Some d /\ Clock.DATE now - d <= minDays)
  /\ (forall maxDays,
      merged default_maxRegistrationDays (f_maxRegistrationDays f) = Some maxDays ->
      exists d, registration_date l = Some d /\ maxDays <= Clock.DATE now - d).
Proof.
  unfold getFilteredLeads. cbn [fl_leads]. intros Hin.
  apply limit_offset_In, order_by_In, filter_In in Hin. destruct Hin as [_ Hw].
  unfold buildWhereClause in Hw.
  repeat (apply andb_prop in Hw; destruct Hw as [Hw ?]).
  repeat match goal with
         | H : when_given (f_registrationDateFrom _) _ _ = true |- _ => clear H
         | H : when_given (f_registrationDateTo _) _ _ = true |- _ => clear H
         | H : when_given (f_minEmployees _) _ _ = true |- _ => clear H
         | H : when_given (f_maxEmployees _) _ _ = true |- _ => clear H
         | H : when_given (f_minRevenue _) _ _ = true |- _ => clear H
         | H : when_given (f_maxRevenue _) _ _ = true |- _ => clear H
         end.
  match goal with
  | Hmin : when_given (merged default_minRegistrationDays _) _ _ = true,
    Hmax : when_given (merged default_maxRegistrationDays _) _ _ = true |- _ =>
    split; [intros minDays Hm; rewrite Hm in Hmin; clear Hmax
           |intros maxDays Hm; rewrite Hm in Hmax; clear Hmin]
  end.
  - match goal with H : when_given _ _ _ = true |- _ => rename H into Hwin end.
    unfold when_given in Hwin.
    destruct (registration_date l) as [d|]; [|discriminate].
    exists d. split; [reflexivity|]. apply Z.leb_le in Hwin. lia.
  - match goal with H : when_given _ _ _ = true |- _ => rename H into Hwin end.
    unfold when_given in Hwin.
    destruct (registration_date l) as [d|]; [|discriminate].
    exists d. split; [reflexivity|]. apply Z.leb_le in Hwin. lia.
Qed.

Lemma getFilteredLeads_registration_window_witness :
  In TargetingSample.first
     (fl_leads (getFilteredLeads TargetingSample.no_match TargetingSample.registry
                                 Sample.three_days_later TargetingSample.last_year
                                 no_options))
  /\ exists d, registration_date TargetingSample.first = Some d
               /\ 1 <= Clock.DATE Sample.three_days_later - d.
Proof.
  assert (Hin : In TargetingSample.first
     (fl_leads (getFilteredLeads TargetingSample.no_match TargetingSample.registry
                                 Sample.three_days_later TargetingSample.last_year
                                 no_options)))
    by (vm_compute; tauto).
  split; [exact Hin|].
  exact (proj2 (getFilteredLeads_registration_window _ _ _ _ _ _ Hin) 1 eq_refl).
Defined.

(** X8.  With the registration window left to the defaults (at most 1 day and
    at least 365 days old) the selection is empty: no page holds a lead and
    the total is 0, whatever the store, the other filters and the options. *)
Theorem getFilteredLeads_default_window_selects_nothing
        (ilike_contains : string -> string -> bool) (st : store) (now : Z)
        (f : filters) (o : options) :
  f_minRegistrationDays f = None ->
  f_maxRegistrationDays f = None ->
  getFilteredLeads ilike_contains st now f o = mkFilteredLeads [] 0.
Proof.
  intros Hmin Hmax. unfold getFilteredLeads.
  replace (filter (buildWhereClause ilike_contains st now f) (leads st))
    with (@nil lead).
  - unfold limit_offset. cbn [order_by fold_right List.length].
    now rewrite skipn_nil, firstn_nil.
  - symmetry. induction (leads st) as [|l ls IH]; [reflexivity|].
    simpl. rewrite (TargetingFacts.default_window_is_empty _ _ _ _ _ Hmin Hmax).
    exact IH.
Qed.

Lemma getFilteredLeads_default_window_selects_nothing_witness :
  getFilteredLeads TargetingSample.no_match TargetingSample.registry
                   Sample.three_days_later no_filters no_options
  = mkFilteredLeads [] 0.
Proof.
  apply getFilteredLeads_default_window_selects_nothing; reflexivity.
Defined.

(** X9.  What a selection excludes.  A selected lead has a phone number or an
    e-mail address unless the caller switches [requireContact] off; with
    [excludeContacted], none of its Messages in status sent or delivered was
    sent within the last [contactedWithinDays] days, counted from midnight of
    today, where a number of days that is missing or 0 stands for 30; and it
    has no Message at all in any of the [excludeCampaigns]. *)
Theorem getFilteredLeads_exclusions
        (ilike_contains : string -> string -> bool) (st : store) (now : Z)
        (f : filters) (o : options) (l : lead) :
  In l (fl_leads (getFilteredLeads ilike_contains st now f o)) ->
  (merged default_requireContact (f_requireContact f) = true ->
   phone l <> None \/ email l <> None)
  /\ (f_excludeContacted f = true ->
      forall m t,
        In m (messages st) -> msg_lead_id m = lead_id l ->
        msg_status m = sent \/ msg_status m = delivered ->
        sent_at m = Some t ->
        t < Clock.date_to_ms
              (Clock.DATE now
               - match f_contactedWithinDays f with
                 | Some d => if Z.eqb d 0 then 30 else d
                 | None => 30
                 end))
  /\ (forall campaignId m,
         In campaignId (f_excludeCampaigns f) ->
         In m (messages st) -> msg_lead_id m = lead_id l ->
         campaign_id m <> Some campaignId).
Proof.
  unfold getFilteredLeads. cbn [fl_leads]. intros Hin.
  apply limit_offset_In, order_by_In, filter_In in Hin. destruct Hin as [_ Hw].
  unfold buildWhereClause in Hw.
  repeat (apply andb_prop in Hw; destruct Hw as [Hw ?]).
  split; [|split].
  - intros Hreq.
    match goal with
    | H : (if merged default_requireContact _ then _ else _) = true |- _ =>
      rewrite Hreq in H; destruct (phone l); [left; discriminate|];
        destruct (email l); [right; discriminate|discriminate]
    end.
  - intros Hex m t Hm Hlead Hstatus Hsent.
    match goal with
    | H : (if f_excludeContacted f then _ else _) = true |- _ =>
      rewrite Hex in H; apply negb_true_iff in H; rename H into Hnone
    end.
    unfold contacted_within in Hnone.
    destruct (Z.ltb_spec t (Clock.date_to_ms
              (Clock.DATE now
               - match f_contactedWithinDays f with
                 | Some d => if Z.eqb d 0 then 30 else d
                 | None => 30
                 end))) as [Hlt|Hge]; [exact Hlt|].
    exfalso.
    assert (Hsome : existsb
              (fun m0 => Z.eqb (msg_lead_id m0) (lead_id l)
                 && (status_eqb (msg_status m0) sent
                     || status_eqb (msg_status m0) delivered)
                 && match sent_at m0 with
                    | Some t0 =>
                      Clock.date_to_ms
                        (Clock.DATE now
                         - match f_contactedWithinDays f with
                           | Some d => if Z.eqb d 0 then 30 else d
                           | None => 30
                           end) <=? t0
                    | None => false
                    end) (messages st) = true).
    { apply existsb_exists. exists m. split; [exact Hm|].
      rewrite Hlead, Z.eqb_refl, Hsent.
      replace (_ <=? t) with true by (symmetry; now apply Z.leb_le).
      destruct Hstatus as [-> | ->]; reflexivity. }
    congruence.
  - intros campaignId m Hc Hm Hlead Hcamp.
    match goal with
    | H : match f_excludeCampaigns f with [] => true | _ => _ end = true |- _ =>
      rename H into Hnone
    end.
    destruct (f_excludeCampaigns f) as [|c0 cs] eqn:Hcs; [contradiction|].
    apply negb_true_iff in Hnone. unfold in_campaigns in Hnone.
    assert (Hsome : existsb
              (fun m0 => Z.eqb (msg_lead_id m0) (lead_id l)
                         && existsb (sql_eq_id (campaign_id m0)) (c0 :: cs))
              (messages st) = true).
    { apply existsb_exists. exists m. split; [exact Hm|].
      rewrite Hlead, Z.eqb_refl. apply existsb_exists.
      exists campaignId. split; [exact Hc|].
      rewrite Hcamp. unfold sql_eq_id. apply Z.eqb_refl. }
    congruence.
Qed.

Lemma getFilteredLeads_exclusions_witness :
  In TargetingSample.first
     (fl_leads (getFilteredLeads TargetingSample.no_match TargetingSample.registry
                                 Sample.three_days_later TargetingSample.last_year
                                 no_options))
  /\ (phone TargetingSample.first <> None \/ email TargetingSample.first <> None).
Proof.
  assert (Hin : In TargetingSample.first
     (fl_leads (getFilteredLeads TargetingSample.no_match TargetingSample.registry
                                 Sample.three_days_later TargetingSample.last_year
                                 no_options)))
    by (vm_compute; tauto).
  split; [exact Hin|].
  exact (proj1 (getFilteredLeads_exclusions _ _ _ _ _ _ Hin) eq_refl).
Defined.

End FilteringFacts.

(* ===================================================================== *)
(** * Further properties of the automatic campaigns                      *)
(* ===================================================================== *)

Module CampaignFacts.

Import MessageWorker.

(** A run of [processCampaign] that returns leaves the store as it is. *)
Lemma processCampaign_store
      (ilike_contains : string -> string -> bool)
      (st : store) (now : Z) (c : campaign) (st' : store) (o : campaign_outcome) :
  processCampaign ilike_contains st now c = Ok (st', o) -> st' = st.
Proof.
  unfold processCampaign.
  destruct (daily_limit c <=? _); [intros H; now inversion H|].
  destruct (hourly_limit c <=? _); [intros H; now inversion H|].
  destruct (generateLimit c _ _ <=? 0); [intros H; now inversion H|].
  destruct (LeadFiltering.getLeadsForCampaign ilike_contains st now (camp_id c) _)
    as [r|e] eqn:Hq; cbn [bind]; [|discriminate].
  rewrite (TargetingFacts.getLeadsForCampaign_selects_nothing _ _ _ _ _ _ Hq).
  intros H. now inversion H.
Qed.

(** X10.  [processCampaign] never creates a Message.  Its leads come from
    [getLeadsForCampaign], whose filters leave the registration window to the
    defaults, and that window is empty: a run that returns leaves the store as
    it is and ends on a limit, on no capacity or on no leads, never on
    generated Messages; a run that throws reports that the campaign is not
    found or inactive. *)
Theorem processCampaign_creates_nothing
        (ilike_contains : string -> string -> bool)
        (st : store) (now : Z) (c : campaign) :
  match processCampaign ilike_contains st now c with
  | Ok (st', o) =>
    st' = st
    /\ (o = DailyLimitReached \/ o = HourlyLimitReached
        \/ o = NoCapacity \/ o = NoLeads)
  | Err e => e = CampaignNotFoundOrInactive
  end.
Proof.
  unfold processCampaign.
  destruct (daily_limit c <=? todayCount st now (camp_id c)); [auto|].
  destruct (hourly_limit c <=? thisHourCount st now (camp_id c)); [auto|].
  destruct (generateLimit c (todayCount st now (camp_id c))
                          (thisHourCount st now (camp_id c)) <=? 0); [auto|].
  destruct (LeadFiltering.getLeadsForCampaign ilike_contains st now (camp_id c)
              (generateLimit c (todayCount st now (camp_id c))
                             (thisHourCount st now (camp_id c))))
    as [r|e] eqn:Hq; cbn [bind].
  - rewrite (TargetingFacts.getLeadsForCampaign_selects_nothing _ _ _ _ _ _ Hq).
    auto 6.
  - unfold LeadFiltering.getLeadsForCampaign in Hq.
    destruct (find _ (campaigns st)); [discriminate|]. now inversion Hq.
Qed.

(** An active e-mail campaign and a lead that meets every criterion of the
    campaign: the run finds no lead. *)
Example processCampaign_skips_eligible_lead :
  processCampaign (fun _ _ => false) Sample.shop Sample.three_days_later
                  Sample.email_sequence = Ok (Sample.shop, NoLeads).
Proof. vm_compute. reflexivity. Qed.

(** X11.  The pass of the worker over the active campaigns never creates a
    Message: whatever campaigns are active, and whatever their dates and their
    order, [processCampaigns] leaves the store as it is. *)
Theorem processCampaigns_creates_nothing
        (ilike_contains : string -> string -> bool)
        (start_date end_date camp_created_at : campaign -> option Z)
        (st : store) (now : Z) :
  CampaignPasses.processCampaigns ilike_contains start_date end_date
                                  camp_created_at st now = st.
Proof.
  unfold CampaignPasses.processCampaigns.
  induction (CampaignPasses.activeCampaigns start_date end_date camp_created_at
                                            st now) as [|c rest IH];
    [reflexivity|].
  simpl.
  destruct (processCampaign ilike_contains st now c) as [[st' o]|e] eqn:Hc;
    [|exact IH].
  apply processCampaign_store in Hc. subst st'. exact IH.
Qed.

End CampaignFacts.

(* ===================================================================== *)
(** * Further properties of the dispatch                                 *)
(* ===================================================================== *)

Module DeliveryFacts.

Import MessageWorker DispatchVocabulary DeliveryVocabulary.

Lemma update_messages_inv (status_check : status -> bool) (sel : message -> bool)
      (upd : message -> message) (ms ms' : list message) :
  update_messages status_check sel upd ms = Ok ms' ->
  ms' = map (fun m => if sel m then upd m else m) ms.
Proof.
  unfold update_messages. destruct (forallb _ ms); [|discriminate].
  intros H. now inversion H.
Qed.

Lemma update_messages_envelope (status_check : status -> bool)
      (sel : message -> bool) (upd : message -> message) (ms ms' : list message) :
  (forall m, envelope (upd m) = envelope m) ->
  update_messages status_check sel upd ms = Ok ms' ->
  map envelope ms' = map envelope ms.
Proof.
  intros Hupd Hu. apply update_messages_inv in Hu. subst ms'.
  rewrite map_map. apply map_ext. intros m. now destruct (sel m).
Qed.

(** Case analysis on the next UPDATE of the goal, keeping what it does to
    the envelopes. *)
Ltac step_envelope :=
  cbn beta iota;
  match goal with
  | |- context [update_messages ?chk ?sel ?upd ?ms] =>
    let ms' := fresh "ms" in
    let Hu := fresh "Hu" in
    destruct (update_messages chk sel upd ms) as [ms'|] eqn:Hu;
    [apply update_messages_envelope in Hu; [|reflexivity]|]
  end.

Lemma sendSMS_envelope (status_check : status -> bool) (p : provider) (now : Z)
      (ms : list message) (calls : nat) (id : uuid) :
  map envelope (fst (fst (SMSService.sendSMS status_check p now ms calls id)))
  = map envelope ms.
Proof.
  unfold SMSService.sendSMS, SMSService.sendSMS_try.
  destruct (find (has_id id) ms) as [m|]; [|step_envelope; simpl; congruence].
  destruct (message_type m); [|step_envelope; simpl; congruence].
  destruct (negb (truthy (recipient_phone m))); [step_envelope; simpl; congruence|].
  step_envelope; [|step_envelope; simpl; congruence].
  destruct (SMSService.sendWithRetry p calls 1) as [[pid|e] calls'];
    [|step_envelope; simpl; congruence].
  step_envelope; [simpl; congruence|].
  step_envelope; simpl; congruence.
Qed.

Lemma sendEmail_envelope (status_check : status -> bool) (p : provider)
      (configured : bool) (now : Z) (ms : list message) (calls : nat) (id : uuid) :
  map envelope (fst (fst (EmailService.sendEmail status_check p configured now
                                                 ms calls id)))
  = map envelope ms.
Proof.
  unfold EmailService.sendEmail, EmailService.sendEmail_try.
  destruct (negb configured); [step_envelope; simpl; congruence|].
  destruct (find (has_id id) ms) as [m|]; [|step_envelope; simpl; congruence].
  destruct (message_type m); [step_envelope; simpl; congruence|].
  destruct (negb (truthy (recipient_email m))); [step_envelope; simpl; congruence|].
  destruct (negb (truthy (subject m))); [step_envelope; simpl; congruence|].
  step_envelope; [|step_envelope; simpl; congruence].
  destruct (EmailService.sendWithRetry p calls 1) as [[pid|e] calls'];
    [|step_envelope; simpl; congruence].
  step_envelope; [simpl; congruence|].
  step_envelope; simpl; congruence.
Qed.

Lemma dispatch_loop_envelope (status_check : status -> bool) (p : provider)
      (configured : bool) (now : Z) (batch : list message) :
  forall (w : worker) (ms : list message) (calls : nat),
    map envelope (snd (fst (dispatch_loop status_check p configured now
                                          batch w ms calls)))
    = map envelope ms.
Proof.
  induction batch as [|b rest IH]; intros w ms calls; [reflexivity|].
  simpl.
  destruct (message_type b).
  - pose proof (sendSMS_envelope status_check p now ms calls (msg_id b)) as He.
    destruct (SMSService.sendSMS status_check p now ms calls (msg_id b))
      as [[ms' calls'] r].
    simpl in He. now rewrite IH.
  - pose proof (sendEmail_envelope status_check p configured now ms calls (msg_id b))
      as He.
    destruct (EmailService.sendEmail status_check p configured now ms calls (msg_id b))
      as [[ms' calls'] r].
    simpl in He. now rewrite IH.
Qed.

Lemma processMessages_envelope
      (status_check : status -> bool) (p : provider) (configured : bool)
      (w : worker) (ms : list message) (calls : nat) (now : Z) :
  map envelope (snd (fst (processMessages status_check p configured w ms calls now)))
  = map envelope ms.
Proof.
  unfold processMessages.
  destruct (isRunning w); [reflexivity|].
  destruct (_ <=? dailyMessageCount w); [reflexivity|].
  destruct (_ <=? hourlyMessageCount w); [reflexivity|].
  set (batchLimit := Z.min _ _).
  destruct (batchLimit <=? 0); [reflexivity|].
  pose proof (dispatch_loop_envelope status_check p configured now
                (pendingMessages ms batchLimit) (set_running true w) ms calls)
    as He.
  destruct (dispatch_loop status_check p configured now
              (pendingMessages ms batchLimit) (set_running true w) ms calls)
    as [[w' ms'] calls'].
  exact He.
Qed.

Lemma healthCheck_envelope (status_check : status -> bool) (w : worker)
      (ms : list message) (now : Z) :
  map envelope (fst (healthCheck status_check w ms now)) = map envelope ms.
Proof.
  unfold healthCheck.
  destruct (0 <? count_rows (stuck now) ms); [|reflexivity].
  step_envelope; reflexivity || (simpl; congruence).
Qed.

(** X12.  What the dispatch never does.  A tick of [processMessages] and a
    pass of [healthCheck] add no row, remove no row and leave, row by row, the
    key, the lead, the channel, the template, the recipients, the subject, the
    campaign and the creation time of every Message as they were: only the
    status and the columns that record the outcome change.  In particular the
    keys of the table stay unique when they were. *)
Theorem dispatch_keeps_envelopes
        (status_check : status -> bool) (p : provider) (configured : bool)
        (w : worker) (ms : list message) (calls : nat) (now : Z) :
  let ms1 := snd (fst (processMessages status_check p configured w ms calls now)) in
  let ms2 := fst (healthCheck status_check w ms now) in
  map envelope ms1 = map envelope ms
  /\ map envelope ms2 = map envelope ms
  /\ List.length ms1 = List.length ms /\ List.length ms2 = List.length ms
  /\ (NoDup (map msg_id ms) ->
      NoDup (map msg_id ms1) /\ NoDup (map msg_id ms2)).
Proof.
  intros ms1 ms2.
  pose proof (processMessages_envelope status_check p configured w ms calls now)
    as H1.
  pose proof (healthCheck_envelope status_check w ms now) as H2.
  fold ms1 in H1. fold ms2 in H2.
  assert (Hids : forall a b : list message,
            map envelope a = map envelope b -> map msg_id a = map msg_id b).
  { intros a b H.
    assert (Hid : forall l, map msg_id l
              = map (fun e => fst (fst (fst (fst (fst (fst (fst (fst e))))))))
                    (map envelope l)).
    { intros l. rewrite map_map. apply map_ext. reflexivity. }
    now rewrite (Hid a), (Hid b), H. }
  split; [exact H1|]. split; [exact H2|].
  split; [rewrite <- (length_map envelope ms1), H1; apply length_map|].
  split; [rewrite <- (length_map envelope ms2), H2; apply length_map|].
  intros Hnd. split.
  - now rewrite (Hids _ _ H1).
  - now rewrite (Hids _ _ H2).
Qed.

Lemma update_messages_rows (status_check : status -> bool) (id : uuid)
      (upd : message -> message) (ms ms' : list message) (m' : message) :
  update_messages status_check (has_id id) upd ms = Ok ms' ->
  (forall m, msg_id (upd m) = msg_id m) ->
  In m' ms' -> msg_id m' = id ->
  exists m, In m ms /\ m' = upd m.
Proof.
  intros Hu Hid Hin Hm'. apply update_messages_inv in Hu. subst ms'.
  apply in_map_iff in Hin. destruct Hin as (m & Heq & Hin).
  exists m. split; [exact Hin|].
  unfold has_id in Heq. destruct (Z.eqb_spec (msg_id m) id) as [_|Hne];
    [now symmetry|]. subst m'. contradiction.
Qed.

(** When the [try] block of a send ends well, the rows of the key are sent. *)
Lemma sendSMS_try_sent (status_check : status -> bool) (p : provider) (now : Z)
      (ms : list message) (calls : nat) (id : uuid)
      (ms' : list message) (calls' : nat) (pid : string) (m' : message) :
  SMSService.sendSMS_try status_check p now ms calls id = (ms', calls', Ok pid) ->
  In m' ms' -> msg_id m' = id ->
  msg_status m' = sent /\ sent_at m' = Some now /\ provider_message_id m' = Some pid.
Proof.
  unfold SMSService.sendSMS_try.
  destruct (find (has_id id) ms) as [m|]; [|discriminate].
  destruct (message_type m); [|discriminate].
  destruct (negb (truthy (recipient_phone m))); [discriminate|].
  destruct (update_messages status_check (has_id id) (set_status sending now) ms)
    as [ms1|]; [|discriminate].
  destruct (SMSService.sendWithRetry p calls 1) as [[pid'|e] calls1]; [|discriminate].
  destruct (update_messages status_check (has_id id) (set_sent pid' now) ms1)
    as [ms2|] eqn:Hu; [|discriminate].
  intros H Hin Hid. inversion H; subst ms2 calls1 pid'.
  destruct (update_messages_rows _ _ _ _ _ m' Hu (fun _ => eq_refl) Hin Hid)
    as (m0 & _ & ->).
  auto.
Qed.

Lemma sendEmail_try_sent (status_check : status -> bool) (p : provider)
      (configured : bool) (now : Z)
      (ms : list message) (calls : nat) (id : uuid)
      (ms' : list message) (calls' : nat) (pid : string) (m' : message) :
  EmailService.sendEmail_try status_check p configured now ms calls id
  = (ms', calls', Ok pid) ->
  In m' ms' -> msg_id m' = id ->
  msg_status m' = sent /\ sent_at m' = Some now /\ provider_message_id m' = Some pid.
Proof.
  unfold EmailService.sendEmail_try.
  destruct (negb configured); [discriminate|].
  destruct (find (has_id id) ms) as [m|]; [|discriminate].
  destruct (message_type m); [discriminate|].
  destruct (negb (truthy (recipient_email m))); [discriminate|].
  destruct (negb (truthy (subject m))); [discriminate|].
  destruct (update_messages status_check (has_id id) (set_status sending now) ms)
    as [ms1|]; [|discriminate].
  destruct (EmailService.sendWithRetry p calls 1) as [[pid'|e] calls1];
    [|discriminate].
  destruct (update_messages status_check (has_id id) (set_sent pid' now) ms1)
    as [ms2|] eqn:Hu; [|discriminate].
  intros H Hin Hid. inversion H; subst ms2 calls1 pid'.
  destruct (update_messages_rows _ _ _ _ _ m' Hu (fun _ => eq_refl) Hin Hid)
    as (m0 & _ & ->).
  auto.
Qed.

Lemma set_failed_settled (status_check : status -> bool) (id : uuid) (now : Z)
      (e : error) (ms ms' : list message) :
  update_messages status_check (has_id id) (set_failed (error_message e) now) ms
  = Ok ms' ->
  settled id now (mkSendResult false (Some e)) ms'.
Proof.
  intros Hu m' Hin Hid.
  destruct (update_messages_rows _ _ _ _ _ m' Hu (fun _ => eq_refl) Hin Hid)
    as (m0 & _ & ->).
  cbn [success]. split; [reflexivity|]. split; [reflexivity|].
  exists e. split; reflexivity.
Qed.

(** X13.  A send settles its Message.  On a store that admits status failed
    (the schema of the repository does), [sendSMS] and [sendEmail] never
    throw: they return a result, and every row of the key they were called for
    is then either sent, with the instant as sent_at, when the result reports
    success, or failed, with the instant as failed_at and the message of the
    reported error as failure_reason, when it does not.  No call leaves its
    Message pending or sending. *)
Theorem send_settles_message
        (status_check : status -> bool) (p : provider) (configured : bool)
        (now : Z) (ms : list message) (calls : nat) (id : uuid) :
  status_check failed = true ->
  (exists res,
      snd (SMSService.sendSMS status_check p now ms calls id) = Ok res
      /\ settled id now res
                 (fst (fst (SMSService.sendSMS status_check p now ms calls id))))
  /\ (exists res,
      snd (EmailService.sendEmail status_check p configured now ms calls id) = Ok res
      /\ settled id now res
                 (fst (fst (EmailService.sendEmail status_check p configured now
                                                   ms calls id)))).
Proof.
  intros Hchk. split.
  - unfold SMSService.sendSMS.
    destruct (SMSService.sendSMS_try status_check p now ms calls id)
      as [[ms1 calls1] [pid|e]] eqn:Htry.
    + eexists. split; [reflexivity|]. intros m' Hin Hid. cbn [success sr_error].
      destruct (sendSMS_try_sent _ _ _ _ _ _ _ _ _ m' Htry Hin Hid) as (? & ? & _).
      auto.
    + rewrite (HealthFacts.update_messages_ok status_check (has_id id)
                 (set_failed (error_message e) now) ms1 (fun _ => Hchk)).
      eexists. split; [reflexivity|]. cbn [fst].
      apply (set_failed_settled status_check id now e ms1).
      apply HealthFacts.update_messages_ok. intros m0. exact Hchk.
  - unfold EmailService.sendEmail.
    destruct (EmailService.sendEmail_try status_check p configured now ms calls id)
      as [[ms1 calls1] [pid|e]] eqn:Htry.
    + eexists. split; [reflexivity|]. intros m' Hin Hid. cbn [success sr_error].
      destruct (sendEmail_try_sent _ _ _ _ _ _ _ _ _ _ m' Htry Hin Hid)
        as (? & ? & _).
      auto.
    + rewrite (HealthFacts.update_messages_ok status_check (has_id id)
                 (set_failed (error_message e) now) ms1 (fun _ => Hchk)).
      eexists. split; [reflexivity|]. cbn [fst].
      apply (set_failed_settled status_check id now e ms1).
      apply HealthFacts.update_messages_ok. intros m0. exact Hchk.
Qed.

(** On the schema of the repository a send of a pending SMS Message returns
    without success and leaves the Message failed. *)
Lemma send_settles_message_witness :
  exists res,
    snd (SMSService.sendSMS messages_status_check DispatchSample.accepting
                            Sample.three_days_later [DispatchSample.ready_sms]
                            0 900) = Ok res
    /\ success res = false
    /\ settled 900 Sample.three_days_later res
               (fst (fst (SMSService.sendSMS messages_status_check
                            DispatchSample.accepting Sample.three_days_later
                            [DispatchSample.ready_sms] 0 900))).
Proof.
  destruct (proj1 (send_settles_message messages_status_check
                     DispatchSample.accepting true Sample.three_days_later
                     [DispatchSample.ready_sms] 0%nat 900 eq_refl))
    as (res & Hres & Hs).
  exists res. split; [exact Hres|]. split; [|exact Hs].
  vm_compute in Hres. inversion Hres. reflexivity.
Defined.

(** The row of a key in a table with unique keys. *)
Lemma split_row (ms : list message) (b : message) :
  NoDup (map msg_id ms) -> In b ms ->
  exists l1 l2, ms = l1 ++ b :: l2
                /\ forall m, In m (l1 ++ l2) -> msg_id m <> msg_id b.
Proof.
  intros Hnd Hin. apply in_split in Hin. destruct Hin as (l1 & l2 & ->).
  exists l1, l2. split; [reflexivity|].
  rewrite map_app in Hnd. simpl in Hnd. apply NoDup_remove_2 in Hnd.
  intros m Hm Heq. apply Hnd. rewrite <- map_app, <- Heq. now apply in_map.
Qed.

Lemma find_row (id : uuid) (l1 l2 : list message) (b : message) :
  (forall m, In m (l1 ++ l2) -> msg_id m <> id) -> msg_id b = id ->
  find (has_id id) (l1 ++ b :: l2) = Some b.
Proof.
  intros Hothers Hb. induction l1 as [|x l1 IH]; simpl.
  - unfold has_id. now rewrite Hb, Z.eqb_refl.
  - assert (Hx : has_id id x = false).
    { unfold has_id. apply Z.eqb_neq. apply Hothers. now left. }
    rewrite Hx. apply IH. intros m Hin. apply Hothers. now right.
Qed.

Lemma update_row (status_check : status -> bool) (id : uuid)
      (upd : message -> message) (l1 l2 : list message) (b : message)
      (ms' : list message) :
  (forall m, In m (l1 ++ l2) -> msg_id m <> id) -> msg_id b = id ->
  update_messages status_check (has_id id) upd (l1 ++ b :: l2) = Ok ms' ->
  ms' = l1 ++ upd b :: l2.
Proof.
  intros Hothers Hb Hu. apply update_messages_inv in Hu. subst ms'.
  assert (Hkeep : forall l, (forall m, In m l -> msg_id m <> id) ->
            map (fun m => if has_id id m then upd m else m) l = l).
  { induction l as [|x l IH]; intros H; [reflexivity|].
    simpl. rewrite IH by (intros m Hin; apply H; now right).
    unfold has_id. destruct (Z.eqb_spec (msg_id x) id) as [Heq|_]; [|reflexivity].
    exfalso. apply (H x); [now left|exact Heq]. }
  rewrite map_app. simpl.
  rewrite !Hkeep by (intros m Hin; apply Hothers; apply in_or_app; auto).
  unfold has_id. now rewrite Hb, Z.eqb_refl.
Qed.

(** Case analysis on the next UPDATE of the goal, on a table given as the
    rows around the row of the key. *)
Ltac step_row Hothers :=
  cbn beta iota;
  match goal with
  | |- context [update_messages ?chk (has_id ?id) ?upd (?l1 ++ ?x :: ?l2)] =>
    let ms' := fresh "ms" in
    let Hu := fresh "Hu" in
    destruct (update_messages chk (has_id id) upd (l1 ++ x :: l2)) as [ms'|] eqn:Hu;
    [apply (update_row chk id upd l1 l2 x ms' Hothers eq_refl) in Hu; subst ms'|]
  end.

Lemma sendSMS_row (status_check : status -> bool) (p : provider) (now : Z)
      (l1 l2 : list message) (b : message) (calls : nat) :
  (forall m, In m (l1 ++ l2) -> msg_id m <> msg_id b) ->
  msg_status b = pending ->
  send_outcome now l1 l2
    (SMSService.sendSMS status_check p now (l1 ++ b :: l2) calls (msg_id b)).
Proof.
  intros Hothers Hb.
  unfold send_outcome, SMSService.sendSMS, SMSService.sendSMS_try.
  rewrite (find_row (msg_id b) l1 l2 b Hothers eq_refl).
  destruct (message_type b).
  2:{ step_row Hothers; eexists; (split; [reflexivity|]); simpl; auto. }
  destruct (negb (truthy (recipient_phone b))).
  { step_row Hothers; eexists; (split; [reflexivity|]); simpl; auto. }
  step_row Hothers.
  2:{ step_row Hothers; eexists; (split; [reflexivity|]); simpl; auto. }
  destruct (SMSService.sendWithRetry p calls 1) as [[pid|e] calls'].
  2:{ step_row Hothers; eexists; (split; [reflexivity|]); simpl; auto. }
  step_row Hothers.
  { eexists; (split; [reflexivity|]); simpl; auto. }
  step_row Hothers; eexists; (split; [reflexivity|]); simpl; auto.
Qed.

Lemma sendEmail_row (status_check : status -> bool) (p : provider)
      (configured : bool) (now : Z)
      (l1 l2 : list message) (b : message) (calls : nat) :
  (forall m, In m (l1 ++ l2) -> msg_id m <> msg_id b) ->
  msg_status b = pending ->
  send_outcome now l1 l2
    (EmailService.sendEmail status_check p configured now (l1 ++ b :: l2) calls
                            (msg_id b)).
Proof.
  intros Hothers Hb.
  unfold send_outcome, EmailService.sendEmail, EmailService.sendEmail_try.
  destruct (negb configured).
  { step_row Hothers; eexists; (split; [reflexivity|]); simpl; auto. }
  rewrite (find_row (msg_id b) l1 l2 b Hothers eq_refl).
  destruct (message_type b).
  { step_row Hothers; eexists; (split; [reflexivity|]); simpl; auto. }
  destruct (negb (truthy (recipient_email b))).
  { step_row Hothers; eexists; (split; [reflexivity|]); simpl; auto. }
  destruct (negb (truthy (subject b))).
  { step_row Hothers; eexists; (split; [reflexivity|]); simpl; auto. }
  step_row Hothers.
  2:{ step_row Hothers; eexists; (split; [reflexivity|]); simpl; auto. }
  destruct (EmailService.sendWithRetry p calls 1) as [[pid|e] calls'].
  2:{ step_row Hothers; eexists; (split; [reflexivity|]); simpl; auto. }
  step_row Hothers.
  { eexists; (split; [reflexivity|]); simpl; auto. }
  step_row Hothers; eexists; (split; [reflexivity|]); simpl; auto.
Qed.

Lemma count_rows_row (f : message -> bool) (l1 l2 : list message) (x : message) :
  count_rows f (l1 ++ x :: l2)
  = count_rows f l1 + (if f x then 1 else 0) + count_rows f l2.
Proof.
  unfold count_rows. rewrite filter_app, length_app. simpl.
  destruct (f x); simpl; lia.
Qed.

Lemma envelope_ids (ms ms' : list message) :
  map envelope ms' = map envelope ms -> map msg_id ms' = map msg_id ms.
Proof.
  intros H.
  assert (Hid : forall l, map msg_id l
                          = map (fun e => fst (fst (fst (fst (fst (fst (fst (fst e))))))))
                                (map envelope l)).
  { intros l. rewrite map_map. apply map_ext. reflexivity. }
  now rewrite (Hid ms'), (Hid ms), H.
Qed.

(** The loop of a tick over pending rows of distinct keys: each send that
    reports success advances both counters by one and adds one row to those
    counted from [since] on. *)
Lemma dispatch_loop_counts (status_check : status -> bool) (p : provider)
      (configured : bool) (now since : Z) (batch : list message) :
  since <= now ->
  forall (w : worker) (ms : list message) (calls : nat),
    NoDup (map msg_id ms) ->
    NoDup (map msg_id batch) ->
    (forall b, In b batch -> In b ms /\ msg_status b = pending) ->
    exists k,
      0 <= k <= Z.of_nat (List.length batch)
      /\ hourlyMessageCount
           (fst (fst (dispatch_loop status_check p configured now batch w ms calls)))
         = hourlyMessageCount w + k
      /\ dailyMessageCount
           (fst (fst (dispatch_loop status_check p configured now batch w ms calls)))
         = dailyMessageCount w + k
      /\ count_rows (counted since)
           (snd (fst (dispatch_loop status_check p configured now batch w ms calls)))
         = count_rows (counted since) ms + k.
Proof.
  intros Hsince.
  induction batch as [|b rest IH]; intros w ms calls Hnd Hndb Hall.
  - exists 0. simpl. repeat split; lia.
  - destruct (Hall b (or_introl eq_refl)) as [Hin Hpending].
    destruct (split_row ms b Hnd Hin) as (l1 & l2 & -> & Hothers).
    simpl in Hndb. apply NoDup_cons_iff in Hndb. destruct Hndb as [Hnotin Hndb].
    assert (Hout : send_outcome now l1 l2
              (match message_type b with
               | SMS => SMSService.sendSMS status_check p now (l1 ++ b :: l2) calls
                                           (msg_id b)
               | EMAIL => EmailService.sendEmail status_check p configured now
                                                 (l1 ++ b :: l2) calls (msg_id b)
               end)).
    { destruct (message_type b); [now apply sendSMS_row|now apply sendEmail_row]. }
    assert (Henv : map envelope
              (fst (fst (match message_type b with
               | SMS => SMSService.sendSMS status_check p now (l1 ++ b :: l2) calls
                                           (msg_id b)
               | EMAIL => EmailService.sendEmail status_check p configured now
                                                 (l1 ++ b :: l2) calls (msg_id b)
               end))) = map envelope (l1 ++ b :: l2)).
    { destruct (message_type b); [apply sendSMS_envelope|apply sendEmail_envelope]. }
    simpl.
    destruct (match message_type b with
              | SMS => SMSService.sendSMS status_check p now (l1 ++ b :: l2) calls
                                          (msg_id b)
              | EMAIL => EmailService.sendEmail status_check p configured now
                                                (l1 ++ b :: l2) calls (msg_id b)
              end) as [[ms' calls'] r].
    destruct Hout as (b' & Hms' & Hr). simpl in Hms', Hr, Henv. subst ms'.
    assert (Hnd' : NoDup (map msg_id (l1 ++ b' :: l2)))
      by (rewrite (envelope_ids _ _ Henv); exact Hnd).
    assert (Hall' : forall x, In x rest ->
                      In x (l1 ++ b' :: l2) /\ msg_status x = pending).
    { intros x Hx. destruct (Hall x (or_intror Hx)) as [Hxin Hxs].
      split; [|exact Hxs].
      apply in_app_or in Hxin. apply in_or_app.
      destruct Hxin as [Hxin|[Hxb|Hxin]]; [now left| |right; now right].
      exfalso. apply Hnotin. rewrite Hxb. now apply in_map. }
    assert (Hb0 : counted since b = false).
    { unfold counted, sent_or_delivered. rewrite Hpending.
      destruct (sent_at b); [apply andb_false_r|reflexivity]. }
    set (w' := match r with
               | Ok res => if success res then count_one_sent w else w
               | Err _ => w
               end).
    destruct (IH w' (l1 ++ b' :: l2) calls' Hnd' Hndb Hall')
      as (k & Hk & Hh & Hd & Hc).
    assert (Hstep : exists j,
               0 <= j <= 1
               /\ hourlyMessageCount w' = hourlyMessageCount w + j
               /\ dailyMessageCount w' = dailyMessageCount w + j
               /\ (if counted since b' then 1 else 0) = j).
    { unfold w'. destruct r as [res|e].
      - destruct (success res).
        + exists 1. simpl. repeat split; try lia.
          unfold counted, sent_or_delivered.
          destruct Hr as [-> ->]. simpl.
          destruct (Z.leb_spec since now); [reflexivity|lia].
        + exists 0. repeat split; try lia.
          unfold counted, sent_or_delivered. rewrite Hr.
          destruct (sent_at b'); [now rewrite andb_false_r|reflexivity].
      - exists 0. repeat split; try lia.
        unfold counted, sent_or_delivered.
        destruct Hr as [-> | ->];
          (destruct (sent_at b'); [now rewrite andb_false_r|reflexivity]). }
    destruct Hstep as (j & Hj & Hhj & Hdj & Hcj).
    exists (j + k).
    change (List.length (b :: rest)) with (S (List.length rest)).
    rewrite Hh, Hd, Hc, Hhj, Hdj.
    rewrite !count_rows_row, Hb0, Hcj.
    repeat split; lia.
Qed.

Lemma pendingMessages_NoDup (ms : list message) (batchLimit : Z) :
  NoDup (map msg_id ms) -> NoDup (map msg_id (pendingMessages ms batchLimit)).
Proof.
  intros Hnd. unfold pendingMessages, limit_offset. simpl skipn.
  set (sorted := order_by _ _).
  assert (Hs : NoDup (map msg_id sorted)).
  { apply (Permutation_NoDup
             (l := map msg_id (filter (fun m => status_eqb (msg_status m) pending) ms))).
    - apply Permutation_map. symmetry. apply order_by_Permutation.
    - now apply SequenceFacts.NoDup_map_filter. }
  rewrite <- (firstn_skipn (Z.to_nat batchLimit) sorted), map_app in Hs.
  now apply NoDup_app_remove_r in Hs.
Qed.

Lemma dispatch_loop_bounds (status_check : status -> bool) (p : provider)
      (configured : bool) (now : Z) (batch : list message) :
  forall (w : worker) (ms : list message) (calls : nat),
    exists k,
      0 <= k <= Z.of_nat (List.length batch)
      /\ fst (fst (dispatch_loop status_check p configured now batch w ms calls))
         = mkWorker (isRunning w) (dailyMessageCount w + k) (hourlyMessageCount w + k)
                    (lastHourReset w) (lastDayReset w) (w_settings w).
Proof.
  induction batch as [|b rest IH]; intros w ms calls.
  - exists 0. split; [simpl; lia|]. simpl. rewrite !Z.add_0_r. now destruct w.
  - simpl.
    destruct (match message_type b with
              | SMS => SMSService.sendSMS status_check p now ms calls (msg_id b)
              | EMAIL => EmailService.sendEmail status_check p configured now ms calls
                                                (msg_id b)
              end) as [[ms' calls'] r].
    set (w' := match r with
               | Ok res => if success res then count_one_sent w else w
               | Err _ => w
               end).
    destruct (IH w' ms' calls') as (k & Hk & ->).
    assert (Hw : exists j, 0 <= j <= 1
               /\ w' = mkWorker (isRunning w) (dailyMessageCount w + j)
                                (hourlyMessageCount w + j)
                                (lastHourReset w) (lastDayReset w) (w_settings w)).
    { unfold w'. destruct r as [res|e]; [destruct (success res)|].
      - exists 1. split; [lia|reflexivity].
      - exists 0. split; [lia|]. rewrite !Z.add_0_r. now destruct w.
      - exists 0. split; [lia|]. rewrite !Z.add_0_r. now destruct w. }
    destruct Hw as (j & Hj & ->). exists (j + k).
    change (List.length (b :: rest)) with (S (List.length rest)).
    split; [lia|]. cbn. now rewrite !Z.add_assoc.
Qed.

(** X14.  A tick keeps within the limits.  It advances the daily and the
    hourly counter by the same number of Messages, at most [batchSize]; it
    never lowers a counter and never moves one past its limit; it changes
    nothing else of the worker; and it asks the providers at most three times
    per Message of the batch.  A tick that finds a counter at its limit asks
    no provider and changes no row. *)
Theorem processMessages_within_limits
        (status_check : status -> bool) (p : provider) (configured : bool)
        (w : worker) (ms : list message) (calls : nat) (now : Z) :
  let w' := fst (fst (processMessages status_check p configured w ms calls now)) in
  let ms' := snd (fst (processMessages status_check p configured w ms calls now)) in
  let calls' := snd (processMessages status_check p configured w ms calls now) in
  let s := w_settings w in
  (exists k,
      0 <= k <= Z.max 0 (batchSize s)
      /\ w' = mkWorker (isRunning w) (dailyMessageCount w + k)
                       (hourlyMessageCount w + k)
                       (lastHourReset w) (lastDayReset w) s
      /\ dailyMessageCount w + k <= Z.max (dailyMessageCount w) (dailyLimit s)
      /\ hourlyMessageCount w + k <= Z.max (hourlyMessageCount w) (hourlyLimit s)
      /\ (Z.of_nat calls <= Z.of_nat calls'
          <= Z.of_nat calls + 3 * Z.max 0 (batchSize s)))
  /\ (dailyLimit s <= dailyMessageCount w \/ hourlyLimit s <= hourlyMessageCount w ->
      ms' = ms /\ calls' = calls).
Proof.
  intros w' ms' calls' s. unfold w', ms', calls', processMessages. fold s.
  assert (Hsame : w = mkWorker (isRunning w) (dailyMessageCount w + 0)
                               (hourlyMessageCount w + 0)
                               (lastHourReset w) (lastDayReset w) s)
    by (rewrite !Z.add_0_r; unfold s; now destruct w).
  destruct (isRunning w) eqn:Hrun.
  { split; [|auto]. exists 0. cbn [fst snd]. repeat split; try lia. exact Hsame. }
  assert (Hidle : set_running false w
                  = mkWorker false (dailyMessageCount w + 0)
                             (hourlyMessageCount w + 0)
                             (lastHourReset w) (lastDayReset w) s)
    by (unfold set_running; now rewrite !Z.add_0_r).
  destruct (Z.leb_spec (dailyLimit s) (dailyMessageCount w)) as [Hd|Hd].
  { split; [|auto]. exists 0. cbn [fst snd]. repeat split; try lia. exact Hidle. }
  destruct (Z.leb_spec (hourlyLimit s) (hourlyMessageCount w)) as [Hh|Hh].
  { split; [|auto]. exists 0. cbn [fst snd]. repeat split; try lia. exact Hidle. }
  split; [|lia].
  set (batchLimit := Z.min _ _).
  destruct (Z.leb_spec batchLimit 0) as [Hb|Hb].
  { exists 0. cbn [fst snd]. repeat split; try lia. exact Hidle. }
  pose proof (dispatch_loop_bounds status_check p configured now
                (pendingMessages ms batchLimit) (set_running true w) ms calls)
    as (k & Hk & Hw).
  pose proof (proj2 (DispatchFacts.dispatch_loop_frame status_check p configured now
                       (pendingMessages ms batchLimit) (set_running true w) ms calls))
    as Hcalls.
  assert (Hlen : Z.of_nat (List.length (pendingMessages ms batchLimit)) <= batchLimit)
    by (apply AdmissionFacts.limit_offset_length; lia).
  destruct (dispatch_loop status_check p configured now
              (pendingMessages ms batchLimit) (set_running true w) ms calls)
    as [[w1 ms1] calls1].
  cbn [fst snd] in *. subst w1.
  exists k. unfold batchLimit in *.
  repeat split; try lia.
Qed.

Lemma StronglySorted_app_le {A : Type} (R : A -> A -> Prop) (l1 l2 : list A) :
  StronglySorted R (l1 ++ l2) ->
  forall a b, In a l1 -> In b l2 -> R a b.
Proof.
  induction l1 as [|x l1 IH]; intros Hs a b Ha Hb; [contradiction|].
  simpl in Hs. apply StronglySorted_inv in Hs. destruct Hs as [Hs Hall].
  destruct Ha as [<-|Ha]; [|now apply IH].
  rewrite Forall_forall in Hall. apply Hall. apply in_or_app. now right.
Qed.

(** X15.  The batch of a tick is fair.  For a positive limit, as the tick
    passes it, the batch holds pending Messages of the table only, as many as
    the limit allows, in the order of their creation; and no pending Message
    left out was created before one that was taken. *)
Theorem pendingMessages_oldest_first (ms : list message) (batchLimit : Z) :
  0 < batchLimit ->
  let batch := pendingMessages ms batchLimit in
  Z.of_nat (List.length batch)
  = Z.min batchLimit (count_rows (fun m => status_eqb (msg_status m) pending) ms)
  /\ StronglySorted (fun a b => created_at a <= created_at b) batch
  /\ (forall b, In b batch -> In b ms /\ msg_status b = pending)
  /\ (forall m b, In m ms -> msg_status m = pending -> ~ In m batch ->
                  In b batch -> created_at b <= created_at m).
Proof.
  intros Hpos batch.
  assert (Hsorted : StronglySorted (fun a b => (created_at a <=? created_at b) = true)
            (order_by (fun a b => created_at a <=? created_at b)
                      (filter (fun m => status_eqb (msg_status m) pending) ms))).
  { apply order_by_StronglySorted.
    - intros a b. destruct (Z.leb_spec (created_at a) (created_at b)); [now left|].
      right. apply Z.leb_le. lia.
    - intros a b c H1 H2. apply Z.leb_le in H1, H2. apply Z.leb_le. lia. }
  unfold batch, pendingMessages, limit_offset. simpl skipn.
  set (sorted := order_by _ _) in *.
  split; [|split; [|split]].
  - rewrite length_firstn. unfold sorted.
    rewrite (Permutation_length (order_by_Permutation _ _ _)).
    unfold count_rows. lia.
  - assert (Hf : StronglySorted
                   (fun a b => (created_at a <=? created_at b) = true)
                   (firstn (Z.to_nat batchLimit) sorted)).
    { rewrite <- (firstn_skipn (Z.to_nat batchLimit) sorted) in Hsorted.
      clear -Hsorted.
      induction (firstn (Z.to_nat batchLimit) sorted) as [|x l IH]; [constructor|].
      simpl in Hsorted. apply StronglySorted_inv in Hsorted.
      destruct Hsorted as [Hs Hall]. constructor; [now apply IH|].
      rewrite Forall_forall in *. intros y Hy. apply Hall. apply in_or_app.
      now left. }
    clear -Hf.
    induction Hf as [|x l Hs IH Hall]; constructor; [exact IH|].
    rewrite Forall_forall in *. intros y Hy. apply Z.leb_le. now apply Hall.
  - apply DispatchFacts.pendingMessages_In.
  - intros m b Hin Hpend Hout Hb.
    assert (Hm : In m sorted).
    { unfold sorted. apply order_by_In. apply filter_In. split; [exact Hin|].
      now rewrite Hpend. }
    rewrite <- (firstn_skipn (Z.to_nat batchLimit) sorted) in Hm, Hsorted.
    apply in_app_or in Hm. destruct Hm as [Hm|Hm]; [contradiction|].
    apply Z.leb_le.
    exact (StronglySorted_app_le _ _ _ Hsorted b m Hb Hm).
Qed.

(** With room for one Message, the batch takes the oldest pending one. *)
Lemma pendingMessages_oldest_first_witness :
  let ms := [DispatchSample.ready_sms; DispatchSample.dead; DispatchSample.stale] in
  pendingMessages ms 1 = [DispatchSample.stale]
  /\ forall m b, In m ms -> msg_status m = pending ->
                 ~ In m (pendingMessages ms 1) ->
                 In b (pendingMessages ms 1) -> created_at b <= created_at m.
Proof.
  intros ms. split; [reflexivity|].
  exact (proj2 (proj2 (proj2 (pendingMessages_oldest_first ms 1 ltac:(lia))))).
Defined.

Lemma sms_sendWithRetry_left_spec (p : provider) (left : nat) :
  forall calls,
    let out := SMSService.sendWithRetry_left left p calls in
    (calls < snd out <= calls + S left)%nat
    /\ (forall j, (calls <= j < pred (snd out))%nat ->
                  exists c m, p j = Rejected c m)
    /\ match fst out with
       | Ok pid => p (pred (snd out)) = Accepted pid
       | Err e => snd out = (calls + S left)%nat
                  /\ exists c m, e = ProviderError c m
                                 /\ p (pred (snd out)) = Rejected c m
       end.
Proof.
  induction left as [|left IH]; intros calls; simpl.
  - destruct (p calls) as [pid|c m] eqn:Hp; simpl.
    + split; [lia|]. split; [intros j Hj; lia|exact Hp].
    + split; [lia|]. split; [intros j Hj; lia|].
      split; [lia|]. now exists c, m.
  - destruct (p calls) as [pid|c m] eqn:Hp; simpl.
    + split; [lia|]. split; [intros j Hj; lia|exact Hp].
    + destruct (IH (S calls)) as (Hb & Hrej & Hres).
      split; [lia|]. split.
      * intros j Hj. destruct (Nat.eq_dec j calls) as [->|Hne];
          [now exists c, m|]. apply Hrej. lia.
      * destruct (fst (SMSService.sendWithRetry_left left p (S calls))).
        -- exact Hres.
        -- destruct Hres as [Hc He]. split; [lia|exact He].
Qed.

Lemma email_sendWithRetry_left_spec (p : provider) (left : nat) :
  forall calls,
    let out := EmailService.sendWithRetry_left left p calls in
    (calls < snd out <= calls + S left)%nat
    /\ (forall j, (calls <= j < pred (snd out))%nat ->
                  exists c m, p j = Rejected c m
                              /\ EmailService.isRetryableError c = true)
    /\ match fst out with
       | Ok pid => p (pred (snd out)) = Accepted pid
       | Err e => exists c m, e = ProviderError c m
                              /\ p (pred (snd out)) = Rejected c m
                              /\ (snd out = (calls + S left)%nat
                                  \/ EmailService.isRetryableError c = false)
       end.
Proof.
  induction left as [|left IH]; intros calls; simpl.
  - destruct (p calls) as [pid|c m] eqn:Hp; simpl.
    + split; [lia|]. split; [intros j Hj; lia|exact Hp].
    + split; [lia|]. split; [intros j Hj; lia|].
      exists c, m. split; [reflexivity|]. split; [exact Hp|left; lia].
  - destruct (p calls) as [pid|c m] eqn:Hp; simpl.
    + split; [lia|]. split; [intros j Hj; lia|exact Hp].
    + destruct (EmailService.isRetryableError c) eqn:Hretry; simpl.
      * destruct (IH (S calls)) as (Hb & Hrej & Hres).
        split; [lia|]. split.
        -- intros j Hj. destruct (Nat.eq_dec j calls) as [->|Hne];
             [now exists c, m|]. apply Hrej. lia.
        -- destruct (fst (EmailService.sendWithRetry_left left p (S calls)));
             [exact Hres|].
           destruct Hres as (c' & m' & He & Hp' & Hor).
           exists c', m'. split; [exact He|]. split; [exact Hp'|].
           destruct Hor as [Hor|Hor]; [left; lia|now right].
      * split; [lia|]. split; [intros j Hj; lia|].
        exists c, m. split; [reflexivity|]. split; [exact Hp|now right].
Qed.

(** X16.  What the retries return.  [sendWithRetry] asks the provider until a
    request is accepted and returns the key of that first acceptance; every
    request before the last one was rejected.  The SMS service gives up only
    after three rejections and throws the error of the third.  The e-mail
    service goes on only after a rejection with one of the codes 429, 500,
    502, 503 and 504: it throws the first rejection with another code, or the
    third rejection. *)
Theorem sendWithRetry_first_acceptance (p : provider) (calls : nat) :
  let sms := SMSService.sendWithRetry p calls 1 in
  let mail := EmailService.sendWithRetry p calls 1 in
  ((forall j, (calls <= j < pred (snd sms))%nat -> exists c m, p j = Rejected c m)
   /\ match fst sms with
      | Ok pid => p (pred (snd sms)) = Accepted pid
      | Err e => snd sms = (calls + 3)%nat
                 /\ exists c m, e = ProviderError c m
                                /\ p (calls + 2)%nat = Rejected c m
      end)
  /\ ((forall j, (calls <= j < pred (snd mail))%nat ->
                 exists c m, p j = Rejected c m
                             /\ EmailService.isRetryableError c = true)
      /\ match fst mail with
         | Ok pid => p (pred (snd mail)) = Accepted pid
         | Err e => exists c m, e = ProviderError c m
                                /\ p (pred (snd mail)) = Rejected c m
                                /\ (snd mail = (calls + 3)%nat
                                    \/ EmailService.isRetryableError c = false)
         end).
Proof.
  intros sms mail. split.
  - destruct (sms_sendWithRetry_left_spec p 2 calls) as (_ & Hrej & Hres).
    split; [exact Hrej|].
    unfold sms, SMSService.sendWithRetry. simpl Nat.sub.
    destruct (fst (SMSService.sendWithRetry_left 2 p calls)); [exact Hres|].
    destruct Hres as (Hc & c & m & He & Hp). split; [exact Hc|].
    exists c, m. split; [exact He|].
    rewrite Hc in Hp. now replace (pred (calls + 3)) with (calls + 2)%nat in Hp by lia.
  - destruct (email_sendWithRetry_left_spec p 2 calls) as (_ & Hrej & Hres).
    split; [exact Hrej|exact Hres].
Qed.

(** The table a pass of the health check leaves. *)
Lemma healthCheck_table (status_check : status -> bool) (w : worker)
      (ms : list message) (now : Z) :
  status_check failed = true ->
  fst (healthCheck status_check w ms now)
  = map (fun m => if stuck now m then set_failed stuck_reason now m else m) ms.
Proof.
  intros Hchk. unfold healthCheck.
  destruct (0 <? count_rows (stuck now) ms) eqn:Hpos.
  - now rewrite HealthFacts.update_messages_ok by (intros m; exact Hchk).
  - assert (Hz : count_rows (stuck now) ms = 0).
    { apply Z.ltb_ge in Hpos. unfold count_rows in *. lia. }
    simpl. rewrite <- (map_id ms) at 1. apply map_ext_in. intros m Hin.
    now rewrite (HealthFacts.count_rows_zero _ _ Hz m Hin).
Qed.

(** X17.  A pass of the health check is final.  On a store that admits status
    failed, after a pass at [now] no Message is stuck at any instant up to
    [now]: a further pass at such an instant reports no stuck Message and
    leaves every row, the failed_at and the reason of the reclaimed ones
    included, as the first pass left it. *)
Theorem healthCheck_idempotent
        (status_check : status -> bool) (w w' : worker) (ms : list message)
        (now now' : Z) :
  status_check failed = true ->
  now' <= now ->
  let ms1 := fst (healthCheck status_check w ms now) in
  (forall m, In m ms1 -> stuck now' m = false)
  /\ fst (healthCheck status_check w' ms1 now') = ms1
  /\ exists report,
      snd (healthCheck status_check w' ms1 now') = Ok report
      /\ stuckMessages report = 0.
Proof.
  intros Hchk Hle ms1.
  assert (Hms1 : ms1 = map (fun m => if stuck now m
                                     then set_failed stuck_reason now m else m) ms).
  { unfold ms1. now apply healthCheck_table. }
  assert (Hnone : forall m, In m ms1 -> stuck now' m = false).
  { intros m Hin. rewrite Hms1 in Hin. apply in_map_iff in Hin.
    destruct Hin as (m0 & <- & _).
    destruct (stuck now m0) eqn:Hs; [reflexivity|].
    unfold stuck in *. destruct (status_eqb (msg_status m0) sending); [|reflexivity].
    simpl in *. apply Z.ltb_ge in Hs. apply Z.ltb_ge. lia. }
  assert (Hzero : count_rows (stuck now') ms1 = 0).
  { unfold count_rows.
    replace (filter (stuck now') ms1) with (@nil message); [reflexivity|].
    symmetry. clear -Hnone. induction ms1 as [|m l IH]; [reflexivity|].
    simpl. rewrite (Hnone m (or_introl eq_refl)).
    apply IH. intros x Hx. apply Hnone. now right. }
  split; [exact Hnone|].
  unfold healthCheck. rewrite Hzero. simpl.
  split; [reflexivity|]. eexists. split; reflexivity.
Qed.

Lemma healthCheck_idempotent_witness :
  let now := Sample.three_days_later in
  let w := constructor now in
  let ms1 := fst (healthCheck DispatchSample.any_status w
                              [DispatchSample.in_flight; DispatchSample.stale] now) in
  map msg_status ms1 = [failed; pending]
  /\ fst (healthCheck DispatchSample.any_status w ms1 now) = ms1.
Proof.
  intros now w ms1. split; [reflexivity|].
  exact (proj1 (proj2 (healthCheck_idempotent
                         DispatchSample.any_status w w
                         [DispatchSample.in_flight; DispatchSample.stale]
                         now now eq_refl (Z.le_refl now)))).
Defined.

Lemma generateMessage_contact (st : store) (leadId : uuid) (t : string)
      (md : MessageGeneration.messageData) :
  MessageGeneration.generateMessage st leadId t = Ok md ->
  exists l,
    MessageGeneration.find_lead st leadId = Some l
    /\ MessageGeneration.getRecipient l (MessageGeneration.md_messageType md)
       = Some (MessageGeneration.md_contact md)
    /\ truthy (Some (MessageGeneration.md_contact md)) = true
    /\ MessageGeneration.md_leadId md = leadId.
Proof.
  unfold MessageGeneration.generateMessage. intros H.
  destruct (MessageGeneration.find_lead st leadId) as [l|]; [|discriminate].
  destruct (MessageGeneration.find_active_template st t) as [tp|]; [|discriminate].
  destruct (MessageGeneration.getRecipient l (tpl_type tp)) as [c|] eqn:Hr;
    [|discriminate].
  destruct (String.eqb c "") eqn:Hc; [discriminate|].
  inversion H; subst; clear H. exists l. simpl.
  repeat split; [exact Hr|now rewrite Hc].
Qed.

(** X18.  From creation to delivery.  A Message that [createCampaignMessage]
    has just created, under a key no other row holds, can be dispatched: on a
    store that admits the statuses sending and sent, and with a provider that
    accepts the request (for an e-mail, with the provider configured and a
    subject on the Message), the send of its channel succeeds with one request
    and leaves the row sent, with the provider's key, addressed to the phone
    number or the e-mail address of the lead it was created for; no other row
    changes. *)
Theorem created_message_is_dispatchable
        (st : store) (now : Z) (leadId campaignId : uuid)
        (templateName : option string) (st' : store) (id : uuid)
        (md : MessageGeneration.messageData)
        (status_check : status -> bool) (p : provider) (configured : bool)
        (calls : nat) (now' : Z) (pid : string) :
  MessageGeneration.createCampaignMessage st now leadId campaignId templateName
  = Ok (st', (id, md)) ->
  (forall m, In m (messages st) -> msg_id m <> next_uuid st) ->
  status_check sending = true -> status_check sent = true ->
  p calls = Accepted pid ->
  (MessageGeneration.md_messageType md = EMAIL ->
   configured = true /\ truthy (MessageGeneration.md_subject md) = true) ->
  exists l m',
    MessageGeneration.find_lead st leadId = Some l
    /\ match MessageGeneration.md_messageType md with
       | SMS => SMSService.sendSMS status_check p now' (messages st') calls id
       | EMAIL => EmailService.sendEmail status_check p configured now'
                                         (messages st') calls id
       end = (messages st ++ [m'], S calls, Ok (mkSendResult true None))
    /\ msg_id m' = id /\ msg_lead_id m' = leadId
    /\ campaign_id m' = Some campaignId
    /\ msg_status m' = sent /\ sent_at m' = Some now'
    /\ provider_message_id m' = Some pid
    /\ match MessageGeneration.md_messageType md with
       | SMS => recipient_phone m' = phone l
       | EMAIL => recipient_email m' = email l
       end.
Proof.
  intros Hcreate Hfresh Hsending Hsent Hp Hmail.
  unfold MessageGeneration.createCampaignMessage in Hcreate.
  destruct (MessageGeneration.find_campaign st campaignId) as [c|]; [|discriminate].
  set (t := if truthy templateName then _ else _) in Hcreate. clearbody t.
  destruct (MessageGeneration.generateMessage st leadId t) as [md0|e] eqn:Hg;
    [|discriminate].
  simpl in Hcreate. inversion Hcreate; subst st' id md0; clear Hcreate.
  destruct (generateMessage_contact _ _ _ _ Hg) as (l & Hl & Hr & Hc & Hid).
  cbn [messages].
  set (b := MessageGeneration.new_message (next_uuid st) now campaignId md).
  assert (Hothers : forall m, In m (messages st ++ []) -> msg_id m <> next_uuid st)
    by (intros m Hin; rewrite app_nil_r in Hin; now apply Hfresh).
  assert (Hfind : find (has_id (next_uuid st)) (messages st ++ [b]) = Some b)
    by (apply find_row; [exact Hothers|reflexivity]).
  assert (Hup : forall upd st0,
            status_check st0 = true ->
            (forall m, msg_status (upd m) = st0) ->
            (forall x, msg_id x = next_uuid st ->
               update_messages status_check (has_id (next_uuid st)) upd
                               (messages st ++ [x])
               = Ok (messages st ++ [upd x]))).
  { intros upd st0 Hst Hu x Hx.
    destruct (update_messages status_check (has_id (next_uuid st)) upd
                              (messages st ++ [x])) as [ms'|e] eqn:Hupd.
    - now rewrite (update_row _ _ _ _ _ _ _ Hothers Hx Hupd).
    - rewrite HealthFacts.update_messages_ok in Hupd; [discriminate|].
      intros m. now rewrite Hu. }
  exists l.
  destruct (MessageGeneration.md_messageType md) eqn:Hty.
  - exists (set_sent pid now' (set_status sending now' b)).
    split; [exact Hl|]. split.
    + unfold SMSService.sendSMS, SMSService.sendSMS_try. rewrite Hfind.
      assert (Hbt : message_type b = SMS) by (unfold b; simpl; exact Hty).
      assert (Hbp : recipient_phone b = Some (MessageGeneration.md_contact md))
        by (unfold b; simpl; now rewrite Hty).
      rewrite Hbt, Hbp, Hc. cbn [negb].
      rewrite (Hup (set_status sending now') sending Hsending (fun _ => eq_refl) b
                   eq_refl).
      unfold SMSService.sendWithRetry. simpl SMSService.sendWithRetry_left.
      rewrite Hp.
      rewrite (Hup (set_sent pid now') sent Hsent (fun _ => eq_refl)
                   (set_status sending now' b) eq_refl).
      reflexivity.
    + unfold b. simpl. rewrite Hty. simpl in Hr. rewrite Hr.
      repeat split; auto.
  - destruct (Hmail eq_refl) as [-> Hsub].
    exists (set_sent pid now' (set_status sending now' b)).
    split; [exact Hl|]. split.
    + unfold EmailService.sendEmail, EmailService.sendEmail_try. cbn [negb].
      rewrite Hfind.
      assert (Hbt : message_type b = EMAIL) by (unfold b; simpl; exact Hty).
      assert (Hbp : recipient_email b = Some (MessageGeneration.md_contact md))
        by (unfold b; simpl; now rewrite Hty).
      assert (Hbs : subject b = MessageGeneration.md_subject md) by reflexivity.
      rewrite Hbt, Hbp, Hc, Hbs, Hsub. cbn [negb].
      rewrite (Hup (set_status sending now') sending Hsending (fun _ => eq_refl) b
                   eq_refl).
      unfold EmailService.sendWithRetry. simpl EmailService.sendWithRetry_left.
      rewrite Hp.
      rewrite (Hup (set_sent pid now') sent Hsent (fun _ => eq_refl)
                   (set_status sending now' b) eq_refl).
      reflexivity.
    + unfold b. simpl. rewrite Hty. simpl in Hr. rewrite Hr.
      repeat split; auto.
Qed.

Lemma created_message_is_dispatchable_witness :
  exists st' id md l m',
    MessageGeneration.createCampaignMessage Sample.shop Sample.three_days_later 1 11
                                            (Some "llc_day1_ein_sms")
    = Ok (st', (id, md))
    /\ MessageGeneration.md_messageType md = SMS
    /\ MessageGeneration.find_lead Sample.shop 1 = Some l
    /\ SMSService.sendSMS DispatchSample.any_status DispatchSample.accepting
                          (Sample.three_days_later + 1000) (messages st') 0 id
       = (messages Sample.shop ++ [m'], 1%nat, Ok (mkSendResult true None))
    /\ msg_status m' = sent
    /\ recipient_phone m' = phone l.
Proof.
  destruct (MessageGeneration.createCampaignMessage
              Sample.shop Sample.three_days_later 1 11 (Some "llc_day1_ein_sms"))
    as [[st' [id md]]|e] eqn:Hc; [|vm_compute in Hc; discriminate].
  assert (Hty : MessageGeneration.md_messageType md = SMS)
    by (vm_compute in Hc; inversion Hc; reflexivity).
  destruct (created_message_is_dispatchable
              Sample.shop Sample.three_days_later 1 11 (Some "llc_day1_ein_sms")
              st' id md DispatchSample.any_status DispatchSample.accepting true
              0%nat (Sample.three_days_later + 1000) "pm-1" Hc
              (fun m (H : In m []) => match H with end)
              eq_refl eq_refl eq_refl
              (fun H => ltac:(rewrite Hty in H; discriminate)))
    as (l & m' & Hl & Hsend & _ & _ & _ & Hs & _ & _ & Hr).
  rewrite Hty in Hsend, Hr.
  exists st', id, md, l, m'. auto 10.
Defined.

(** What one tick does to the counters, the limits and the rows counted as
    sent from [since] on, on a table with unique keys. *)
Lemma processMessages_tick (status_check : status -> bool) (p : provider)
      (configured : bool) (w : worker) (ms : list message) (calls : nat)
      (now since : Z) :
  NoDup (map msg_id ms) -> since <= now ->
  NoDup (map msg_id (snd (fst (processMessages status_check p configured
                                               w ms calls now))))
  /\ exists j,
      0 <= j
      /\ fst (fst (processMessages status_check p configured w ms calls now))
         = mkWorker (isRunning w) (dailyMessageCount w + j)
                    (hourlyMessageCount w + j)
                    (lastHourReset w) (lastDayReset w) (w_settings w)
      /\ dailyMessageCount w + j
         <= Z.max (dailyMessageCount w) (dailyLimit (w_settings w))
      /\ hourlyMessageCount w + j
         <= Z.max (hourlyMessageCount w) (hourlyLimit (w_settings w))
      /\ count_sent_since
           (snd (fst (processMessages status_check p configured w ms calls now)))
           since
         = count_sent_since ms since + j.
Proof.
  intros Hnd Hsince. unfold processMessages.
  assert (Hsame : w = mkWorker (isRunning w) (dailyMessageCount w + 0)
                               (hourlyMessageCount w + 0)
                               (lastHourReset w) (lastDayReset w) (w_settings w))
    by (rewrite !Z.add_0_r; now destruct w).
  destruct (isRunning w) eqn:Hrun.
  { split; [exact Hnd|]. exists 0. cbn [fst snd]. repeat split; try lia.
    exact Hsame. }
  assert (Hidle : set_running false w
                  = mkWorker false (dailyMessageCount w + 0)
                             (hourlyMessageCount w + 0)
                             (lastHourReset w) (lastDayReset w) (w_settings w))
    by (unfold set_running; now rewrite !Z.add_0_r).
  destruct (Z.leb_spec (dailyLimit (w_settings w)) (dailyMessageCount w)) as [Hd|Hd].
  { split; [exact Hnd|]. exists 0. cbn [fst snd]. repeat split; try lia.
    exact Hidle. }
  destruct (Z.leb_spec (hourlyLimit (w_settings w)) (hourlyMessageCount w))
    as [Hh|Hh].
  { split; [exact Hnd|]. exists 0. cbn [fst snd]. repeat split; try lia.
    exact Hidle. }
  set (batchLimit := Z.min _ _).
  destruct (Z.leb_spec batchLimit 0) as [Hb|Hb].
  { split; [exact Hnd|]. exists 0. cbn [fst snd]. repeat split; try lia.
    exact Hidle. }
  pose proof (dispatch_loop_bounds status_check p configured now
                (pendingMessages ms batchLimit) (set_running true w) ms calls)
    as (j & Hj & Hw).
  pose proof (dispatch_loop_counts status_check p configured now since
                (pendingMessages ms batchLimit) Hsince (set_running true w) ms calls
                Hnd (pendingMessages_NoDup ms batchLimit Hnd)
                (fun b Hb => DispatchFacts.pendingMessages_In ms batchLimit b Hb))
    as (k & _ & Hh' & _ & Hc).
  pose proof (dispatch_loop_envelope status_check p configured now
                (pendingMessages ms batchLimit) (set_running true w) ms calls)
    as Henv.
  assert (Hlen : Z.of_nat (List.length (pendingMessages ms batchLimit)) <= batchLimit)
    by (apply AdmissionFacts.limit_offset_length; lia).
  destruct (dispatch_loop status_check p configured now
              (pendingMessages ms batchLimit) (set_running true w) ms calls)
    as [[w1 ms1] calls1].
  cbn [fst snd] in *. subst w1.
  cbn [hourlyMessageCount set_running] in Hh'.
  assert (k = j) by lia. subst k.
  split; [rewrite (envelope_ids _ _ Henv); exact Hnd|].
  exists j. unfold batchLimit in *.
  change (count_sent_since ms1 since) with (count_rows (counted since) ms1).
  change (count_sent_since ms since) with (count_rows (counted since) ms).
  repeat split; try lia.
Qed.

(** A pass of the health check does not change the rows counted as sent. *)
Lemma healthCheck_counted (status_check : status -> bool) (w : worker)
      (ms : list message) (now since : Z) :
  count_sent_since (fst (healthCheck status_check w ms now)) since
  = count_sent_since ms since.
Proof.
  unfold healthCheck.
  destruct (0 <? count_rows (stuck now) ms); [|reflexivity].
  destruct (update_messages status_check (stuck now)
                            (set_failed stuck_reason now) ms) as [ms'|e] eqn:Hu;
    [|reflexivity].
  apply update_messages_inv in Hu. subst ms'. cbn [fst].
  change (count_sent_since ?l since) with (count_rows (counted since) l).
  apply AdmissionFacts.count_rows_ext. intros m.
  unfold stuck.
  destruct (status_eqb (msg_status m) sending) eqn:Hs; simpl; [|reflexivity].
  destruct (updated_at m <? now - Clock.MS_PER_HOUR); [|reflexivity].
  unfold counted, sent_or_delivered. simpl.
  destruct (msg_status m); try discriminate.
  destruct (sent_at m); simpl; rewrite ?andb_false_r; reflexivity.
Qed.

(** The invariant of a run: unique keys, the settings of the start, and
    counters that grow with the rows counted as sent, within the limits. *)
Lemma dispatch_run_invariant
      (status_check : status -> bool) (p : provider) (configured : bool)
      (since : Z) (s0 s1 : RateVocabulary.dispatch_state) :
  RateVocabulary.dispatch_run status_check p configured since s0 s1 ->
  NoDup (map msg_id (snd (fst s0))) ->
  NoDup (map msg_id (snd (fst s1)))
  /\ w_settings (fst (fst s1)) = w_settings (fst (fst s0))
  /\ exists k,
      0 <= k
      /\ hourlyMessageCount (fst (fst s1)) = hourlyMessageCount (fst (fst s0)) + k
      /\ dailyMessageCount (fst (fst s1)) = dailyMessageCount (fst (fst s0)) + k
      /\ count_sent_since (snd (fst s1)) since
         = count_sent_since (snd (fst s0)) since + k
      /\ hourlyMessageCount (fst (fst s1))
         <= Z.max (hourlyMessageCount (fst (fst s0)))
                  (hourlyLimit (w_settings (fst (fst s0))))
      /\ dailyMessageCount (fst (fst s1))
         <= Z.max (dailyMessageCount (fst (fst s0)))
                  (dailyLimit (w_settings (fst (fst s0)))).
Proof.
  intros Hrun Hnd0.
  induction Hrun as [s|s s1 s2 Hrun IH Hstep].
  - split; [exact Hnd0|]. split; [reflexivity|].
    exists 0. repeat split; lia.
  - destruct (IH Hnd0) as (Hnd1 & Hset & k & Hk & Hh & Hd & Hc & Hhl & Hdl).
    destruct Hstep as [w ms calls now Hsince|w ms calls now
                       |w ms calls m Hpending Hfresh];
      cbn [fst snd] in *.
    + destruct (processMessages_tick status_check p configured w ms calls now since
                  Hnd1 Hsince) as (Hnd2 & j & Hj & Hw' & Hjd & Hjh & Hcount).
      destruct (processMessages status_check p configured w ms calls now)
        as [[w' ms'] calls'].
      cbn [fst snd] in *. subst w'.
      cbn [hourlyMessageCount dailyMessageCount w_settings] in *.
      split; [exact Hnd2|]. split; [exact Hset|].
      exists (k + j). rewrite Hset in Hjd, Hjh. repeat split; lia.
    + split.
      { rewrite (envelope_ids _ _ (healthCheck_envelope status_check w ms now)).
        exact Hnd1. }
      split; [exact Hset|].
      exists k. rewrite healthCheck_counted. repeat split; assumption.
    + split.
      { rewrite map_app. simpl.
        apply (Permutation_NoDup (l := msg_id m :: map msg_id ms)).
        - apply Permutation_cons_append.
        - constructor; assumption. }
      split; [exact Hset|].
      exists k.
      assert (Hm : count_sent_since (ms ++ [m]) since = count_sent_since ms since).
      { unfold count_sent_since. rewrite filter_app, length_app. simpl.
        unfold sent_or_delivered. rewrite Hpending.
        destruct (sent_at m); [rewrite andb_false_r|]; simpl; lia. }
      rewrite Hm. repeat split; assumption.
Qed.

Lemma dispatch_run_earlier
      (status_check : status -> bool) (p : provider) (configured : bool)
      (since since' : Z) (s0 s1 : RateVocabulary.dispatch_state) :
  since' <= since ->
  RateVocabulary.dispatch_run status_check p configured since s0 s1 ->
  RateVocabulary.dispatch_run status_check p configured since' s0 s1.
Proof.
  intros Hle Hrun. induction Hrun as [s|s s1 s2 Hrun IH Hstep].
  - apply RateVocabulary.run_done.
  - apply (RateVocabulary.run_step _ _ _ _ _ s1); [exact IH|].
    destruct Hstep as [w ms calls now Hsince|w ms calls now
                       |w ms calls m Hpending Hfresh].
    + apply RateVocabulary.step_tick. lia.
    + apply RateVocabulary.step_health.
    + now apply RateVocabulary.step_created.
Qed.

(** X19.  The rate limits hold.  Start, at an instant of an hour that begins
    at [hour] in a day that begins at [day], from a table with unique Message
    keys and from counters that agree with the store: the hourly counter with
    the number of Messages sent since [hour], the daily counter with the
    number sent since [day], as [resetCounters] leaves them.  Then, however
    ticks of [processMessages], passes of [healthCheck] and creations of
    pending Messages follow one another from [hour] on, the counters keep
    agreeing with the store, and the number of Messages sent since [hour]
    never exceeds the hourly limit, nor the number sent since [day] the daily
    limit, unless it did at the start. *)
Theorem rate_limits_hold
        (status_check : status -> bool) (p : provider) (configured : bool)
        (hour day : Z) (w0 : worker) (ms0 : list message) (calls0 : nat)
        (w1 : worker) (ms1 : list message) (calls1 : nat) :
  NoDup (map msg_id ms0) ->
  day <= hour ->
  hourlyMessageCount w0 = count_sent_since ms0 hour ->
  dailyMessageCount w0 = count_sent_since ms0 day ->
  RateVocabulary.dispatch_run status_check p configured hour
                              (w0, ms0, calls0) (w1, ms1, calls1) ->
  hourlyMessageCount w1 = count_sent_since ms1 hour
  /\ dailyMessageCount w1 = count_sent_since ms1 day
  /\ count_sent_since ms1 hour
     <= Z.max (count_sent_since ms0 hour) (hourlyLimit (w_settings w0))
  /\ count_sent_since ms1 day
     <= Z.max (count_sent_since ms0 day) (dailyLimit (w_settings w0)).
Proof.
  intros Hnd Hle Hh0 Hd0 Hrun.
  destruct (dispatch_run_invariant _ _ _ _ _ _ Hrun Hnd)
    as (_ & _ & k & _ & Hh & _ & Hc & Hhl & _).
  destruct (dispatch_run_invariant _ _ _ _ _ _
              (dispatch_run_earlier _ _ _ _ day _ _ Hle Hrun) Hnd)
    as (_ & _ & k' & _ & _ & Hd & Hc' & _ & Hdl).
  cbn [fst snd] in *.
  repeat split; lia.
Qed.

(** After a start that reconciles the counters, the creation of a pending
    Message and a tick that sends it: the counters agree with the store. *)
Lemma rate_limits_hold_witness :
  let now := Sample.three_days_later in
  let w0 := start (constructor now) default_settings [DispatchSample.dead] now in
  let s1 := processMessages DispatchSample.any_status DispatchSample.flaky true w0
              ([DispatchSample.dead] ++ [DispatchSample.ready_sms]) 0 now in
  hourlyMessageCount (fst (fst s1))
  = count_sent_since (snd (fst s1)) (Clock.DATE_TRUNC_hour now)
  /\ hourlyMessageCount (fst (fst s1)) = 1.
Proof.
  intros now w0 s1. split; [|reflexivity].
  refine (proj1 (rate_limits_hold
                   DispatchSample.any_status DispatchSample.flaky true
                   (Clock.DATE_TRUNC_hour now) (Clock.DATE_TRUNC_day now)
                   w0 [DispatchSample.dead] 0%nat
                   (fst (fst s1)) (snd (fst s1)) (snd s1) _ _ _ _ _)).
  - repeat constructor. simpl. tauto.
  - vm_compute. discriminate.
  - reflexivity.
  - reflexivity.
  - eapply RateVocabulary.run_step.
    + eapply RateVocabulary.run_step.
      * apply RateVocabulary.run_done.
      * apply (RateVocabulary.step_created _ _ _ _ w0 [DispatchSample.dead] 0%nat
                 DispatchSample.ready_sms).
        -- reflexivity.
        -- simpl. intros [H|[]]. discriminate.
    + replace (fst (fst s1), snd (fst s1), snd s1) with s1
        by (destruct s1 as [[a b] c]; reflexivity).
      apply RateVocabulary.step_tick. vm_compute. discriminate.
Defined.

End DeliveryFacts.

(* ===================================================================== *)
(** * Properties of the rotation of the affiliate link                   *)
(* ===================================================================== *)

Module RotationFacts.

Import AffiliateRotation.

Lemma ToInt32_range (z : Z) : - 2 ^ 31 <= ToInt32 z < 2 ^ 31.
Proof.
  unfold ToInt32.
  pose proof (Z.mod_pos_bound (z + 2 ^ 31) (2 ^ 32) ltac:(lia)). lia.
Qed.

Lemma ToInt32_small (z : Z) : - 2 ^ 31 <= z < 2 ^ 31 -> ToInt32 z = z.
Proof.
  intros H. unfold ToInt32. rewrite Z.mod_small; lia.
Qed.

Lemma ToInt32_add_l (a b : Z) : ToInt32 (ToInt32 a + b) = ToInt32 (a + b).
Proof.
  unfold ToInt32. f_equal.
  replace ((a + 2 ^ 31) mod 2 ^ 32 - 2 ^ 31 + b + 2 ^ 31)
    with ((a + 2 ^ 31) mod 2 ^ 32 + b) by lia.
  rewrite Zplus_mod_idemp_l. f_equal. lia.
Qed.

(** One round of the loop multiplies by 31, adds the code unit and wraps. *)
Lemma hash_step_31 (h c : Z) :
  - 2 ^ 31 <= h < 2 ^ 31 -> hash_step h c = ToInt32 (31 * h + c).
Proof.
  intros Hh. unfold hash_step.
  rewrite (ToInt32_small h Hh), Z.shiftl_mul_pow2 by lia.
  replace (ToInt32 (h * 2 ^ 5) - h + c) with (ToInt32 (h * 2 ^ 5) + (- h + c)) by lia.
  rewrite ToInt32_add_l. f_equal. lia.
Qed.

Lemma fold_hash_step (str : list Z) :
  forall h, - 2 ^ 31 <= h < 2 ^ 31 ->
    fold_left hash_step str h = fold_left (fun h c => ToInt32 (31 * h + c)) str h
    /\ - 2 ^ 31 <= fold_left hash_step str h < 2 ^ 31.
Proof.
  induction str as [|c str IH]; intros h Hh; [simpl; auto|].
  simpl. rewrite (hash_step_31 h c Hh). apply IH. apply ToInt32_range.
Qed.

(** X20.  The rotation is total.  [simpleHash] is the multiply-by-31 hash of
    the code units, wrapped to 32 bits at each round, in absolute value: it
    lies between 0 and 2^31 inclusive (2^31 is the absolute value of the
    lowest 32-bit integer).  So the index [hash % 4] is always one of 0..3 and
    [getRotatedAffiliateLink] always picks one of its four services, never an
    undefined one. *)
Theorem getRotatedAffiliateLink_picks_a_service (leadId : list Z) :
  simpleHash leadId
  = Z.abs (fold_left (fun h c => ToInt32 (31 * h + c)) leadId 0)
  /\ 0 <= simpleHash leadId <= 2 ^ 31
  /\ exists service,
      rotatedService leadId = Some service /\ In service services.
Proof.
  destruct (fold_hash_step leadId 0 ltac:(lia)) as [Heq Hrange].
  unfold simpleHash. split; [now rewrite Heq|]. split; [lia|].
  unfold rotatedService, simpleHash.
  set (h := Z.abs (fold_left hash_step leadId 0)).
  assert (Hh : 0 <= h) by (unfold h; lia).
  pose proof (Z.rem_bound_pos h (Z.of_nat (List.length services)) Hh
                ltac:(simpl; lia)) as Hrem.
  destruct (nth_error services
              (Z.to_nat (Z.rem h (Z.of_nat (List.length services)))))
    as [service|] eqn:Hn.
  - exists service. split; [reflexivity|]. eapply nth_error_In, Hn.
  - exfalso. apply nth_error_None in Hn. lia.
Qed.

(** The upper bound is reached: the hash of this text is the absolute
    value of the lowest 32-bit integer, and a service is still selected. *)
Example simpleHash_reaches_upper_bound :
  simpleHash (charCodes "polygenelubricants") = 2 ^ 31
  /\ rotatedService (charCodes "polygenelubricants") = Some "ein".
Proof. split; vm_compute; reflexivity. Qed.

End RotationFacts.

(* ===================================================================== *)
(** * Further properties of the creation of Messages                     *)
(* ===================================================================== *)

Module CreationFacts.

Import MessageGeneration.

(** X21.  The channel of a Message comes from its template.  A successful
    [createCampaignMessage] appends exactly one row, pending and created at
    the instant of the call, under the key it returns.  Its template is the
    one named in the call or, when none is named (null or empty), the template
    of the campaign, else the default of the campaign's channel; that template
    is active; the channel of the Message is the type of the template,
    whatever the channel of the campaign; and the Message carries the lead's
    phone number and no e-mail address when that type is SMS, the lead's
    e-mail address and no phone number when it is e-mail. *)
Theorem createCampaignMessage_channel_from_template
        (st : store) (now : Z) (leadId campaignId : uuid)
        (templateName : option string) (st' : store) (id : uuid)
        (md : messageData) :
  createCampaignMessage st now leadId campaignId templateName = Ok (st', (id, md)) ->
  exists c tpl l m,
    find_campaign st campaignId = Some c
    /\ md_templateName md
       = match templateName with
         | Some t => if String.eqb t "" then getCampaignTemplateName st c else t
         | None => getCampaignTemplateName st c
         end
    /\ find_active_template st (md_templateName md) = Some tpl
    /\ find_lead st leadId = Some l
    /\ messages st' = messages st ++ [m]
    /\ msg_id m = id /\ msg_lead_id m = leadId /\ campaign_id m = Some campaignId
    /\ template_name m = md_templateName md
    /\ message_type m = tpl_type tpl
    /\ msg_status m = pending /\ created_at m = now
    /\ match tpl_type tpl with
       | SMS => recipient_phone m = phone l /\ recipient_email m = None
       | EMAIL => recipient_email m = email l /\ recipient_phone m = None
       end.
Proof.
  unfold createCampaignMessage. intros H.
  destruct (find_campaign st campaignId) as [c|]; [|discriminate].
  set (t := if truthy templateName then _ else _) in H.
  assert (Ht : t = match templateName with
                   | Some t => if String.eqb t "" then getCampaignTemplateName st c
                               else t
                   | None => getCampaignTemplateName st c
                   end).
  { unfold t, truthy. destruct templateName as [x|]; [|reflexivity].
    now destruct (String.eqb x ""). }
  clearbody t.
  destruct (generateMessage st leadId t) as [md0|e] eqn:Hg; [|discriminate].
  simpl in H. inversion H; subst st' id md0; clear H.
  unfold generateMessage in Hg.
  destruct (find_lead st leadId) as [l|]; [|discriminate].
  destruct (find_active_template st t) as [tpl|] eqn:Htpl; [|discriminate].
  destruct (getRecipient l (tpl_type tpl)) as [contact|] eqn:Hr; [|discriminate].
  destruct (String.eqb contact ""); [discriminate|].
  inversion Hg; subst md; clear Hg. cbn [md_templateName].
  exists c, tpl, l. eexists. cbn [messages].
  split; [reflexivity|]. split; [exact Ht|]. split; [exact Htpl|].
  split; [reflexivity|]. split; [reflexivity|].
  unfold new_message. cbn.
  repeat (split; [reflexivity|]).
  unfold getRecipient in Hr. destruct (tpl_type tpl); now rewrite Hr.
Qed.

(** A Message created for the e-mail campaign of the sample store from an
    SMS template is an SMS Message. *)
Lemma createCampaignMessage_channel_from_template_witness :
  camp_message_type Sample.email_sequence = "email"
  /\ exists st' id md m,
      createCampaignMessage Sample.shop Sample.three_days_later 1 10
                            (Some "llc_day1_ein_sms") = Ok (st', (id, md))
      /\ messages st' = messages Sample.shop ++ [m]
      /\ message_type m = SMS
      /\ recipient_phone m = Some "+15550100".
Proof.
  split; [reflexivity|].
  destruct (createCampaignMessage Sample.shop Sample.three_days_later 1 10
                                  (Some "llc_day1_ein_sms"))
    as [[st' [id md]]|e] eqn:Hc; [|vm_compute in Hc; discriminate].
  destruct (createCampaignMessage_channel_from_template _ _ _ _ _ _ _ _ Hc)
    as (c & tpl & l & m & _ & _ & _ & _ & Hms & _ & _ & _ & _ & _ & _ & _ & _).
  exists st', id, md, m. split; [reflexivity|]. split; [exact Hms|].
  vm_compute in Hc. inversion Hc; subst st' id md; clear Hc.
  cbn in Hms. inversion Hms; subst m. split; reflexivity.
Defined.

End CreationFacts.

(* ===================================================================== *)
(** * Properties of the opt-out requests                                 *)
(* ===================================================================== *)

Module OptOutFacts.

Import OptOutHandling OptOutVocabulary MessageWorker.

Lemma varchar_fits (n : nat) (s : string) :
  (String.length s <= n)%nat -> varchar n s = Some s.
Proof.
  intros H. unfold varchar.
  destruct (Nat.leb_spec (String.length s) n); [reflexivity|lia].
Qed.

(** A row that holds the contact of the lead, of a type that covers the
    channel, opts the lead out. *)
Lemma opt_out_matches_contact (ch : channel) (l : lead) (o : opt_out)
      (contact : string) :
  MessageGeneration.getRecipient l ch = Some contact ->
  sql_eq_str (oo_contact ch o) (Some contact) = true ->
  oo_type o <> other_channel_only ch ->
  LeadFiltering.opt_out_matches l o = true.
Proof.
  intros Hl Ho Ht. unfold LeadFiltering.opt_out_matches.
  destruct ch; simpl in *.
  - rewrite Hl, Ho. destruct (oo_type o); [reflexivity|contradiction|reflexivity].
  - rewrite Hl, Ho.
    destruct (oo_type o); [contradiction| |]; simpl;
      rewrite ?orb_true_r; reflexivity.
Qed.

Lemma insert_opt_out_covers (ch : channel) (st : store) (contact : string)
      (leadId : option uuid) (os : list opt_out) (l : lead) :
  (String.length contact <= contact_length ch)%nat ->
  (forall o, In o (opt_outs st) -> oo_contact ch o = Some contact ->
             oo_type o <> other_channel_only ch) ->
  insert_opt_out true ch contact leadId st = Some os ->
  MessageGeneration.getRecipient l ch = Some contact ->
  existsb (LeadFiltering.opt_out_matches l) os = true
  /\ existsb (fun o => sql_eq_str (oo_contact ch o) (Some contact)) os = true.
Proof.
  intros Hlen Htypes Hins Hl. unfold insert_opt_out in Hins. simpl in Hins.
  rewrite (varchar_fits _ _ Hlen) in Hins.
  destruct (existsb (fun o => sql_eq_str (oo_contact ch o) (Some contact))
                    (opt_outs st)) eqn:Hex.
  - inversion Hins; subst os. split; [|exact Hex].
    apply existsb_exists in Hex. destruct Hex as (o & Hin & Ho).
    apply existsb_exists. exists o. split; [exact Hin|].
    apply (opt_out_matches_contact ch l o contact Hl Ho).
    apply Htypes; [exact Hin|].
    unfold sql_eq_str in Ho. destruct (oo_contact ch o) as [x|]; [|discriminate].
    apply String.eqb_eq in Ho. now subst x.
  - assert (Hnew : sql_eq_str (oo_contact ch (opt_out_row ch contact leadId))
                              (Some contact) = true)
      by (destruct ch; simpl; apply String.eqb_refl).
    assert (Hos : os = opt_outs st ++ [opt_out_row ch contact leadId]).
    { destruct leadId as [id|]; [|now inversion Hins].
      destruct (existsb (fun l0 => Z.eqb (lead_id l0) id) (leads st));
        [now inversion Hins|discriminate]. }
    subst os. rewrite !existsb_app. simpl. rewrite Hnew, !orb_true_r.
    split; [|reflexivity].
    rewrite (opt_out_matches_contact ch l _ contact Hl Hnew);
      [now rewrite orb_true_r|].
    destruct ch; discriminate.
Qed.

Lemma insert_opt_out_accepted (ch : channel) (st : store) (contact : string)
      (leadId : option uuid) :
  (String.length contact <= contact_length ch)%nat ->
  (forall id, leadId = Some id -> exists l, In l (leads st) /\ lead_id l = id) ->
  exists os, insert_opt_out true ch contact leadId st = Some os.
Proof.
  intros Hlen Hlead. unfold insert_opt_out. simpl.
  rewrite (varchar_fits _ _ Hlen).
  destruct (existsb _ (opt_outs st)); [eauto|].
  destruct leadId as [id|]; [|eauto].
  destruct (Hlead id eq_refl) as (l & Hin & Hid).
  replace (existsb (fun l0 => Z.eqb (lead_id l0) id) (leads st)) with true; [eauto|].
  symmetry. apply existsb_exists. exists l. split; [exact Hin|].
  now apply Z.eqb_eq.
Qed.

(** X22.  An opt-out request.  On the schema of the repository, which declares
    no unique constraint on the contact columns of opt_outs, [handleOptOut] of
    either service throws and records nothing.  On a store that has such a
    constraint and admits status opted_out, for a contact that fits its
    column, a lead key that is null or a lead's, and no earlier row that holds
    the contact with a type of the other channel only: the call succeeds; it
    changes no lead, campaign or template; every lead with that contact is
    then opted out for the selections; no Message to that contact is left
    pending, the other Messages are as they were, and a later tick of the
    dispatcher touches none of the Messages to that contact; and a second
    request for the same contact changes nothing. *)
Theorem handleOptOut_round_trip
        (status_check : status -> bool) (ch : channel) (st : store) (now : Z)
        (contact : string) (leadId : option uuid) :
  handleOptOut status_check opt_outs_conflict_target ch st now contact leadId
  = (st, OptOutThrows)
  /\ (status_check opted_out = true ->
      (String.length contact <= contact_length ch)%nat ->
      (forall id, leadId = Some id -> exists l, In l (leads st) /\ lead_id l = id) ->
      (forall o, In o (opt_outs st) -> oo_contact ch o = Some contact ->
                 oo_type o <> other_channel_only ch) ->
      let st' := fst (handleOptOut status_check true ch st now contact leadId) in
      snd (handleOptOut status_check true ch st now contact leadId)
      = OptOutProcessed
      /\ leads st' = leads st /\ campaigns st' = campaigns st
      /\ message_templates st' = message_templates st
      /\ (forall l, MessageGeneration.getRecipient l ch = Some contact ->
                    LeadFiltering.opted_out st' l = true)
      /\ (forall m, In m (messages st') -> recipient ch m = Some contact ->
                    msg_status m <> pending)
      /\ (forall m, In m (messages st) -> pending_to ch contact m = false ->
                    In m (messages st'))
      /\ (forall p configured w calls now2 m,
             NoDup (map msg_id (messages st')) ->
             In m (messages st') -> recipient ch m = Some contact ->
             In m (snd (fst (processMessages status_check p configured w
                                             (messages st') calls now2))))
      /\ (forall now2,
             handleOptOut status_check true ch st' now2 contact leadId
             = (st', OptOutProcessed))).
Proof.
  split; [reflexivity|].
  intros Hchk Hlen Hlead Htypes.
  destruct (insert_opt_out_accepted ch st contact leadId Hlen Hlead) as [os Hins].
  assert (Hupd : forall ms,
            update_messages status_check (pending_to ch contact)
                            (set_status opted_out now) ms
            = Ok (map (fun m => if pending_to ch contact m
                                then set_status opted_out now m else m) ms))
    by (intros ms; apply HealthFacts.update_messages_ok; intros m; exact Hchk).
  unfold handleOptOut. rewrite Hins, Hupd. cbn [fst snd].
  set (ms' := map (fun m => if pending_to ch contact m
                            then set_status opted_out now m else m) (messages st)).
  assert (Hnone : forall m, In m ms' -> recipient ch m = Some contact ->
                            msg_status m <> pending).
  { intros m Hin Hr. unfold ms' in Hin. apply in_map_iff in Hin.
    destruct Hin as (m0 & <- & _).
    destruct (pending_to ch contact m0) eqn:Hp; [discriminate|].
    unfold pending_to in Hp. rewrite Hr in Hp. simpl in Hp.
    rewrite String.eqb_refl in Hp. simpl in Hp.
    intros Hs. rewrite Hs in Hp. discriminate. }
  split; [reflexivity|]. split; [reflexivity|]. split; [reflexivity|].
  split; [reflexivity|].
  split.
  { intros l Hl. unfold LeadFiltering.opted_out. cbn [opt_outs with_messages].
    exact (proj1 (insert_opt_out_covers ch st contact leadId os l Hlen Htypes
                    Hins Hl)). }
  split; [exact Hnone|].
  split.
  { intros m Hin Hp. cbn [messages with_messages]. unfold ms'.
    apply in_map_iff. exists m. now rewrite Hp. }
  split.
  { intros p configured w calls now2 m Hnd Hin Hr.
    cbn [messages with_messages] in *.
    apply DispatchFacts.processMessages_keeps_not_pending;
      [exact Hnd|exact Hin|now apply Hnone]. }
  intros now2.
  set (st1 := mkStore (leads st) (campaigns st) (message_templates st) os ms'
                      (next_uuid st)).
  change (with_messages _ ms') with st1.
  assert (Hins2 : insert_opt_out true ch contact leadId st1 = Some os).
  { unfold insert_opt_out. simpl. rewrite (varchar_fits _ _ Hlen).
    assert (Hl0 : exists o, In o os
                            /\ sql_eq_str (oo_contact ch o) (Some contact) = true).
    { unfold insert_opt_out in Hins. simpl in Hins.
      rewrite (varchar_fits _ _ Hlen) in Hins.
      destruct (existsb (fun o => sql_eq_str (oo_contact ch o) (Some contact))
                        (opt_outs st)) eqn:Hex.
      - inversion Hins; subst os. apply existsb_exists in Hex. exact Hex.
      - exists (opt_out_row ch contact leadId). split.
        + destruct leadId as [id|].
          * destruct (existsb (fun l0 => Z.eqb (lead_id l0) id) (leads st));
              [|discriminate].
            inversion Hins. apply in_or_app. right. now left.
          * inversion Hins. apply in_or_app. right. now left.
        + destruct ch; simpl; apply String.eqb_refl. }
    replace (existsb (fun o => sql_eq_str (oo_contact ch o) (Some contact)) os)
      with true; [reflexivity|].
    symmetry. apply existsb_exists. exact Hl0. }
  rewrite Hins2.
  assert (Hupd2 : update_messages status_check (pending_to ch contact)
                                  (set_status opted_out now2) (messages st1)
                  = Ok ms').
  { rewrite HealthFacts.update_messages_ok by (intros m; exact Hchk).
    f_equal. cbn [messages st1]. rewrite <- (map_id ms') at 2.
    apply map_ext_in. intros m Hin.
    destruct (pending_to ch contact m) eqn:Hp; [|reflexivity].
    exfalso. unfold pending_to in Hp. apply andb_prop in Hp. destruct Hp as [Hr Hs].
    apply (Hnone m Hin).
    - unfold sql_eq_str in Hr. destruct (recipient ch m) as [x|]; [|discriminate].
      apply String.eqb_eq in Hr. now subst x.
    - destruct (msg_status m); try discriminate; reflexivity. }
  rewrite Hupd2. reflexivity.
Qed.

(** The lead of the sample store opts out of SMS by a reply, on a store with
    a unique constraint on opt_outs.phone: the lead is opted out, and of its
    two pending Messages the SMS one is withdrawn. *)
Lemma handleOptOut_round_trip_witness :
  let st := with_messages Sample.shop
                          [DispatchSample.ready_sms; DispatchSample.ready_email] in
  let st' := fst (handleOptOut messages_status_check true SMS st
                               Sample.three_days_later "+15550100" (Some 1)) in
  LeadFiltering.opted_out st Sample.acme = false
  /\ LeadFiltering.opted_out st' Sample.acme = true
  /\ map msg_status (messages st') = [opted_out; pending].
Proof.
  intros st st'. split; [reflexivity|]. split; [|reflexivity].
  destruct (proj2 (handleOptOut_round_trip messages_status_check SMS st
                     Sample.three_days_later "+15550100" (Some 1)))
    as (_ & _ & _ & _ & Hout & _).
  - reflexivity.
  - simpl. lia.
  - intros id Hid. inversion Hid; subst id. exists Sample.acme.
    split; [now left|reflexivity].
  - intros o [].
  - apply Hout. reflexivity.
Defined.

(** The condition on earlier rows is needed: ON CONFLICT DO UPDATE leaves
    the type of the row it finds.  With an earlier row that holds the phone
    number with type email, the SMS opt-out succeeds and the lead is still
    not opted out. *)
Example handleOptOut_keeps_type_of_earlier_row :
  let st := mkStore (leads Sample.shop) (campaigns Sample.shop)
                    (message_templates Sample.shop)
                    [mkOptOut (Some "+15550100") None None OptEmail] [] 1000 in
  let out := handleOptOut messages_status_check true SMS st
                          Sample.three_days_later "+15550100" (Some 1) in
  snd out = OptOutProcessed
  /\ LeadFiltering.opted_out (fst out) Sample.acme = false.
Proof. split; reflexivity. Qed.

End OptOutFacts.
